(** * WG0X EtherCAT motor-controller driver: a shallow embedding of wg0x.cpp

    The development follows [ethercat_hardware/src/wg0x.cpp]:

    - the rotate/XOR checksum and the mailbox frame builders,
    - the wrap-aware diagnostics aggregator,
    - the per-cycle command packing and status verification,
    - the mailbox engine (write, wait, read, repeat request),
    - the SPI EEPROM page read and page write, and the diagnostics poll,
    - the CRCs of the actuator record and the two status strings.

    Integers of the C++ code are carried as [Z] with the wrap-around of their
    C type written out.  Packed structures are carried as the list of their
    bytes, or as a record of the members that the code reads.  Calls that
    leave the translation unit (transport, clock, mutexes, motor models) are
    answered from a scripted [World]. *)

From Stdlib Require Import ZArith List Bool Lia.
From Stdlib Require String.
Import ListNotations.
Local Open Scope Z_scope.

(** ** Machine integers *)

Definition byte := Z.

Definition to_u8 (x : Z) : Z := x mod 256.
Definition to_u32 (x : Z) : Z := x mod 4294967296.

(** Two's complement reading of the low 32 bits ([int], [int32_t]). *)
Definition to_i32 (x : Z) : Z :=
  let u := to_u32 x in
  if u <? 2147483648 then u else u - 4294967296.

(** [bool(x)] for an integer [x]. *)
Definition nonzero (x : Z) : bool := negb (x =? 0).

(** ** Packed structures named by the code

    Only the members that wg0x.cpp reads are listed. *)

Record WG0XSafetyDisableStatus : Type := {
  safety_disable_status_ : Z;
  safety_disable_status_hold_ : Z;
  safety_disable_count_ : Z;             (* uint8_t *)
}.

Record WG0XSafetyDisableCounters : Type := {
  undervoltage_count_ : Z;               (* uint8_t, as are the next five *)
  over_current_count_ : Z;
  board_over_temp_count_ : Z;
  bridge_over_temp_count_ : Z;
  operate_disable_count_ : Z;
  watchdog_disable_count_ : Z;
}.

Record WG0XDiagnosticsInfo : Type := {
  safety_disable_counters_ : WG0XSafetyDisableCounters;
  mbx_command_irq_count_ : Z;
  pdi_timeout_error_count_ : Z;
  pdi_checksum_error_count_ : Z;
  supply_current_in_ : Z;
  config_offset_current_A_ : Z;
  config_offset_current_B_ : Z;
}.

(** The members of [WG0XStatus] read by [verifyState] outside the floating
    point telemetry sample. *)
Record WG0XStatus : Type := {
  mode_ : Z;                             (* uint8_t *)
  timestamp_ : Z;                        (* uint32_t *)
  board_temperature_ : Z;                (* int16_t *)
  bridge_temperature_ : Z;               (* int16_t *)
}.

(** ** Declarations of wg0x.h

    The header [ethercat_hardware/wg0x.h] is not part of the sources at hand.
    What the code of wg0x.cpp takes from it (enumerators, sizes, addresses and
    the bit layout of packed structures) is a parameter of the development. *)

Class Wg0xHeader : Type := {
  (** mode bits of [WG0XCommand::mode_] and [WG0XStatus::mode_] *)
  MODE_ENABLE : Z;
  MODE_CURRENT : Z;
  MODE_SAFETY_RESET : Z;
  MODE_SAFETY_LOCKOUT : Z;
  (** mailbox geometry *)
  MBX_SIZE : Z;
  MBX_HDR_SIZE : Z;                      (* sizeof(WG0XMbxHdr) *)
  MBX_COMMAND_PHY_ADDR : Z;
  MBX_COMMAND_SIZE : Z;
  MBX_STATUS_PHY_ADDR : Z;
  MBX_STATUS_SIZE : Z;
  (** the bytes of a [WG0XMbxHdr] in front of [checksum_], as left by the
      assignments to [address_], [length_], [seqnum_] and [write_nread_] *)
  hdr_fields : Z -> Z -> Z -> Z -> list byte;
  hdr_fields_length :
    forall a l s w, Z.of_nat (length (hdr_fields a l s w)) = MBX_HDR_SIZE - 1;
  (** SPI EEPROM state machine *)
  SPI_COMMAND_ADDR : Z;
  SPI_BUFFER_ADDR : Z;
  MAX_EEPROM_PAGE_SIZE : Z;
  NUM_EEPROM_PAGES : Z;
  spi_build_read : Z -> list byte;       (* WG0XSpiEepromCmd::build_read *)
  spi_operation : list byte -> Z;        (* WG0XSpiEepromCmd::operation_ *)
  spi_busy : list byte -> bool;          (* WG0XSpiEepromCmd::busy_ *)
  (** diagnostics blocks read through the mailbox *)
  SAFETY_DISABLE_STATUS_ADDR : Z;        (* WG0XSafetyDisableStatus::BASE_ADDR *)
  SAFETY_DISABLE_STATUS_SIZE : Z;
  DIAGNOSTICS_INFO_ADDR : Z;             (* WG0XDiagnosticsInfo::BASE_ADDR *)
  DIAGNOSTICS_INFO_SIZE : Z;
  USER_CONFIG_RAM_ADDR : Z;              (* WG0XUserConfigRam::BASE_ADDR *)
  USER_CONFIG_RAM_SIZE : Z;
  (** the bytes of a [WG0XUserConfigRam] of version 1 holding a zero offset,
      its CRC32 included *)
  user_config_ram : Z -> list byte;
  (** reading the packed bytes of a block as the structure *)
  decode_safety_disable_status : list byte -> WG0XSafetyDisableStatus;
  decode_diagnostics_info : list byte -> WG0XDiagnosticsInfo;
}.

(** [MODE_OFF] is the zero mode: [modeString] prints "OFF" exactly for
    [mode == 0]. *)
Definition MODE_OFF : Z := 0.

(** [BOOST_STATIC_ASSERT(sizeof(WG0XActuatorInfo) == 264)] and
    [BOOST_STATIC_ASSERT(sizeof(WG0XSpiEepromCmd) == 3)] *)
Definition ACTUATOR_INFO_SIZE : Z := 264.
Definition SPI_EEPROM_CMD_SIZE : Z := 3.

(** Modelled from the spec: [MBX_DATA_SIZE], declared in wg0x.h; the maximum
    write payload is the mailbox size minus header and checksum overhead. *)
Definition MBX_DATA_SIZE `{Wg0xHeader} : Z := MBX_SIZE - MBX_HDR_SIZE - 1.

(** ** Checksum codec *)

(** [WG0X::rotateRight8] *)
Definition rotateRight8 (i : Z) : Z :=
  let i := Z.land i 0xff in
  let i := Z.lor (Z.shiftr i 1) (Z.shiftl i 7) in
  Z.land i 0xff.

(** One turn of the loop of [computeChecksum]. *)
Definition checksum_step (checksum d : Z) : Z :=
  Z.land (Z.lxor (rotateRight8 checksum) d) 0xff.

(** [WG0X::computeChecksum]: [data] is the memory at the pointer, of which
    the first [length] bytes are folded. *)
Definition computeChecksum (data : list byte) (length : Z) : Z :=
  fold_left checksum_step (firstn (Z.to_nat length) data) 0x42.

(** ** Packed frame builder *)

Inductive MbxCmdType : Type := LOCAL_BUS_READ | LOCAL_BUS_WRITE.

Definition is_write (type : MbxCmdType) : bool :=
  match type with LOCAL_BUS_WRITE => true | LOCAL_BUS_READ => false end.

(** A [WG0XMbxHdr] is its [MBX_HDR_SIZE] bytes, [checksum_] last.
    [WG0XMbxHdr::build] answers [None] for [false]; the object is then left
    as it was.  The third branch of the source ([assert(0)]) needs a value
    outside the enumeration. *)
Definition WG0XMbxHdr_build `{Wg0xHeader}
    (address length : Z) (type : MbxCmdType) (seqnum : Z) : option (list byte) :=
  let too_large :=
    match type with
    | LOCAL_BUS_WRITE => MBX_DATA_SIZE <? length
    | LOCAL_BUS_READ => MBX_SIZE - 1 <? length
    end in
  if too_large then None
  else
    let fields :=
      hdr_fields address (to_u32 (length - 1)) seqnum
                 (if is_write type then 1 else 0) in
    let checksum_ :=
      rotateRight8 (computeChecksum fields (MBX_HDR_SIZE - 1)) in
    Some (fields ++ [to_u8 checksum_]).

(** [WG0XMbxHdr::verifyChecksum] *)
Definition WG0XMbxHdr_verifyChecksum `{Wg0xHeader} (this : list byte) : bool :=
  negb (computeChecksum this MBX_HDR_SIZE =? 0).

(** A [WG0XMbxCmd]: the header, then [data_] and the [checksum_] member as
    one region of [MBX_DATA_SIZE + 1] bytes. *)
Record WG0XMbxCmd : Type := {
  hdr_ : list byte;
  data_ : list byte;
}.

(** Store [bs] at offset [off] of [buf]. *)
Definition write_bytes (buf : list byte) (off : nat) (bs : list byte) : list byte :=
  firstn off buf ++ bs ++ skipn (off + length bs) buf.

Inductive BuildResult : Type :=
  | BuildFalse                       (* returned false *)
  | BuildTrue (cmd : WG0XMbxCmd)     (* returned true, the object as built *)
  | BuildOverrun.                    (* a copy ran past the end of an object *)

(** [WG0XMbxCmd::build].  [data = None] is the NULL pointer.  [memcpy] of
    [length] bytes needs [length] bytes at [data] and in [data_]; the store
    to [data_[length]] reaches the [checksum_] member for
    [length = MBX_DATA_SIZE] and is out of the object beyond it. *)
Definition WG0XMbxCmd_build `{Wg0xHeader} (this : WG0XMbxCmd)
    (address length : Z) (type : MbxCmdType) (seqnum : Z)
    (data : option (list byte)) : BuildResult :=
  match WG0XMbxHdr_build address length type seqnum with
  | None => BuildFalse
  | Some h =>
    let n := Z.to_nat length in
    let src_short :=
      match data with
      | Some d => (Z.of_nat (List.length d) <? length)
      | None => false
      end in
    if (MBX_DATA_SIZE <? length) || src_short then BuildOverrun
    else
      let copied :=
        match data with
        | Some d => firstn n d
        | None => repeat 0 n
        end in
      let data1 := write_bytes (data_ this) 0 copied in
      let checksum := rotateRight8 (computeChecksum data1 length) in
      let data2 := write_bytes data1 n [to_u8 checksum] in
      BuildTrue {| hdr_ := h; data_ := data2 |}
  end.

(** The bytes of a [WG0XMbxCmd] as they lie in memory. *)
Definition cmd_bytes (cmd : WG0XMbxCmd) : list byte := hdr_ cmd ++ data_ cmd.

(** ** Diagnostics aggregator *)

Record WG0XDiagnostics : Type := {
  first_ : bool;
  valid_ : bool;
  safety_disable_status_snap : WG0XSafetyDisableStatus;  (* safety_disable_status_ *)
  diagnostics_info_ : WG0XDiagnosticsInfo;
  safety_disable_total_ : Z;             (* uint32_t, as are the next six *)
  undervoltage_total_ : Z;
  over_current_total_ : Z;
  board_over_temp_total_ : Z;
  bridge_over_temp_total_ : Z;
  operate_disable_total_ : Z;
  watchdog_disable_total_ : Z;
  lock_errors_ : Z;
  checksum_errors_ : Z;
  zero_offset_ : Z;                      (* double, carried as its bit pattern *)
  cached_zero_offset_ : Z;               (* double, carried as its bit pattern *)
}.

(** [0xFF & ((uint32_t)(new_count - old_count))]: the operands are [uint8_t]
    promoted to [int]. *)
Definition counter_delta (new_count old_count : Z) : Z :=
  Z.land 0xFF (to_u32 (new_count - old_count)).

(** [total += delta] on a [uint32_t]. *)
Definition add_total (total delta : Z) : Z := to_u32 (total + delta).

(** [WG0XDiagnostics::update] *)
Definition WG0XDiagnostics_update (this : WG0XDiagnostics)
    (new_status : WG0XSafetyDisableStatus)
    (new_diagnostics_info : WG0XDiagnosticsInfo) : WG0XDiagnostics :=
  let new_counters := safety_disable_counters_ new_diagnostics_info in
  let old_counters := safety_disable_counters_ (diagnostics_info_ this) in
  {| first_ := false;
     valid_ := valid_ this;
     safety_disable_total_ :=
       add_total (safety_disable_total_ this)
         (counter_delta (safety_disable_count_ new_status)
            (safety_disable_count_ (safety_disable_status_snap this)));
     undervoltage_total_ :=
       add_total (undervoltage_total_ this)
         (counter_delta (undervoltage_count_ new_counters)
            (undervoltage_count_ old_counters));
     over_current_total_ :=
       add_total (over_current_total_ this)
         (counter_delta (over_current_count_ new_counters)
            (over_current_count_ old_counters));
     board_over_temp_total_ :=
       add_total (board_over_temp_total_ this)
         (counter_delta (board_over_temp_count_ new_counters)
            (board_over_temp_count_ old_counters));
     bridge_over_temp_total_ :=
       add_total (bridge_over_temp_total_ this)
         (counter_delta (bridge_over_temp_count_ new_counters)
            (bridge_over_temp_count_ old_counters));
     operate_disable_total_ :=
       add_total (operate_disable_total_ this)
         (counter_delta (operate_disable_count_ new_counters)
            (operate_disable_count_ old_counters));
     watchdog_disable_total_ :=
       add_total (watchdog_disable_total_ this)
         (counter_delta (watchdog_disable_count_ new_counters)
            (watchdog_disable_count_ old_counters));
     lock_errors_ := lock_errors_ this;
     checksum_errors_ := checksum_errors_ this;
     zero_offset_ := zero_offset_ this;
     cached_zero_offset_ := cached_zero_offset_ this;
     safety_disable_status_snap := new_status;
     diagnostics_info_ := new_diagnostics_info |}.

(** ** Cycle codec: command packing and status verification *)

(** Members of [WG0X] fixed by [initialize]: which collaborators are attached
    and how they are allowed to halt the motor. *)
Record WG0XSetup : Type := {
  motor_model_ : bool;                   (* motor_model_ != NULL *)
  motor_heating_model_ : bool;           (* motor_heating_model_ != NULL *)
  disable_halt_ : bool;                  (* motor_heating_model_common_->disable_halt_ *)
  disable_motor_model_checking_ : bool;
}.

(** Members of [WG0X] that the realtime cycle reads and writes. *)
Record WG0XCycle : Type := {
  has_error_ : bool;
  too_many_dropped_packets_ : bool;
  status_checksum_error_ : bool;
  timestamp_jump_detected_ : bool;
  fpga_internal_reset_detected_ : bool;
  in_lockout_ : bool;
  resetting_ : bool;
  last_timestamp_ : Z;                   (* uint32_t *)
  last_last_timestamp_ : Z;              (* uint32_t *)
  drops_ : Z;                            (* int *)
  consecutive_drops_ : Z;                (* int *)
  max_consecutive_drops_ : Z;            (* int *)
  max_board_temperature_ : Z;
  max_bridge_temperature_ : Z;
  is_enabled_ : bool;                    (* actuator_.state_.is_enabled_ *)
  halted_ : bool;                        (* actuator_.state_.halted_ *)
  publish_motor_trace_ : bool;           (* publish_motor_trace_.command_.data_ *)
}.

(** The state left by the constructor [WG0X::WG0X]. *)
Definition WG0X_new : WG0XCycle :=
  {| has_error_ := false; too_many_dropped_packets_ := false;
     status_checksum_error_ := false; timestamp_jump_detected_ := false;
     fpga_internal_reset_detected_ := false; in_lockout_ := false;
     resetting_ := false; last_timestamp_ := 0; last_last_timestamp_ := 0;
     drops_ := 0; consecutive_drops_ := 0; max_consecutive_drops_ := 0;
     max_board_temperature_ := 0; max_bridge_temperature_ := 0;
     is_enabled_ := false; halted_ := false; publish_motor_trace_ := false |}.

(** Calls made on the motor model and the motor heating model. *)
Inductive TraceReason : Type := SafetyLockout | ManuallyTriggered.

Inductive ModelCall : Type :=
  | MotorSample | MotorCheckPublish | MotorVerify | MotorReset
  | MotorFlagPublish (reason : TraceReason) (level delay : Z)
  | HeatingUpdate | HeatingReset.

(** What the collaborators answer during one [verifyState]. *)
Record ModelAnswers : Type := {
  hasOverheated : bool;                  (* motor_heating_model_->hasOverheated() *)
  verify : bool;                         (* motor_model_->verify() *)
}.

(** [WG0X::clearErrorFlags] *)
Definition clearErrorFlags (setup : WG0XSetup) (w : WG0XCycle)
  : WG0XCycle * list ModelCall :=
  ({| has_error_ := false;
      too_many_dropped_packets_ := false;
      status_checksum_error_ := false;
      timestamp_jump_detected_ := false;
      fpga_internal_reset_detected_ := fpga_internal_reset_detected_ w;
      in_lockout_ := in_lockout_ w;
      resetting_ := resetting_ w;
      last_timestamp_ := last_timestamp_ w;
      last_last_timestamp_ := last_last_timestamp_ w;
      drops_ := drops_ w;
      consecutive_drops_ := consecutive_drops_ w;
      max_consecutive_drops_ := max_consecutive_drops_ w;
      max_board_temperature_ := max_board_temperature_ w;
      max_bridge_temperature_ := max_bridge_temperature_ w;
      is_enabled_ := is_enabled_ w;
      halted_ := halted_ w;
      publish_motor_trace_ := publish_motor_trace_ w |},
   (if motor_model_ setup then [MotorReset] else []) ++
   (if motor_heating_model_ setup then [HeatingReset] else [])).

Definition set_resetting (w : WG0XCycle) (reset : bool) : WG0XCycle :=
  {| has_error_ := has_error_ w;
     too_many_dropped_packets_ := too_many_dropped_packets_ w;
     status_checksum_error_ := status_checksum_error_ w;
     timestamp_jump_detected_ := timestamp_jump_detected_ w;
     fpga_internal_reset_detected_ := fpga_internal_reset_detected_ w;
     in_lockout_ := in_lockout_ w;
     resetting_ := reset;
     last_timestamp_ := last_timestamp_ w;
     last_last_timestamp_ := last_last_timestamp_ w;
     drops_ := drops_ w;
     consecutive_drops_ := consecutive_drops_ w;
     max_consecutive_drops_ := max_consecutive_drops_ w;
     max_board_temperature_ := max_board_temperature_ w;
     max_bridge_temperature_ := max_bridge_temperature_ w;
     is_enabled_ := is_enabled_ w;
     halted_ := halted_ w;
     publish_motor_trace_ := publish_motor_trace_ w |}.

(** The members of [WG0XCommand] written by [packCommand]; the trailing
    [checksum_] follows from them by [computeChecksum]. *)
Record WG0XCommand : Type := {
  c_programmed_current_ : Z;
  c_mode_ : Z;                           (* uint8_t *)
  c_digital_out_ : Z;
}.

(** What the controller asks for in one cycle.  [quantized_current] stands
    for [int(current / nominal_current_scale_)], the outcome of the floating
    point conversion and clamp of the requested effort (of effort 0 under
    [halt]). *)
Record ActuatorCommand : Type := {
  enable_ : bool;
  quantized_current : Z;
  digital_out_command : Z;
}.

(** [WG0X::packCommand].  The hand-over of a changed [zero_offset_] under
    [tryLockWG0XDiagnostics] touches no member listed in [WG0XCycle]. *)
Definition packCommand `{Wg0xHeader} (setup : WG0XSetup) (w : WG0XCycle)
    (cmd : ActuatorCommand) (halt reset : bool)
  : WG0XCycle * WG0XCommand * list ModelCall :=
  let '(w1, calls) :=
    if reset then clearErrorFlags setup w else (w, []) in
  let w2 := set_resetting w1 reset in
  let mode :=
    to_u8 (if enable_ cmd && negb halt && negb (has_error_ w2)
           then Z.lor MODE_ENABLE MODE_CURRENT else MODE_OFF) in
  let mode := to_u8 (Z.lor mode (if reset then MODE_SAFETY_RESET else 0)) in
  (w2,
   {| c_programmed_current_ := quantized_current cmd;
      c_mode_ := mode;
      c_digital_out_ := digital_out_command cmd |},
   calls).

(** [WG0X::timestamp_jump] *)
Definition timestamp_jump (timestamp last_timestamp amount : Z) : bool :=
  let timestamp_diff := to_u32 (timestamp - last_timestamp) in
  amount <? timestamp_diff.

(** The test of [verifyState] for a repeated frame:
    [this_status->timestamp_ == last_timestamp_ ||
     this_status->timestamp_ == last_last_timestamp_]. *)
Definition duplicate_timestamp (w : WG0XCycle) (this_status : WG0XStatus) : bool :=
  (timestamp_ this_status =? last_timestamp_ w) ||
  (timestamp_ this_status =? last_last_timestamp_ w).

(** [consecutive_drops_] after the two branches of that test:
    [++consecutive_drops_] or [consecutive_drops_ = 0]. *)
Definition count_consecutive_drops (w : WG0XCycle) (this_status : WG0XStatus) : Z :=
  if duplicate_timestamp w this_status
  then to_i32 (consecutive_drops_ w + 1) else 0.

(** The label at which [verifyState] leaves its chain of checks. *)
Inductive VerifyExit : Type :=
  | ExitDroppedPackets                   (* consecutive_drops_ > 10 *)
  | ExitSafetyLockout                    (* in_lockout_ && !resetting_ *)
  | ExitInternalReset                    (* fpga_internal_reset_detected_ *)
  | ExitMotorModel                       (* !motor_model_->verify() *)
  | ExitChecksPassed.                    (* fell through to [end] *)

Record VerifyResult : Type := {
  rv : bool;
  exit_at : VerifyExit;
  after : WG0XCycle;
  calls : list ModelCall;
}.

(** [WG0X::verifyState] *)
Definition verifyState `{Wg0xHeader} (setup : WG0XSetup) (w : WG0XCycle)
    (this_status prev_status : WG0XStatus) (ans : ModelAnswers) : VerifyResult :=
  (* telemetry sample for the attached models *)
  let calls1 :=
    (if motor_model_ setup then [MotorSample; MotorCheckPublish] else []) ++
    (if motor_heating_model_ setup then [HeatingUpdate] else []) in
  let rv0 :=
    negb (motor_heating_model_ setup &&
          negb (disable_halt_ setup) && hasOverheated ans) in
  let max_board := Z.max (max_board_temperature_ w) (board_temperature_ this_status) in
  let max_bridge := Z.max (max_bridge_temperature_ w) (bridge_temperature_ this_status) in
  (* duplicate timestamps *)
  let dropped := duplicate_timestamp w this_status in
  let drops := if dropped then to_i32 (drops_ w + 1) else drops_ w in
  let consecutive := count_consecutive_drops w this_status in
  let max_consecutive :=
    if dropped then Z.max (max_consecutive_drops_ w) consecutive
    else max_consecutive_drops_ w in
  let jump_detected :=
    if timestamp_jump (timestamp_ this_status) (last_timestamp_ w) 10000000
    then true else timestamp_jump_detected_ w in
  let lockout_bit := nonzero (Z.land (mode_ this_status) MODE_SAFETY_LOCKOUT) in
  (* the chain of checks, each leaving through [goto end] *)
  let '(rv1, exit1, too_many, in_lockout, calls2) :=
    if 10 <? consecutive then
      (false, ExitDroppedPackets, true, in_lockout_ w, [])
    else if lockout_bit && negb (resetting_ w) then
      (false, ExitSafetyLockout, too_many_dropped_packets_ w, lockout_bit, [])
    else if fpga_internal_reset_detected_ w then
      (false, ExitInternalReset, too_many_dropped_packets_ w, lockout_bit, [])
    else if is_enabled_ w && motor_model_ setup &&
            negb (disable_motor_model_checking_ setup) then
      if negb (verify ans) then
        (false, ExitMotorModel, too_many_dropped_packets_ w, lockout_bit,
         [MotorVerify])
      else
        (rv0, ExitChecksPassed, too_many_dropped_packets_ w, lockout_bit,
         [MotorVerify])
    else
      (rv0, ExitChecksPassed, too_many_dropped_packets_ w, lockout_bit, []) in
  (* end: *)
  let new_error := in_lockout && negb (resetting_ w) && negb (has_error_ w) in
  let publish :=
    motor_model_ setup && (new_error || publish_motor_trace_ w) in
  let calls3 :=
    if publish then
      [MotorFlagPublish (if new_error then SafetyLockout else ManuallyTriggered)
                        (if new_error then 2 else 0) 100]
    else [] in
  let is_error := negb rv1 in
  let has_error := is_error || has_error_ w in
  {| rv := rv1;
     exit_at := exit1;
     calls := calls1 ++ calls2 ++ calls3;
     after :=
       {| has_error_ := has_error;
          too_many_dropped_packets_ := too_many;
          status_checksum_error_ := status_checksum_error_ w;
          timestamp_jump_detected_ := jump_detected;
          fpga_internal_reset_detected_ := fpga_internal_reset_detected_ w;
          in_lockout_ := in_lockout;
          resetting_ := resetting_ w;
          last_timestamp_ := timestamp_ this_status;
          last_last_timestamp_ := last_timestamp_ w;
          drops_ := drops;
          consecutive_drops_ := consecutive;
          max_consecutive_drops_ := max_consecutive;
          max_board_temperature_ := max_board;
          max_bridge_temperature_ := max_bridge;
          is_enabled_ := is_enabled_ w;
          halted_ := has_error || (mode_ this_status =? MODE_OFF);
          publish_motor_trace_ :=
            if publish then false else publish_motor_trace_ w |} |}.

Definition set_is_enabled (w : WG0XCycle) (enabled : bool) : WG0XCycle :=
  {| has_error_ := has_error_ w;
     too_many_dropped_packets_ := too_many_dropped_packets_ w;
     status_checksum_error_ := status_checksum_error_ w;
     timestamp_jump_detected_ := timestamp_jump_detected_ w;
     fpga_internal_reset_detected_ := fpga_internal_reset_detected_ w;
     in_lockout_ := in_lockout_ w;
     resetting_ := resetting_ w;
     last_timestamp_ := last_timestamp_ w;
     last_last_timestamp_ := last_last_timestamp_ w;
     drops_ := drops_ w;
     consecutive_drops_ := consecutive_drops_ w;
     max_consecutive_drops_ := max_consecutive_drops_ w;
     max_board_temperature_ := max_board_temperature_ w;
     max_bridge_temperature_ := max_bridge_temperature_ w;
     is_enabled_ := enabled;
     halted_ := halted_ w;
     publish_motor_trace_ := publish_motor_trace_ w |}.

(** [WG0X::unpackState], as far as the members of [WG0XCycle] go: it records
    the enable bit of the frame and hands the frame to [verifyState].  The
    position, velocity, current and voltage it derives are floating point
    telemetry. *)
Definition unpackState `{Wg0xHeader} (setup : WG0XSetup) (w : WG0XCycle)
    (this_status prev_status : WG0XStatus) (ans : ModelAnswers) : VerifyResult :=
  verifyState setup
    (set_is_enabled w (nonzero (Z.land (mode_ this_status) MODE_ENABLE)))
    this_status prev_status ans.

Definition set_fpga_internal_reset_detected (w : WG0XCycle) : WG0XCycle :=
  {| has_error_ := has_error_ w;
     too_many_dropped_packets_ := too_many_dropped_packets_ w;
     status_checksum_error_ := status_checksum_error_ w;
     timestamp_jump_detected_ := timestamp_jump_detected_ w;
     fpga_internal_reset_detected_ := true;
     in_lockout_ := in_lockout_ w;
     resetting_ := resetting_ w;
     last_timestamp_ := last_timestamp_ w;
     last_last_timestamp_ := last_last_timestamp_ w;
     drops_ := drops_ w;
     consecutive_drops_ := consecutive_drops_ w;
     max_consecutive_drops_ := max_consecutive_drops_ w;
     max_board_temperature_ := max_board_temperature_ w;
     max_bridge_temperature_ := max_bridge_temperature_ w;
     is_enabled_ := is_enabled_ w;
     halted_ := halted_ w;
     publish_motor_trace_ := publish_motor_trace_ w |}.

(** The one write of [WG0X::publishGeneralDiagnostics] to a member of
    [WG0XCycle]; [safety_operational_hold] is
    [safety_disable_status_hold_ & SAFETY_OPERATIONAL] of the published
    snapshot. *)
Definition publishGeneralDiagnostics (w : WG0XCycle)
    (safety_operational_hold : bool) : WG0XCycle :=
  if timestamp_jump_detected_ w && safety_operational_hold
  then set_fpga_internal_reset_detected w else w.

(** *** The device as driven cycle after cycle

    Every write to a member of [WG0XCycle] in wg0x.cpp sits in the
    constructor or in one of the three entry points below. *)
Inductive CycleOp : Type :=
  | OpPackCommand (cmd : ActuatorCommand) (halt reset : bool)
  | OpUnpackState (this_status prev_status : WG0XStatus) (ans : ModelAnswers)
  | OpVerifyState (this_status prev_status : WG0XStatus) (ans : ModelAnswers)
  | OpPublishDiagnostics (safety_operational_hold : bool).

(** What an entry point hands back to its caller. *)
Inductive CycleOut : Type :=
  | OutCommand (c : WG0XCommand)
  | OutVerdict (ok : bool)
  | OutNothing.

Definition cycle_step `{Wg0xHeader} (setup : WG0XSetup) (w : WG0XCycle)
    (op : CycleOp) : WG0XCycle * CycleOut :=
  match op with
  | OpPackCommand cmd halt reset =>
      let '(w', c, _) := packCommand setup w cmd halt reset in (w', OutCommand c)
  | OpUnpackState this_status prev_status ans =>
      let r := unpackState setup w this_status prev_status ans in
      (after r, OutVerdict (rv r))
  | OpVerifyState this_status prev_status ans =>
      let r := verifyState setup w this_status prev_status ans in
      (after r, OutVerdict (rv r))
  | OpPublishDiagnostics hold => (publishGeneralDiagnostics w hold, OutNothing)
  end.

Fixpoint cycle_run `{Wg0xHeader} (setup : WG0XSetup) (w : WG0XCycle)
    (ops : list CycleOp) : WG0XCycle * list CycleOut :=
  match ops with
  | [] => (w, [])
  | op :: ops' =>
      let '(w1, out) := cycle_step setup w op in
      let '(w2, outs) := cycle_run setup w1 ops' in
      (w2, out :: outs)
  end.

(** No operation of the list is a [packCommand] with [reset = true]. *)
Definition is_reset (op : CycleOp) : bool :=
  match op with
  | OpPackCommand _ _ reset => reset
  | _ => false
  end.

(** Every command in the outputs has [mode_ == MODE_OFF]. *)
Definition commands_off (outs : list CycleOut) : Prop :=
  forall c, In (OutCommand c) outs -> c_mode_ c = MODE_OFF.

(** ** The world outside the translation unit

    The mailbox engine talks to the transport, the clock, the sync manager
    registers and two mutexes.  A [World] holds, for each of them, the
    answers it will give, in call order.  When a script has run out, the
    call fails: the frame is dropped, the clock or the register read
    reports an error, the lock is not acquired. *)

(** The answer of [com->txandrx_once(&frame)]: the frame did not come back,
    or it came back with the working counters of its first and second
    telegram and the bytes read by the first one. *)
Inductive TxAnswer : Type :=
  | TxDropped
  | TxReplied (wkc_start wkc_end : Z) (rx : list byte).

Inductive Telegram : Type :=
  | NPRD (address length : Z)
  | NPWR (address : Z) (data : list byte).

(** What is recorded in the trace: a frame handed to [txandrx_once], and
    a call of [_readMailboxRepeatRequest] (its own accesses to the sync
    manager are recorded in [syncman_log]). *)
Inductive Event : Type :=
  | EvTx (frame : list Telegram)
  | EvRepeatRequest.

(** [MbxDiagnostics] *)
Record MbxDiagnostics : Type := mkMbxDiagnostics {
  write_errors_ : Z;
  read_errors_ : Z;
  mbx_lock_errors_ : Z;                  (* lock_errors_ *)
  retries_ : Z;
  retry_errors_ : Z;
}.

(** [struct timespec] *)
Record timespec : Type := {
  tv_sec : Z;
  tv_nsec : Z;
}.

(** [timediff_ms]: computed in [long], returned as [int]. *)
Definition timediff_ms (current start : timespec) : Z :=
  to_i32 ((tv_sec current - tv_sec start) * 1000
          + Z.quot (tv_nsec current - tv_nsec start) 1000000).

(** What [SyncMan::readData] reads of the sync manager of the status
    mailbox, as far as [_readMailboxRepeatRequest] looks at it.  The class
    is declared in a header of the EtherCAT master library; the repeat
    request and its acknowledgement are fields of one bit, so that the [~]
    of the source toggles the request. *)
Record SyncMan : Type := {
  activate_repeat_request : bool;        (* sm.activate.repeat_request *)
  pdi_control_repeat_ack : bool;         (* sm.pdi_control.repeat_ack *)
  status_mailbox_status : Z;             (* sm.status.mailbox_status *)
}.

(** An access to the sync manager of the status mailbox made by
    [_readMailboxRepeatRequest]. *)
Inductive SyncManAccess : Type :=
  | SmRead                                     (* sm.readData *)
  | SmWriteActivate (repeat_request : bool).   (* sm.activate.writeData *)

Record World : Type := mkWorld {
  ec_state_ok : bool;        (* sh_->get_state() is EC_SAFEOP_STATE or EC_OP_STATE *)
  logic_wkc : Z;             (* EC_Logic::get_wkc() *)
  garbage : nat -> byte;     (* the bytes of a local declared without initialiser *)
  seqnums : list Z;          (* sh_->get_mbx_counter() *)
  txrx : list TxAnswer;      (* com->txandrx_once *)
  clock : list (option timespec);    (* safe_clock_gettime *)
  syncman : list (option byte);  (* readData of a sync manager status byte *)
  repeat_acks : list (option SyncMan);   (* sm.readData of _readMailboxRepeatRequest *)
  mutex : list bool;         (* pthread_mutex_lock / unlock returned 0 *)
  trace : list Event;        (* what went out, oldest first *)
  mailbox_diagnostics_ : MbxDiagnostics;
  syncman_writes : list bool;            (* sm.activate.writeData succeeded *)
  syncman_log : list SyncManAccess;      (* the accesses made, oldest first *)
}.

(** A computation in a world.  [None] stands for undefined behaviour: a copy
    that runs past the end of an object. *)
Definition M (A : Type) : Type := World -> option (A * World).

Definition ret {A : Type} (a : A) : M A := fun w => Some (a, w).

Definition bind {A B : Type} (m : M A) (k : A -> M B) : M B :=
  fun w => match m w with
           | Some (a, w') => k a w'
           | None => None
           end.

Definition undefined {A : Type} : M A := fun _ => None.

Notation "x <- m ;; k" := (bind m (fun x => k))
  (at level 61, m at next level, right associativity).
Notation "' p <- m ;; k" := (bind m (fun x => let p := x in k))
  (at level 61, p pattern, m at next level, right associativity).

(** A local object of [n] bytes declared without initialiser. *)
Definition uninitialised (n : Z) : M (list byte) :=
  fun w => Some (map (garbage w) (seq 0 (Z.to_nat n)), w).

Definition get_wkc : M Z := fun w => Some (logic_wkc w, w).

Definition get_mbx_counter : M Z :=
  fun w =>
    Some (hd 0 (seqnums w),
          mkWorld (ec_state_ok w) (logic_wkc w) (garbage w) (tl (seqnums w))
                  (txrx w) (clock w) (syncman w) (repeat_acks w) (mutex w)
                  (trace w) (mailbox_diagnostics_ w)
                  (syncman_writes w) (syncman_log w)).

(** [com->txandrx_once(&frame)] *)
Definition txandrx_once (frame : list Telegram) : M TxAnswer :=
  fun w =>
    Some (hd TxDropped (txrx w),
          mkWorld (ec_state_ok w) (logic_wkc w) (garbage w) (seqnums w)
                  (tl (txrx w)) (clock w) (syncman w) (repeat_acks w) (mutex w)
                  (trace w ++ [EvTx frame]) (mailbox_diagnostics_ w)
                  (syncman_writes w) (syncman_log w)).

(** [safe_clock_gettime(CLOCK_MONOTONIC, &t)]: [None] for a nonzero result. *)
Definition safe_clock_gettime : M (option timespec) :=
  fun w =>
    Some (hd None (clock w),
          mkWorld (ec_state_ok w) (logic_wkc w) (garbage w) (seqnums w)
                  (txrx w) (tl (clock w)) (syncman w) (repeat_acks w) (mutex w)
                  (trace w) (mailbox_diagnostics_ w)
                  (syncman_writes w) (syncman_log w)).

(** [readData(com, SyncManAddr, &SyncManStatus, 1, FIXED_ADDR)]: [None] for a
    nonzero result. *)
Definition readSyncManStatus : M (option byte) :=
  fun w =>
    Some (hd None (syncman w),
          mkWorld (ec_state_ok w) (logic_wkc w) (garbage w) (seqnums w)
                  (txrx w) (clock w) (tl (syncman w)) (repeat_acks w) (mutex w)
                  (trace w) (mailbox_diagnostics_ w)
                  (syncman_writes w) (syncman_log w)).

(** [SyncMan::readData] on the sync manager of the status mailbox, through
    [EthercatDevice::readData]: [None] for a result other than 0. *)
Definition SyncMan_readData : M (option SyncMan) :=
  fun w =>
    Some (hd None (repeat_acks w),
          mkWorld (ec_state_ok w) (logic_wkc w) (garbage w) (seqnums w)
                  (txrx w) (clock w) (syncman w) (tl (repeat_acks w)) (mutex w)
                  (trace w) (mailbox_diagnostics_ w)
                  (syncman_writes w) (syncman_log w ++ [SmRead])).

(** [SyncManActivate::writeData] of an activate register with the given
    repeat request bit, through [EthercatDevice::writeData]. *)
Definition SyncManActivate_writeData (repeat_request : bool) : M bool :=
  fun w =>
    Some (hd false (syncman_writes w),
          mkWorld (ec_state_ok w) (logic_wkc w) (garbage w) (seqnums w)
                  (txrx w) (clock w) (syncman w) (repeat_acks w) (mutex w)
                  (trace w) (mailbox_diagnostics_ w)
                  (tl (syncman_writes w))
                  (syncman_log w ++ [SmWriteActivate repeat_request])).

(** The call of [_readMailboxRepeatRequest] as it shows in the trace. *)
Definition log_repeat_request : M unit :=
  fun w =>
    Some (tt,
          mkWorld (ec_state_ok w) (logic_wkc w) (garbage w) (seqnums w)
                  (txrx w) (clock w) (syncman w) (repeat_acks w) (mutex w)
                  (trace w ++ [EvRepeatRequest]) (mailbox_diagnostics_ w)
                  (syncman_writes w) (syncman_log w)).

(** [pthread_mutex_lock(..) == 0] and [pthread_mutex_unlock(..) == 0] *)
Definition pthread_mutex : M bool :=
  fun w =>
    Some (hd false (mutex w),
          mkWorld (ec_state_ok w) (logic_wkc w) (garbage w) (seqnums w)
                  (txrx w) (clock w) (syncman w) (repeat_acks w) (tl (mutex w))
                  (trace w) (mailbox_diagnostics_ w)
                  (syncman_writes w) (syncman_log w)).

Definition update_mailbox_diagnostics (f : MbxDiagnostics -> MbxDiagnostics)
  : M unit :=
  fun w =>
    Some (tt,
          mkWorld (ec_state_ok w) (logic_wkc w) (garbage w) (seqnums w)
                  (txrx w) (clock w) (syncman w) (repeat_acks w) (mutex w)
                  (trace w) (f (mailbox_diagnostics_ w))
                  (syncman_writes w) (syncman_log w)).

Definition incr_write_errors (m : MbxDiagnostics) : MbxDiagnostics :=
  mkMbxDiagnostics (write_errors_ m + 1) (read_errors_ m) (mbx_lock_errors_ m)
                   (retries_ m) (retry_errors_ m).
Definition incr_read_errors (m : MbxDiagnostics) : MbxDiagnostics :=
  mkMbxDiagnostics (write_errors_ m) (read_errors_ m + 1) (mbx_lock_errors_ m)
                   (retries_ m) (retry_errors_ m).
Definition incr_lock_errors (m : MbxDiagnostics) : MbxDiagnostics :=
  mkMbxDiagnostics (write_errors_ m) (read_errors_ m) (mbx_lock_errors_ m + 1)
                   (retries_ m) (retry_errors_ m).
Definition incr_retries (m : MbxDiagnostics) : MbxDiagnostics :=
  mkMbxDiagnostics (write_errors_ m) (read_errors_ m) (mbx_lock_errors_ m)
                   (retries_ m + 1) (retry_errors_ m).
Definition incr_retry_errors (m : MbxDiagnostics) : MbxDiagnostics :=
  mkMbxDiagnostics (write_errors_ m) (read_errors_ m) (mbx_lock_errors_ m)
                   (retries_ m) (retry_errors_ m + 1).

(** ** Mailbox engine *)

(** [WG0X::verifyDeviceStateForMailboxOperation] *)
Definition verifyDeviceStateForMailboxOperation : M bool :=
  fun w => Some (ec_state_ok w, w).

(** The send loop shared by [clearReadMailbox], [writeMailboxInternal] and
    [readMailboxInternal]: the frame is sent until it comes back, [budget]
    times at most.  The result is the reply, if any, and the number of
    frames that did not come back; after each of those [updateIndexAndWkc]
    resets the working counters of the telegrams to [logic->get_wkc()]. *)
Fixpoint send_frame (budget : nat) (frame : list Telegram)
  : M (option (Z * Z * list byte) * Z) :=
  match budget with
  | O => ret (None, 0)
  | S budget' =>
      a <- txandrx_once frame ;;
      match a with
      | TxReplied wkc_start wkc_end rx => ret (Some (wkc_start, wkc_end, rx), 0)
      | TxDropped =>
          ' (r, dropped) <- send_frame budget' frame ;;
          ret (r, dropped + 1)
      end
  end.

(** [WG0X::clearReadMailbox] *)
Definition clearReadMailbox `{Wg0xHeader} : M bool :=
  ok <- verifyDeviceStateForMailboxOperation ;;
  if negb ok then ret false
  else
    let frame := [NPRD MBX_STATUS_PHY_ADDR 1;
                  NPRD (MBX_STATUS_PHY_ADDR + MBX_STATUS_SIZE - 1) 1] in
    ' (r, _) <- send_frame 15 frame ;;
    match r with
    | None => ret false                          (* too much packet loss *)
    | Some (wkc_start, wkc_end, _) =>
        if negb (wkc_start =? wkc_end) then ret false
        else if 1 <? wkc_start then ret false
        else ret true                            (* wkc 1 is only a warning *)
    end.

(** How a wait on a mailbox status bit ends. *)
Inductive WaitOutcome : Type :=
  | WaitReady                            (* the bit was seen as wanted *)
  | WaitClockError                       (* safe_clock_gettime failed *)
  | WaitTimedOut (timediff : Z).         (* timediff >= MAX_WAIT_TIME_MS *)

Definition wait_succeeded (o : WaitOutcome) : bool :=
  match o with WaitReady => true | _ => false end.

(** The [do ... while (timediff < MAX_WAIT_TIME_MS)] loop of the two waits,
    [MAX_WAIT_TIME_MS = 100].  [want_full] tells whether bit 3 of the sync
    manager status has to be set (read mailbox) or clear (write mailbox).
    Every turn reads the clock once, so the clock script bounds the loop. *)
Fixpoint wait_mailbox_loop (fuel : nat) (want_full : bool) (start : timespec)
  : M WaitOutcome :=
  match fuel with
  | O => ret WaitClockError
  | S fuel' =>
      s <- readSyncManStatus ;;
      let seen :=
        match s with
        | Some SyncManStatus =>
            Bool.eqb (nonzero (Z.land SyncManStatus (Z.shiftl 1 3))) want_full
        | None => false
        end in
      if seen then ret WaitReady
      else
        t <- safe_clock_gettime ;;
        match t with
        | None => ret WaitClockError
        | Some current_time =>
            let timediff := timediff_ms current_time start in
            if timediff <? 100 then wait_mailbox_loop fuel' want_full start
            else ret (WaitTimedOut timediff)
        end
  end.

Definition wait_mailbox (want_full : bool) : M WaitOutcome :=
  t <- safe_clock_gettime ;;
  match t with
  | None => ret WaitClockError
  | Some start_time =>
      fun w => wait_mailbox_loop (S (length (clock w))) want_full start_time w
  end.

(** [WG0X::waitForReadMailboxReady] *)
Definition waitForReadMailboxReady : M bool :=
  o <- wait_mailbox true ;; ret (wait_succeeded o).

(** [WG0X::waitForWriteMailboxReady] *)
Definition waitForWriteMailboxReady : M bool :=
  o <- wait_mailbox false ;; ret (wait_succeeded o).

(** [WG0X::writeMailboxInternal]: [data] is the memory at the pointer.  With
    [NDEBUG] the [assert] on the length is the [return false] after it. *)
Definition writeMailboxInternal `{Wg0xHeader} (data : list byte) (length : Z)
  : M bool :=
  if MBX_COMMAND_SIZE <? length then ret false
  else
    ok <- verifyDeviceStateForMailboxOperation ;;
    if negb ok then ret false
    else
      let split_write := length + 50 <? MBX_COMMAND_SIZE in
      let write_length := if split_write then length else MBX_COMMAND_SIZE in
      if Z.of_nat (List.length data) <? write_length then undefined
      else
        let write_start :=
          NPWR MBX_COMMAND_PHY_ADDR (firstn (Z.to_nat write_length) data) in
        let write_end :=
          NPWR (MBX_COMMAND_PHY_ADDR + MBX_COMMAND_SIZE - 1) [0] in
        let frame :=
          if split_write then [write_start; write_end] else [write_start] in
        ' (r, dropped) <- send_frame 10 frame ;;
        match r with
        | None => ret false                      (* too much packet loss *)
        | Some (wkc_start, wkc_end, _) =>
            let sends := dropped + 1 in
            if split_write && negb (wkc_start =? wkc_end) then ret false
            else if 1 <? wkc_start then ret false
            else if negb (wkc_start =? 1) then
              if sends <=? 1 then ret false      (* initial write refused *)
              else ret true                      (* repeated write refused *)
            else ret true
        end.

(** The [do ... while (timediff < MAX_WAIT_TIME_MS)] loop of
    [_readMailboxRepeatRequest], [MAX_WAIT_TIME_MS = 100]: the wait for the
    device to toggle the acknowledgement.  [orig_repeat_request] is
    [orig_activate.repeat_request].  Every turn that goes on reads the clock
    once, so the clock script bounds the loop. *)
Fixpoint repeat_ack_loop (fuel : nat) (orig_repeat_request : bool)
    (start_time : timespec) : M bool :=
  match fuel with
  | O => ret false
  | S fuel' =>
      r <- SyncMan_readData ;;
      match r with
      | None => ret false          (* could not read status mailbox syncman (2) *)
      | Some sm =>
          if Bool.eqb (activate_repeat_request sm) (pdi_control_repeat_ack sm)
          then
            if negb (status_mailbox_status sm =? 1)
            then ret false         (* read mailbox is still empty *)
            else ret true
          else if Bool.eqb (activate_repeat_request sm) orig_repeat_request
          then ret false           (* request was changed while waiting *)
          else
            t <- safe_clock_gettime ;;
            match t with
            | None => ret false
            | Some current_time =>
                let timediff := timediff_ms current_time start_time in
                if timediff <? 100
                then repeat_ack_loop fuel' orig_repeat_request start_time
                else ret false     (* not acknowledged after timediff ms *)
            end
      end
  end.

(** [WG0X::_readMailboxRepeatRequest] *)
Definition _readMailboxRepeatRequest : M bool :=
  _ <- log_repeat_request ;;
  r <- SyncMan_readData ;;
  match r with
  | None => ret false              (* could not read status mailbox syncman (1) *)
  | Some sm =>
      if negb (Bool.eqb (activate_repeat_request sm) (pdi_control_repeat_ack sm))
      then ret false               (* request and ack do not match *)
      else
        let orig_repeat_request := activate_repeat_request sm in
        written <- SyncManActivate_writeData (negb orig_repeat_request) ;;
        if negb written then ret false
        else
          t <- safe_clock_gettime ;;
          match t with
          | None => ret false
          | Some start_time =>
              fun w => repeat_ack_loop (S (length (clock w)))
                                       orig_repeat_request start_time w
          end
  end.

(** [WG0X::readMailboxRepeatRequest] *)
Definition readMailboxRepeatRequest : M bool :=
  success <- _readMailboxRepeatRequest ;;
  _ <- update_mailbox_diagnostics incr_retries ;;
  if negb success then
    _ <- update_mailbox_diagnostics incr_retry_errors ;; ret false
  else ret true.

(** The [for (tries = 0; tries < MAX_TRIES; ++tries)] loop of
    [readMailboxInternal], entered with [MAX_TRIES - tries] turns [left].
    [data] is the buffer of the first telegram. *)
Fixpoint read_loop (left : nat) (split_read : bool) (read_length : Z)
    (frame : list Telegram) (data : list byte) : M (bool * list byte) :=
  match left with
  | O => ret (false, data)                       (* tries >= MAX_TRIES *)
  | S left' =>
      ' (r, dropped) <- send_frame 10 frame ;;
      idle <- get_wkc ;;
      let '(wkc_start, wkc_end, data) :=
        match r with
        | Some (wkc_start, wkc_end, rx) =>
            (wkc_start, wkc_end,
             write_bytes data 0 (firstn (Z.to_nat read_length) rx))
        | None => (idle, idle, data)
        end in
      if split_read && negb (wkc_start =? wkc_end) then ret (false, data)
      else if wkc_start =? 0 then
        if dropped =? 0 then ret (false, data)   (* inconsistency *)
        else
          ok <- readMailboxRepeatRequest ;;
          if negb ok then ret (false, data)
          else read_loop left' split_read read_length frame data   (* continue *)
      else if wkc_start =? 1 then ret (true, data)
      else ret (false, data)
  end.

Definition MAX_TRIES : nat := 10.

(** [WG0X::readMailboxInternal] *)
Definition readMailboxInternal `{Wg0xHeader} (data : list byte) (length : Z)
  : M (bool * list byte) :=
  if MBX_STATUS_SIZE <? length then ret (false, data)
  else
    ok <- verifyDeviceStateForMailboxOperation ;;
    if negb ok then ret (false, data)
    else
      let split_read := length + 50 <? MBX_STATUS_SIZE in
      let read_length := if split_read then length else MBX_STATUS_SIZE in
      let read_start := NPRD MBX_STATUS_PHY_ADDR read_length in
      let read_end := NPRD (MBX_STATUS_PHY_ADDR + MBX_STATUS_SIZE - 1) 1 in
      let frame := if split_read then [read_start; read_end] else [read_start] in
      read_loop MAX_TRIES split_read read_length frame data.

(** [WG0X::lockMailbox] *)
Definition lockMailbox : M bool :=
  ok <- pthread_mutex ;;
  if negb ok then
    _ <- update_mailbox_diagnostics incr_lock_errors ;; ret false
  else ret true.

(** [WG0X::unlockMailbox] *)
Definition unlockMailbox : M unit :=
  ok <- pthread_mutex ;;
  if negb ok then update_mailbox_diagnostics incr_lock_errors else ret tt.

(** A [WG0XMbxCmd] declared on the stack. *)
Definition local_WG0XMbxCmd `{Wg0xHeader} : M WG0XMbxCmd :=
  h <- uninitialised MBX_HDR_SIZE ;;
  d <- uninitialised (MBX_DATA_SIZE + 1) ;;
  ret {| hdr_ := h; data_ := d |}.

(** [WG0X::readMailbox_]: [data] is the caller's buffer; the result is the
    return value and the buffer afterwards.  The first exit is the source's
    [return false] in a function returning [int]. *)
Definition readMailbox_ `{Wg0xHeader} (address : Z) (data : list byte)
    (length : Z) : M (Z * list byte) :=
  ok <- verifyDeviceStateForMailboxOperation ;;
  if negb ok then ret (0, data)
  else
    ok <- clearReadMailbox ;;
    if negb ok then ret (-1, data)
    else
      cmd <- local_WG0XMbxCmd ;;
      seqnum <- get_mbx_counter ;;
      match WG0XMbxCmd_build cmd address length LOCAL_BUS_READ seqnum (Some data) with
      | BuildOverrun => undefined
      | BuildFalse => ret (-1, data)
      | BuildTrue cmd =>
          ok <- writeMailboxInternal (cmd_bytes cmd) MBX_HDR_SIZE ;;
          if negb ok then ret (-1, data)
          else
            ok <- waitForReadMailboxReady ;;
            if negb ok then ret (-1, data)
            else
              (* WG0XMbxCmd stat; memset(&stat, 0, sizeof(stat)); *)
              ' (ok, stat) <- readMailboxInternal
                                (repeat 0 (Z.to_nat MBX_SIZE)) (length + 1) ;;
              if negb ok then ret (-1, data)
              else if negb (computeChecksum stat (length + 1) =? 0)
              then ret (-1, data)
              else ret (0, write_bytes data 0 (firstn (Z.to_nat length) stat))
      end.

(** [WG0X::readMailbox] *)
Definition readMailbox `{Wg0xHeader} (address : Z) (data : list byte)
    (length : Z) : M (Z * list byte) :=
  locked <- lockMailbox ;;
  if negb locked then ret (-1, data)
  else
    ' (result, data) <- readMailbox_ address data length ;;
    _ <- (if negb (result =? 0)
          then update_mailbox_diagnostics incr_read_errors else ret tt) ;;
    _ <- unlockMailbox ;;
    ret (result, data).

(** [WG0X::writeMailbox_].  [diagnoseMailboxError] is empty.  The outcome of
    the wait is returned next to the [int] of the source, which it does not
    enter. *)
Definition writeMailbox_traced `{Wg0xHeader} (address : Z) (data : list byte)
    (length : Z) : M (Z * option WaitOutcome) :=
  ok <- verifyDeviceStateForMailboxOperation ;;
  if negb ok then ret (-1, None)
  else
    cmd <- local_WG0XMbxCmd ;;
    seqnum <- get_mbx_counter ;;
    match WG0XMbxCmd_build cmd address length LOCAL_BUS_WRITE seqnum (Some data) with
    | BuildOverrun => undefined
    | BuildFalse => ret (-1, None)
    | BuildTrue cmd =>
        let write_length := MBX_HDR_SIZE + length + 1 in
        ok <- writeMailboxInternal (cmd_bytes cmd) write_length ;;
        if negb ok then ret (-1, None)
        else
          (* if (!waitForWriteMailboxReady(com)) { fprintf(stderr, ...); } *)
          o <- wait_mailbox false ;;
          ret (0, Some o)
    end.

Definition writeMailbox_ `{Wg0xHeader} (address : Z) (data : list byte)
    (length : Z) : M Z :=
  ' (result, _) <- writeMailbox_traced address data length ;; ret result.

(** [WG0X::writeMailbox] *)
Definition writeMailbox `{Wg0xHeader} (address : Z) (data : list byte)
    (length : Z) : M Z :=
  locked <- lockMailbox ;;
  if negb locked then ret (-1)
  else
    result <- writeMailbox_ address data length ;;
    _ <- (if negb (result =? 0)
          then update_mailbox_diagnostics incr_write_errors else ret tt) ;;
    _ <- unlockMailbox ;;
    ret result.

(** ** SPI EEPROM engine *)

(** [WG0X::readSpiEepromCmd]: [cmd] is the caller's [WG0XSpiEepromCmd]. *)
Definition readSpiEepromCmd `{Wg0xHeader} (cmd : list byte)
  : M (bool * list byte) :=
  ' (rc, cmd) <- readMailbox SPI_COMMAND_ADDR cmd SPI_EEPROM_CMD_SIZE ;;
  ret (rc =? 0, cmd).

(** The [do ... while (tries <= 10)] loop of [waitForSpiEepromReady], [tries]
    being incremented at the head of the body: eleven turns at most. *)
Fixpoint spi_idle_loop `{Wg0xHeader} (turns : nat) (cmd : list byte) : M bool :=
  match turns with
  | O => ret false                               (* timed out *)
  | S turns' =>
      ' (ok, cmd) <- readSpiEepromCmd cmd ;;
      if negb ok then ret false
      else if negb (spi_busy cmd) then ret true
      else spi_idle_loop turns' cmd
  end.

(** [WG0X::waitForSpiEepromReady] *)
Definition waitForSpiEepromReady `{Wg0xHeader} : M bool :=
  cmd <- uninitialised SPI_EEPROM_CMD_SIZE ;;
  spi_idle_loop 11 cmd.

(** The [do ... while (++tries < 10)] read-back loop of [sendSpiEepromCmd]. *)
Fixpoint spi_readback_loop `{Wg0xHeader} (turns : nat) (operation : Z)
    (stat : list byte) : M bool :=
  match turns with
  | O => ret false                               (* still busy *)
  | S turns' =>
      ' (ok, stat) <- readSpiEepromCmd stat ;;
      if negb ok then ret false
      else if negb (spi_operation stat =? operation) then ret false
      else if negb (spi_busy stat) then ret true
      else spi_readback_loop turns' operation stat
  end.

(** [WG0X::sendSpiEepromCmd] *)
Definition sendSpiEepromCmd `{Wg0xHeader} (cmd : list byte) : M bool :=
  ready <- waitForSpiEepromReady ;;
  if negb ready then ret false
  else
    rc <- writeMailbox SPI_COMMAND_ADDR cmd SPI_EEPROM_CMD_SIZE ;;
    if negb (rc =? 0) then ret false
    else
      stat <- uninitialised SPI_EEPROM_CMD_SIZE ;;
      spi_readback_loop 10 (spi_operation cmd) stat.

(** The two objects a [readEepromPage] can be handed: the member
    [actuator_info_] of the device (by [readActuatorInfoFromEeprom] from
    [initialize]) or a buffer of the caller (by
    [readMotorHeatingModelParametersFromEeprom]). *)
Inductive Pointer : Type := ToActuatorInfo | ToBuffer.

Record Memory : Type := {
  actuator_info_ : list byte;            (* WG0X::actuator_info_, 264 bytes *)
  buffer : list byte;                    (* an object of the caller *)
}.

Definition load (m : Memory) (p : Pointer) : list byte :=
  match p with ToActuatorInfo => actuator_info_ m | ToBuffer => buffer m end.

Definition store (m : Memory) (p : Pointer) (bs : list byte) : Memory :=
  match p with
  | ToActuatorInfo => {| actuator_info_ := bs; buffer := buffer m |}
  | ToBuffer => {| actuator_info_ := actuator_info_ m; buffer := bs |}
  end.

(** [memset(p, c, n)] *)
Definition memset (m : Memory) (p : Pointer) (c : byte) (n : Z) : Memory :=
  store m p (write_bytes (load m p) 0 (repeat c (Z.to_nat n))).

(** [WG0X::readEepromPage] *)
Definition readEepromPage `{Wg0xHeader} (m : Memory) (page : Z)
    (data : Pointer) (length : Z) : M (bool * Memory) :=
  if MAX_EEPROM_PAGE_SIZE <? length then ret (false, m)
  else if NUM_EEPROM_PAGES <=? page then ret (false, m)
  else
    let m := memset m data 0 length in
    rc <- writeMailbox SPI_BUFFER_ADDR (actuator_info_ m) ACTUATOR_INFO_SIZE ;;
    if negb (rc =? 0) then ret (false, m)        (* "Error zeroing eeprom data buffer" *)
    else
      (* memset(&cmd, 0, sizeof(cmd)); cmd.build_read(page); *)
      let cmd := spi_build_read page in
      sent <- sendSpiEepromCmd cmd ;;
      if negb sent then ret (false, m)
      else
        ' (rc, bs) <- readMailbox SPI_BUFFER_ADDR (load m data) length ;;
        let m := store m data bs in
        if negb (rc =? 0) then ret (false, m)
        else ret (true, m).

(** ** Diagnostics poll *)

Definition set_lock_errors (dg : WG0XDiagnostics) (n : Z) : WG0XDiagnostics :=
  {| first_ := first_ dg; valid_ := valid_ dg;
     safety_disable_status_snap := safety_disable_status_snap dg;
     diagnostics_info_ := diagnostics_info_ dg;
     safety_disable_total_ := safety_disable_total_ dg;
     undervoltage_total_ := undervoltage_total_ dg;
     over_current_total_ := over_current_total_ dg;
     board_over_temp_total_ := board_over_temp_total_ dg;
     bridge_over_temp_total_ := bridge_over_temp_total_ dg;
     operate_disable_total_ := operate_disable_total_ dg;
     watchdog_disable_total_ := watchdog_disable_total_ dg;
     lock_errors_ := n;
     checksum_errors_ := checksum_errors_ dg;
     zero_offset_ := zero_offset_ dg;
     cached_zero_offset_ := cached_zero_offset_ dg |}.

Definition set_valid_first (dg : WG0XDiagnostics) (valid first : bool)
  : WG0XDiagnostics :=
  {| first_ := first; valid_ := valid;
     safety_disable_status_snap := safety_disable_status_snap dg;
     diagnostics_info_ := diagnostics_info_ dg;
     safety_disable_total_ := safety_disable_total_ dg;
     undervoltage_total_ := undervoltage_total_ dg;
     over_current_total_ := over_current_total_ dg;
     board_over_temp_total_ := board_over_temp_total_ dg;
     bridge_over_temp_total_ := bridge_over_temp_total_ dg;
     operate_disable_total_ := operate_disable_total_ dg;
     watchdog_disable_total_ := watchdog_disable_total_ dg;
     lock_errors_ := lock_errors_ dg;
     checksum_errors_ := checksum_errors_ dg;
     zero_offset_ := zero_offset_ dg;
     cached_zero_offset_ := cached_zero_offset_ dg |}.

Definition set_cached_zero_offset (dg : WG0XDiagnostics) (z : Z)
  : WG0XDiagnostics :=
  {| first_ := first_ dg; valid_ := valid_ dg;
     safety_disable_status_snap := safety_disable_status_snap dg;
     diagnostics_info_ := diagnostics_info_ dg;
     safety_disable_total_ := safety_disable_total_ dg;
     undervoltage_total_ := undervoltage_total_ dg;
     over_current_total_ := over_current_total_ dg;
     board_over_temp_total_ := board_over_temp_total_ dg;
     bridge_over_temp_total_ := bridge_over_temp_total_ dg;
     operate_disable_total_ := operate_disable_total_ dg;
     watchdog_disable_total_ := watchdog_disable_total_ dg;
     lock_errors_ := lock_errors_ dg;
     checksum_errors_ := checksum_errors_ dg;
     zero_offset_ := zero_offset_ dg;
     cached_zero_offset_ := z |}.

(** [WG0X::lockWG0XDiagnostics]: the error counter is bumped even without
    the lock. *)
Definition lockWG0XDiagnostics (dg : WG0XDiagnostics)
  : M (bool * WG0XDiagnostics) :=
  ok <- pthread_mutex ;;
  if negb ok then ret (false, set_lock_errors dg (lock_errors_ dg + 1))
  else ret (true, dg).

(** [WG0X::unlockWG0XDiagnostics] *)
Definition unlockWG0XDiagnostics (dg : WG0XDiagnostics) : M WG0XDiagnostics :=
  ok <- pthread_mutex ;;
  if negb ok then ret (set_lock_errors dg (lock_errors_ dg + 1)) else ret dg.

(** [a == b] on two [double], each carried as its bit pattern: a NaN equals
    nothing, the two zeros equal each other, any other value equals itself
    only. *)
Definition double_is_nan (x : Z) : bool :=
  ((x / 4503599627370496) mod 2048 =? 2047)
  && negb (x mod 4503599627370496 =? 0).

Definition double_is_zero (x : Z) : bool :=
  x mod 9223372036854775808 =? 0.

Definition double_eq (a b : Z) : bool :=
  negb (double_is_nan a) && negb (double_is_nan b)
  && ((double_is_zero a && double_is_zero b)
      || (a mod 18446744073709551616 =? b mod 18446744073709551616)).

(** [WG0X::writeAppRam] *)
Definition writeAppRam `{Wg0xHeader} (zero_offset : Z) : M bool :=
  rc <- writeMailbox USER_CONFIG_RAM_ADDR (user_config_ram zero_offset)
                     USER_CONFIG_RAM_SIZE ;;
  ret (rc =? 0).

(** What [collectDiagnostics] holds when it reaches the label [end]: the
    flag [success], the locals [s] and [di], and the diagnostics record. *)
Record Polled : Type := {
  success : bool;
  s : list byte;                         (* WG0XSafetyDisableStatus s *)
  di : list byte;                        (* WG0XDiagnosticsInfo di *)
  polled_dg : WG0XDiagnostics;
}.

(** [WG0X::collectDiagnostics] down to the label [end].  The call
    [EthercatDevice::collectDiagnostics(com)] comes first in the source; its
    code is outside this file, and the world that the model starts in is
    the one that call leaves.
    [app_ram_present] is [app_ram_status_ == APP_RAM_PRESENT]. *)
Definition collectDiagnostics_poll `{Wg0xHeader} (dg : WG0XDiagnostics)
    (app_ram_present : bool) : M Polled :=
  s0 <- uninitialised SAFETY_DISABLE_STATUS_SIZE ;;
  di0 <- uninitialised DIAGNOSTICS_INFO_SIZE ;;
  a <- txandrx_once [NPRD 0 1] ;;
  match a with
  | TxDropped =>
      ret {| success := false; s := s0; di := di0; polled_dg := dg |}
  | TxReplied wkc _ _ =>
      if negb (wkc =? 1) then
        ret {| success := false; s := s0; di := di0; polled_dg := dg |}
      else
        ' (rc, s1) <- readMailbox SAFETY_DISABLE_STATUS_ADDR s0
                                  SAFETY_DISABLE_STATUS_SIZE ;;
        if negb (rc =? 0) then
          ret {| success := false; s := s1; di := di0; polled_dg := dg |}
        else
          ' (rc, di1) <- readMailbox DIAGNOSTICS_INFO_ADDR di0
                                     DIAGNOSTICS_INFO_SIZE ;;
          if negb (rc =? 0) then
            ret {| success := false; s := s1; di := di1; polled_dg := dg |}
          else
            dg <- (if app_ram_present &&
                      negb (double_eq (zero_offset_ dg) (cached_zero_offset_ dg))
                   then
                     written <- writeAppRam (zero_offset_ dg) ;;
                     if written
                     then ret (set_cached_zero_offset dg (zero_offset_ dg))
                     else ret dg
                   else ret dg) ;;
            ret {| success := true; s := s1; di := di1; polled_dg := dg |}
  end.

(** [WG0X::collectDiagnostics] from the label [end] on. *)
Definition collectDiagnostics_end `{Wg0xHeader} (p : Polled)
  : M WG0XDiagnostics :=
  ' (locked, dg) <- lockWG0XDiagnostics (polled_dg p) ;;
  if negb locked then ret (set_valid_first dg false false)
  else
    let dg := set_valid_first dg (success p) (first_ dg) in
    let dg :=
      if success p
      then WG0XDiagnostics_update dg (decode_safety_disable_status (s p))
                                  (decode_diagnostics_info (di p))
      else dg in
    unlockWG0XDiagnostics dg.

(** [WG0X::collectDiagnostics] *)
Definition collectDiagnostics `{Wg0xHeader} (dg : WG0XDiagnostics)
    (app_ram_present : bool) : M WG0XDiagnostics :=
  p <- collectDiagnostics_poll dg app_ram_present ;;
  collectDiagnostics_end p.

(** ** A header to run the model on

    Values in the style of the PR2 motor controller boards: a 512 byte
    mailbox, a 5 byte mailbox header (16 bit address, 12 bit length, 3 bit
    sequence number, 1 bit direction), 3 byte SPI command register.  The
    general theorems below hold for every [Wg0xHeader]; this one serves the
    evaluations on concrete inputs. *)

Definition sample_hdr_fields (address length seqnum write_nread : Z) : list byte :=
  [address mod 256; (address / 256) mod 256; length mod 256;
   (length / 256) mod 16 + 16 * (seqnum mod 8) + 128 * (write_nread mod 2)].

Definition sample_decode_status (bs : list byte) : WG0XSafetyDisableStatus :=
  {| safety_disable_status_ := nth 0 bs 0;
     safety_disable_status_hold_ := nth 1 bs 0;
     safety_disable_count_ := nth 2 bs 0 |}.

Definition sample_decode_info (bs : list byte) : WG0XDiagnosticsInfo :=
  {| config_offset_current_A_ := nth 0 bs 0 + 256 * nth 1 bs 0;
     config_offset_current_B_ := nth 2 bs 0 + 256 * nth 3 bs 0;
     supply_current_in_ := nth 4 bs 0 + 256 * nth 5 bs 0;
     mbx_command_irq_count_ := nth 6 bs 0;
     safety_disable_counters_ :=
       {| undervoltage_count_ := nth 7 bs 0;
          over_current_count_ := nth 8 bs 0;
          board_over_temp_count_ := nth 9 bs 0;
          bridge_over_temp_count_ := nth 10 bs 0;
          operate_disable_count_ := nth 11 bs 0;
          watchdog_disable_count_ := nth 12 bs 0 |};
     pdi_timeout_error_count_ := nth 13 bs 0;
     pdi_checksum_error_count_ := nth 14 bs 0 |}.

#[export] Instance sample_header : Wg0xHeader := {
  MODE_ENABLE := 1;
  MODE_CURRENT := 2;
  MODE_SAFETY_RESET := 16;
  MODE_SAFETY_LOCKOUT := 32;
  MBX_SIZE := 512;
  MBX_HDR_SIZE := 5;
  MBX_COMMAND_PHY_ADDR := 0x1400;
  MBX_COMMAND_SIZE := 512;
  MBX_STATUS_PHY_ADDR := 0x2400;
  MBX_STATUS_SIZE := 512;
  hdr_fields := sample_hdr_fields;
  hdr_fields_length := fun _ _ _ _ => eq_refl;
  SPI_COMMAND_ADDR := 0x0230;
  SPI_BUFFER_ADDR := 0xF400;
  MAX_EEPROM_PAGE_SIZE := 264;
  NUM_EEPROM_PAGES := 4096;
  spi_build_read := fun page => [page mod 256; (page / 256) mod 256; 0x10];
  spi_operation := fun bs => nth 2 bs 0 mod 16;
  spi_busy := fun bs => Z.testbit (nth 2 bs 0) 5;
  SAFETY_DISABLE_STATUS_ADDR := 0xA1;
  SAFETY_DISABLE_STATUS_SIZE := 3;
  DIAGNOSTICS_INFO_ADDR := 0xA2;
  DIAGNOSTICS_INFO_SIZE := 15;
  USER_CONFIG_RAM_ADDR := 0x00C0;
  USER_CONFIG_RAM_SIZE := 13;
  user_config_ram := fun z => 1 :: map (fun i => (z / 2 ^ (8 * i)) mod 256)
                                       [0; 1; 2; 3; 4; 5; 6; 7] ++ [0; 0; 0; 0];
  decode_safety_disable_status := sample_decode_status;
  decode_diagnostics_info := sample_decode_info;
}.

(** A [WG0XMbxCmd] object as found on the stack. *)
Definition sample_cmd : WG0XMbxCmd :=
  {| hdr_ := repeat 0xAA 5; data_ := repeat 0xAA 507 |}.


(** A device without motor models, and one with both. *)
Definition bare_setup : WG0XSetup :=
  {| motor_model_ := false; motor_heating_model_ := false;
     disable_halt_ := false; disable_motor_model_checking_ := false |}.

Definition full_setup : WG0XSetup :=
  {| motor_model_ := true; motor_heating_model_ := true;
     disable_halt_ := false; disable_motor_model_checking_ := false |}.

Definition models_fine : ModelAnswers :=
  {| hasOverheated := false; verify := true |}.

Definition status_at (mode timestamp : Z) : WG0XStatus :=
  {| mode_ := mode; timestamp_ := timestamp;
     board_temperature_ := 0; bridge_temperature_ := 0 |}.

Definition full_effort : ActuatorCommand :=
  {| enable_ := true; quantized_current := 1200; digital_out_command := 0 |}.

(** The working counters and the buffer that an attempt of [read_loop] goes
    on with after its sends: those of the reply, or, when every frame was
    lost, the counters as reset by [updateIndexAndWkc] and the buffer as it
    was. *)
Definition attempt_wkc (r : option (Z * Z * list byte)) (idle : Z) : Z * Z :=
  match r with
  | Some (wkc_start, wkc_end, _) => (wkc_start, wkc_end)
  | None => (idle, idle)
  end.

Definition attempt_data (read_length : Z) (r : option (Z * Z * list byte))
    (data : list byte) : list byte :=
  match r with
  | Some (_, _, rx) => write_bytes data 0 (firstn (Z.to_nat read_length) rx)
  | None => data
  end.

(** The frame of a split read of [length] bytes. *)
Definition split_read_frame `{Wg0xHeader} (length : Z) : list Telegram :=
  [NPRD MBX_STATUS_PHY_ADDR length;
   NPRD (MBX_STATUS_PHY_ADDR + MBX_STATUS_SIZE - 1) 1].

(** *** Worlds to run the mailbox engine in *)

(** A clock reading given in whole milliseconds. *)
Definition at_ms (ms : Z) : timespec :=
  {| tv_sec := ms / 1000; tv_nsec := (ms mod 1000) * 1000000 |}.

(** What the sync manager shows during one repeat request.  Acknowledged:
    request and acknowledgement agree at the first read, and at the next
    read both are toggled with the mailbox full again.  Not acknowledged:
    the sync manager cannot be read. *)
Definition handshake (ack : bool) : list (option SyncMan) :=
  if ack then
    [Some {| activate_repeat_request := false; pdi_control_repeat_ack := false;
             status_mailbox_status := 1 |};
     Some {| activate_repeat_request := true; pdi_control_repeat_ack := true;
             status_mailbox_status := 1 |}]
  else [None].

(** A device in an operational state, given by the scripts of its
    answers: the clock readings in whole milliseconds, one entry of [acks]
    for each repeat request, the writes to the sync manager going
    through. *)
Definition scripted (seqs : list Z) (tx : list TxAnswer)
    (clk : list (option Z)) (sm : list (option byte)) (acks : list bool)
    (mtx : list bool) : World :=
  mkWorld true 0 (fun _ => 0xCC) seqs tx (map (option_map at_ms) clk) sm
          (concat (map handshake acks)) mtx []
          (mkMbxDiagnostics 0 0 0 0 0) (map (fun _ => true) acks) [].

(** What the device posts in the status mailbox for a local bus read:
    the bytes and their checksum. *)
Definition posted (bs : list byte) : list byte :=
  bs ++ [rotateRight8 (computeChecksum bs (Z.of_nat (length bs)))].

(** The write goes out and is acknowledged, then the command mailbox stays
    full: bit 3 of its status is still set 100 ms later. *)
Definition mailbox_stays_full : World :=
  scripted [1] [TxReplied 1 1 []] [Some 0; Some 50; Some 100]
           [Some 8; Some 8] [] [true; true].

(** One frame of the read is lost, the next comes back refused (working
    counter 0), and the repeat request fails. *)
Definition repeat_not_acknowledged : World :=
  scripted [] [TxDropped; TxReplied 0 0 []] [] [] [false] [].

(** The same loss, the repeat request acknowledged, the read then served. *)
Definition repeat_acknowledged : World :=
  scripted [] [TxDropped; TxReplied 0 0 []; TxReplied 1 1 (posted [7; 8; 9])]
           [Some 0] [] [true] [].

(** A refusal although nothing was lost. *)
Definition refused_at_once : World :=
  scripted [] [TxReplied 0 0 []; TxReplied 1 1 (posted [7; 8; 9])]
           [] [] [true] [].

(** *** An EEPROM page read and a diagnostics poll, end to end *)

(** The device after [initialize]: [actuator_info_] holds the calibration
    record read from the EEPROM; the caller brings a buffer of 256 bytes for
    the motor heating model parameters. *)
Definition calibrated : Memory :=
  {| actuator_info_ := map (fun i => Z.of_nat i mod 251 + 1) (seq 0 264);
     buffer := repeat 0xEE 256 |}.

(** The page as stored in the EEPROM. *)
Definition heating_page : list byte :=
  map (fun i => (Z.of_nat i * 7) mod 256) (seq 0 256).

(** The answers of a local bus write through the mailbox, and of a local bus
    read that yields [bs]: frames come back at once, the mailboxes are seen
    in the wanted state at the first look. *)
Definition write_served : list TxAnswer := [TxReplied 1 1 []].
Definition read_served (bs : list byte) : list TxAnswer :=
  [TxReplied 0 0 []; TxReplied 1 1 []; TxReplied 1 1 (posted bs)].

(** [readEepromPage] of page 1 into the buffer, everything going well: the
    buffer write, the SPI state machine found idle, the read command, its
    read-back, the page. *)
Definition eeprom_answers : World :=
  scripted [1; 2; 3; 4; 5]
    (write_served ++ read_served [1; 0; 0x10] ++ write_served ++
     read_served [1; 0; 0x10] ++ read_served heating_page)
    (repeat (Some 0) 5)
    [Some 0; Some 8; Some 0; Some 8; Some 8]
    []
    (repeat true 10).

(** The state left by the constructor [WG0XDiagnostics::WG0XDiagnostics]. *)
Definition WG0XDiagnostics_new : WG0XDiagnostics :=
  {| first_ := true; valid_ := false;
     safety_disable_status_snap :=
       {| safety_disable_status_ := 0; safety_disable_status_hold_ := 0;
          safety_disable_count_ := 0 |};
     diagnostics_info_ :=
       {| safety_disable_counters_ :=
            {| undervoltage_count_ := 0; over_current_count_ := 0;
               board_over_temp_count_ := 0; bridge_over_temp_count_ := 0;
               operate_disable_count_ := 0; watchdog_disable_count_ := 0 |};
          mbx_command_irq_count_ := 0; pdi_timeout_error_count_ := 0;
          pdi_checksum_error_count_ := 0; supply_current_in_ := 0;
          config_offset_current_A_ := 0; config_offset_current_B_ := 0 |};
     safety_disable_total_ := 0; undervoltage_total_ := 0;
     over_current_total_ := 0; board_over_temp_total_ := 0;
     bridge_over_temp_total_ := 0; operate_disable_total_ := 0;
     watchdog_disable_total_ := 0; lock_errors_ := 0; checksum_errors_ := 0;
     zero_offset_ := 0; cached_zero_offset_ := 0 |}.



(** ** Time arithmetic of the cycle codec *)

(** [WG0X::timestampDiff]: the difference of two [uint32_t], read as
    [int32_t]. *)
Definition timestampDiff (new_timestamp old_timestamp : Z) : Z :=
  to_i32 (to_u32 (new_timestamp - old_timestamp)).

(** [WG0X::timediffToDuration]: the arguments [sec] and [nsec] handed to
    [ros::Duration].  [/] and [%] of C truncate towards zero. *)
Definition timediffToDuration (timediff_usec : Z) : Z * Z :=
  let USEC_PER_SEC := 1000000 in
  let sec := Z.quot timediff_usec USEC_PER_SEC in
  let nsec := to_i32 (Z.rem timediff_usec USEC_PER_SEC * 1000) in
  (sec, nsec).

(** The time between two [timespec], in nanoseconds. *)
Definition elapsed_ns (current start : timespec) : Z :=
  (tv_sec current - tv_sec start) * 1000000000
  + (tv_nsec current - tv_nsec start).

(** The duplicate-frame counters are in order: the current streak is not
    negative and not above the longest streak recorded. *)
Definition streak_ok (w : WG0XCycle) : Prop :=
  0 <= consecutive_drops_ w <= max_consecutive_drops_ w.

(** ** The tracked counters of the diagnostics aggregator *)

(** The seven hardware counters that [WG0XDiagnostics::update] follows, each
    with the lifetime total it feeds: how the counter is read off the two
    blocks, and the member holding the total. *)
Definition tracked_counters
  : list ((WG0XSafetyDisableStatus -> WG0XDiagnosticsInfo -> Z)
          * (WG0XDiagnostics -> Z)) :=
  [ (fun st _ => safety_disable_count_ st, safety_disable_total_);
    (fun _ info => undervoltage_count_ (safety_disable_counters_ info),
     undervoltage_total_);
    (fun _ info => over_current_count_ (safety_disable_counters_ info),
     over_current_total_);
    (fun _ info => board_over_temp_count_ (safety_disable_counters_ info),
     board_over_temp_total_);
    (fun _ info => bridge_over_temp_count_ (safety_disable_counters_ info),
     bridge_over_temp_total_);
    (fun _ info => operate_disable_count_ (safety_disable_counters_ info),
     operate_disable_total_);
    (fun _ info => watchdog_disable_count_ (safety_disable_counters_ info),
     watchdog_disable_total_) ].

(** [WG0XDiagnostics::update] called for each pair of blocks in turn. *)
Fixpoint update_run (dg : WG0XDiagnostics)
    (reads : list (WG0XSafetyDisableStatus * WG0XDiagnosticsInfo))
  : WG0XDiagnostics :=
  match reads with
  | [] => dg
  | (new_status, new_info) :: reads' =>
      update_run (WG0XDiagnostics_update dg new_status new_info) reads'
  end.

(** A status block showing [count] safety disables. *)
Definition status_counting (count : Z) : WG0XSafetyDisableStatus :=
  {| safety_disable_status_ := 0; safety_disable_status_hold_ := 0;
     safety_disable_count_ := count |}.

(** ** Counting what went out *)







(** An answer of the transport holds the bytes that [readMailboxInternal]
    asks for in a read of [length] bytes: [length] of them in a split read,
    the whole mailbox otherwise. *)
Definition reply_covers `{Wg0xHeader} (rx : list byte) (length : Z) : Prop :=
  let read_length :=
    if length + 50 <? MBX_STATUS_SIZE then length else MBX_STATUS_SIZE in
  (Z.to_nat read_length <= List.length rx)%nat.

(** Between [w] and [w'] the transport has given answers, and the last of
    them was a frame come back with working counter 1 on its first telegram
    and [wkc_end] on its second, carrying the bytes [rx]. *)
Definition last_answer (w w' : World) (wkc_end : Z) (rx : list byte) : Prop :=
  exists before, txrx w = before ++ TxReplied 1 wkc_end rx :: txrx w'.


(** ** A device outside the operational states *)

(** The slave is in the INIT or PRE-OP state; it still answers a read of
    its registers, and the locks are free. *)
Definition not_operational : World :=
  mkWorld false 0 (fun _ => 0xCC) [] [TxReplied 1 1 [0]] [] [] []
          (repeat true 6) [] (mkMbxDiagnostics 0 0 0 0 0) [] [].

(** ** The EtherCAT state of the slave *)

(** A computation that leaves the EtherCAT state of the slave and the
    working counter of [EC_Logic] as it found them, and of the answers of
    the transport only takes some from the front. *)
Definition keeps_state {A : Type} (m : M A) : Prop :=
  forall w a w', m w = Some (a, w') ->
    ec_state_ok w' = ec_state_ok w /\
    logic_wkc w' = logic_wkc w /\
    exists n, txrx w' = skipn n (txrx w).

(** ** SPI EEPROM engine: the write path *)

(** Further declarations of wg0x.h, for the write path.  The two builders
    are called on a [WG0XSpiEepromCmd] that was not cleared first, so they
    take the bytes of the object as they find it. *)
Class Wg0xEepromHeader : Type := {
  spi_build_write : list byte -> Z -> list byte;     (* WG0XSpiEepromCmd::build_write *)
  spi_build_arbitrary : list byte -> Z -> list byte; (* WG0XSpiEepromCmd::build_arbitrary *)
  eeprom_ready : byte -> bool;                       (* EepromStatusReg::ready_ *)
}.

(** [WG0X::readEepromStatusReg]: [reg] is [reg.raw_] on entry; the result is
    the return value and [reg.raw_] afterwards. *)
Definition readEepromStatusReg `{Wg0xHeader} `{Wg0xEepromHeader} (reg : byte)
  : M (bool * byte) :=
  let data := [0xD7; 0x00] in
  rc <- writeMailbox SPI_BUFFER_ADDR data 2 ;;
  if negb (rc =? 0) then ret (false, reg)
  else
    cmd <- uninitialised SPI_EEPROM_CMD_SIZE ;;
    sent <- sendSpiEepromCmd (spi_build_arbitrary cmd 2) ;;
    if negb sent then ret (false, reg)
    else
      ' (rc, data) <- readMailbox SPI_BUFFER_ADDR data 2 ;;
      if negb (rc =? 0) then ret (false, reg)
      else ret (true, nth 1 data 0).

(** The [do ... while (++tries < 20)] loop of [waitForEepromReady]: [None]
    for the [return false] inside it, else [status_reg.raw_] at its end. *)
Fixpoint eeprom_status_loop `{Wg0xHeader} `{Wg0xEepromHeader} (turns : nat)
    (status_reg : byte) : M (option byte) :=
  match turns with
  | O => ret (Some status_reg)
  | S turns' =>
      ' (ok, status_reg) <- readEepromStatusReg status_reg ;;
      if negb ok then ret None
      else if eeprom_ready status_reg then ret (Some status_reg)   (* break *)
      else eeprom_status_loop turns' status_reg
  end.

(** [WG0X::waitForEepromReady] *)
Definition waitForEepromReady `{Wg0xHeader} `{Wg0xEepromHeader} : M bool :=
  status_reg <- uninitialised 1 ;;
  r <- eeprom_status_loop 20 (nth 0 status_reg 0) ;;
  match r with
  | None => ret false
  | Some status_reg => ret (eeprom_ready status_reg)
  end.

(** [WG0X::writeEepromPage]: [data] is the memory at the pointer.  A
    [memcpy] of [length] bytes from fewer is undefined. *)
Definition writeEepromPage `{Wg0xHeader} `{Wg0xEepromHeader} (page : Z)
    (data : list byte) (length : Z) : M bool :=
  if 264 <? length then ret false
  else if NUM_EEPROM_PAGES <=? page then ret false
  else
    ready <- waitForSpiEepromReady ;;
    if negb ready then ret false
    else
      buf <- uninitialised MAX_EEPROM_PAGE_SIZE ;;
      write_buf <-
        (if length <? MAX_EEPROM_PAGE_SIZE then
           if Z.of_nat (List.length data) <? length then undefined
           else
             let buf := write_bytes buf 0 (firstn (Z.to_nat length) data) in
             ret (write_bytes buf (Z.to_nat length)
                    (repeat 0xFF (Z.to_nat (MAX_EEPROM_PAGE_SIZE - length))))
         else ret data) ;;
      rc <- writeMailbox SPI_BUFFER_ADDR write_buf MAX_EEPROM_PAGE_SIZE ;;
      if negb (rc =? 0) then ret false
      else
        cmd <- uninitialised SPI_EEPROM_CMD_SIZE ;;
        sent <- sendSpiEepromCmd (spi_build_write cmd page) ;;
        if negb sent then ret false
        else
          ready <- waitForEepromReady ;;
          if negb ready then ret false else ret true.

(** Declarations to run the write path on, in the style of [sample_header]:
    operation 1 is a page write, operation 3 an arbitrary transfer, bit 7
    of the status register of the EEPROM says ready. *)
#[export] Instance sample_eeprom_header : Wg0xEepromHeader := {
  spi_build_write := fun _ page => [page mod 256; (page / 256) mod 256; 0x11];
  spi_build_arbitrary := fun _ n => [(n - 1) mod 256; 0; 0x13];
  eeprom_ready := fun raw => Z.testbit raw 7;
}.

(** A page write in which everything goes well: the state machine is found
    idle, the page buffer is written, the write command is sent and read
    back, and the status register of the EEPROM, fetched with an arbitrary
    transfer of two bytes, shows ready at the first look. *)
Definition page_write_served : World :=
  scripted [1; 2; 3; 4; 5; 6; 7; 0; 1; 2]
    (read_served [0; 0; 0] ++ write_served ++
     read_served [0; 0; 0] ++ write_served ++ read_served [1; 0; 0x11] ++
     write_served ++
     read_served [0; 0; 0] ++ write_served ++ read_served [1; 0; 0x13] ++
     read_served [0; 0x80])
    (repeat (Some 0) 10)
    [Some 8; Some 0; Some 8; Some 0; Some 8; Some 0; Some 8; Some 0; Some 8;
     Some 8]
    []
    (repeat true 20).

(** ** CRC of the actuator record *)

(** A [WG0XActuatorInfo] as [verifyCRC] and [generateCRC] see it: 264 bytes
    with [crc32_256_] at offset 252 and [crc32_264_] at offset 260 (the
    static asserts of [verifyCRC]).  The members in front of [crc32_256_]
    and the four bytes between the two CRCs are carried as bytes. *)
Record WG0XActuatorInfo : Type := {
  info_0_252 : list byte;
  crc32_256_ : Z;                        (* uint32_t *)
  info_256_260 : list byte;
  crc32_264_ : Z;                        (* uint32_t *)
}.

(** The object representation of a [uint32_t], least significant byte
    first. *)
Definition u32_bytes (x : Z) : list byte :=
  [x mod 256; (x / 256) mod 256; (x / 65536) mod 256; (x / 16777216) mod 256].

(** The bytes in front of [crc32_256_], and those in front of
    [crc32_264_]. *)
Definition upto_crc32_256 (this : WG0XActuatorInfo) : list byte :=
  info_0_252 this.

Definition upto_crc32_264 (this : WG0XActuatorInfo) : list byte :=
  info_0_252 this ++ u32_bytes (crc32_256_ this) ++ info_256_260 this.

Section ActuatorInfoCRC.

(** [boost::crc_32_type]: [process_bytes] on a fresh or reset object, then
    [checksum()]. *)
Variable crc32 : list byte -> Z.

(** [WG0XActuatorInfo::verifyCRC] *)
Definition WG0XActuatorInfo_verifyCRC (this : WG0XActuatorInfo) : bool :=
  let crc32_256 := crc32 (upto_crc32_256 this) in
  let crc32_264 := crc32 (upto_crc32_264 this) in
  (crc32_264_ this =? crc32_264) || (crc32_256_ this =? crc32_256).

(** [WG0XActuatorInfo::generateCRC] *)
Definition WG0XActuatorInfo_generateCRC (this : WG0XActuatorInfo)
  : WG0XActuatorInfo :=
  let this :=
    {| info_0_252 := info_0_252 this;
       crc32_256_ := to_u32 (crc32 (upto_crc32_256 this));
       info_256_260 := info_256_260 this;
       crc32_264_ := crc32_264_ this |} in
  {| info_0_252 := info_0_252 this;
     crc32_256_ := crc32_256_ this;
     info_256_260 := info_256_260 this;
     crc32_264_ := to_u32 (crc32 (upto_crc32_264 this)) |}.

End ActuatorInfoCRC.

(** A stand-in for the CRC to run the two functions on: the byte sum. *)
Definition byte_sum (bs : list byte) : Z := fold_left Z.add bs 0 mod 4294967296.

(** ** Status strings *)

(** Further bit masks of wg0x.h, for the two string functions. *)
Class Wg0xStatusBits : Type := {
  MODE_UNDERVOLTAGE : Z;
  MODE_RESET : Z;
  SAFETY_DISABLED : Z;
  SAFETY_UNDERVOLTAGE : Z;
  SAFETY_OVER_CURRENT : Z;
  SAFETY_BOARD_OVER_TEMP : Z;
  SAFETY_HBRIDGE_OVER_TEMP : Z;
  SAFETY_OPERATIONAL : Z;
  SAFETY_WATCHDOG : Z;
}.

Section StatusStrings.
Import String.

(** [if (flags & bit) { str += prefix + name; prefix = ", "; }] on the pair
    of [str] and [prefix]. *)
Definition add_name (flags bit : Z) (name : String.string)
    (p : String.string * String.string) : String.string * String.string :=
  if nonzero (Z.land flags bit)
  then (String.append (fst p) (String.append (snd p) name), ", "%string)
  else p.

(** [WG0X::safetyDisableString] *)
Definition safetyDisableString `{Wg0xStatusBits} (status : Z) : String.string :=
  let p := (String.EmptyString, String.EmptyString) in
  if nonzero (Z.land status SAFETY_DISABLED) then
    let p := add_name status SAFETY_DISABLED "DISABLED" p in
    let p := add_name status SAFETY_UNDERVOLTAGE "UNDERVOLTAGE" p in
    let p := add_name status SAFETY_OVER_CURRENT "OVER_CURRENT" p in
    let p := add_name status SAFETY_BOARD_OVER_TEMP "BOARD_OVER_TEMP" p in
    let p := add_name status SAFETY_HBRIDGE_OVER_TEMP "HBRIDGE_OVER_TEMP" p in
    let p := add_name status SAFETY_OPERATIONAL "OPERATIONAL" p in
    let p := add_name status SAFETY_WATCHDOG "WATCHDOG" p in
    fst p
  else "ENABLED"%string.

(** [WG0X::modeString] *)
Definition modeString `{Wg0xHeader} `{Wg0xStatusBits} (mode : Z)
  : String.string :=
  let p := (String.EmptyString, String.EmptyString) in
  if nonzero mode then
    let p := add_name mode MODE_ENABLE "ENABLE" p in
    let p := add_name mode MODE_CURRENT "CURRENT" p in
    let p := add_name mode MODE_UNDERVOLTAGE "UNDERVOLTAGE" p in
    let p := add_name mode MODE_SAFETY_RESET "SAFETY_RESET" p in
    let p := add_name mode MODE_SAFETY_LOCKOUT "SAFETY_LOCKOUT" p in
    let p := add_name mode MODE_RESET "RESET" p in
    fst p
  else "OFF"%string.

(** The names that a value of flags selects from a table of bits, in the
    order of the table. *)
Definition names_of (flags : Z) (table : list (Z * String.string))
  : list String.string :=
  map snd (filter (fun entry => nonzero (Z.land flags (fst entry))) table).

End StatusStrings.

(** Masks to run the string functions on, in the style of
    [sample_header]. *)
#[export] Instance sample_status_bits : Wg0xStatusBits := {
  MODE_UNDERVOLTAGE := 4;
  MODE_RESET := 128;
  SAFETY_DISABLED := 1;
  SAFETY_UNDERVOLTAGE := 2;
  SAFETY_OVER_CURRENT := 4;
  SAFETY_BOARD_OVER_TEMP := 8;
  SAFETY_HBRIDGE_OVER_TEMP := 16;
  SAFETY_OPERATIONAL := 32;
  SAFETY_WATCHDOG := 64;
}.

(** * Properties *)

(** ** Checksum codec and frame builder *)

Lemma land_255_mod (x : Z) : Z.land x 0xff = x mod 256.
Proof. change 0xff with (Z.ones 8). rewrite Z.land_ones by lia. reflexivity. Qed.

Lemma rotateRight8_range (x : Z) : 0 <= rotateRight8 x < 256.
Proof.
  unfold rotateRight8. rewrite (land_255_mod (Z.lor _ _)).
  apply Z.mod_pos_bound. lia.
Qed.

Lemma to_u8_rotateRight8 (x : Z) : to_u8 (rotateRight8 x) = rotateRight8 x.
Proof. unfold to_u8. apply Z.mod_small, rotateRight8_range. Qed.

Lemma checksum_step_seal (c : Z) : checksum_step c (rotateRight8 c) = 0.
Proof. unfold checksum_step. rewrite Z.lxor_nilpotent. reflexivity. Qed.

(** The fold over a buffer followed by the rotated fold of the buffer. *)
Lemma checksum_sealed (bs : list byte) :
  fold_left checksum_step
    (bs ++ [to_u8 (rotateRight8 (fold_left checksum_step bs 0x42))]) 0x42 = 0.
Proof.
  rewrite fold_left_app, to_u8_rotateRight8. simpl. apply checksum_step_seal.
Qed.

Lemma computeChecksum_all (bs : list byte) (n : Z) :
  Z.of_nat (length bs) = n ->
  computeChecksum bs n = fold_left checksum_step bs 0x42.
Proof.
  intros <-. unfold computeChecksum.
  rewrite Nat2Z.id, firstn_all. reflexivity.
Qed.

Lemma computeChecksum_prefix (bs rest : list byte) (n : Z) :
  Z.of_nat (length bs) = n ->
  computeChecksum (bs ++ rest) n = fold_left checksum_step bs 0x42.
Proof.
  intros <-. unfold computeChecksum.
  rewrite Nat2Z.id, firstn_app, firstn_all, Nat.sub_diag. simpl.
  rewrite app_nil_r. reflexivity.
Qed.

Section FrameBuilder.
Context `{Wg0xHeader}.

Lemma hdr_build_sealed address length type seqnum h :
  WG0XMbxHdr_build address length type seqnum = Some h ->
  computeChecksum h MBX_HDR_SIZE = 0.
Proof.
  unfold WG0XMbxHdr_build.
  destruct (match type with
            | LOCAL_BUS_READ => _ | LOCAL_BUS_WRITE => _ end); [discriminate|].
  intros [= <-].
  set (fields := hdr_fields _ _ _ _).
  assert (Hlen : Z.of_nat (List.length fields) = MBX_HDR_SIZE - 1)
    by apply hdr_fields_length.
  rewrite (computeChecksum_all fields) by exact Hlen.
  rewrite computeChecksum_all.
  - apply checksum_sealed.
  - rewrite length_app. simpl. lia.
Qed.

Lemma cmd_build_sealed this address length type seqnum data cmd :
  0 <= length ->
  WG0XMbxCmd_build this address length type seqnum data = BuildTrue cmd ->
  computeChecksum (data_ cmd) (length + 1) = 0 /\
  computeChecksum (hdr_ cmd) MBX_HDR_SIZE = 0.
Proof.
  intros Hpos. unfold WG0XMbxCmd_build.
  destruct (WG0XMbxHdr_build address length type seqnum) as [h|] eqn:Hh;
    [|discriminate].
  destruct ((MBX_DATA_SIZE <? length) || _) eqn:Hov; [discriminate|].
  apply orb_false_iff in Hov as [_ Hshort].
  intros [= <-]. simpl. split; [|eapply hdr_build_sealed; eassumption].
  set (copied := match data with Some d => _ | None => _ end).
  assert (Hcopied : List.length copied = Z.to_nat length).
  { subst copied. destruct data as [d|].
    - apply Z.ltb_ge in Hshort. rewrite firstn_length_le; lia.
    - apply repeat_length. }
  assert (H1 : write_bytes (data_ this) 0 copied
               = copied ++ skipn (List.length copied) (data_ this))
    by reflexivity.
  rewrite H1.
  rewrite (computeChecksum_prefix copied) by lia.
  unfold write_bytes.
  rewrite <- Hcopied, firstn_app, firstn_all, Nat.sub_diag. simpl firstn.
  rewrite app_nil_r, app_assoc.
  rewrite computeChecksum_prefix.
  - apply checksum_sealed.
  - rewrite length_app. simpl. lia.
Qed.

End FrameBuilder.

(** C3.  Every buffer of the frame builder folds to zero: a header built by
    [WG0XMbxHdr::build] over all its bytes, a command built by
    [WG0XMbxCmd::build] over its [length] data bytes and the checksum byte
    appended to them (and over its header). *)
Theorem built_frames_fold_to_zero `{Wg0xHeader} :
  (forall address length type seqnum h,
      WG0XMbxHdr_build address length type seqnum = Some h ->
      computeChecksum h MBX_HDR_SIZE = 0) /\
  (forall this address length type seqnum data cmd,
      0 <= length ->
      WG0XMbxCmd_build this address length type seqnum data = BuildTrue cmd ->
      computeChecksum (data_ cmd) (length + 1) = 0 /\
      computeChecksum (hdr_ cmd) MBX_HDR_SIZE = 0).
Proof.
  split.
  - intros. eapply hdr_build_sealed; eassumption.
  - intros. eapply cmd_build_sealed; eassumption.
Qed.

Lemma built_frames_fold_to_zero_witness :
  (exists h,
      WG0XMbxHdr_build 0xF400 3 LOCAL_BUS_WRITE 1 = Some h /\
      computeChecksum h MBX_HDR_SIZE = 0) /\
  (exists cmd,
      WG0XMbxCmd_build sample_cmd 0xF400 3 LOCAL_BUS_WRITE 1 (Some [1; 2; 3])
      = BuildTrue cmd /\
      computeChecksum (data_ cmd) (3 + 1) = 0 /\
      computeChecksum (hdr_ cmd) MBX_HDR_SIZE = 0).
Proof.
  split.
  - eexists. split; [reflexivity|].
    apply (proj1 built_frames_fold_to_zero 0xF400 3 LOCAL_BUS_WRITE 1).
    reflexivity.
  - eexists. split; [reflexivity|].
    apply (proj2 built_frames_fold_to_zero sample_cmd 0xF400 3 LOCAL_BUS_WRITE 1
                 (Some [1; 2; 3])); [lia | reflexivity].
Defined.

(** C10.  [WG0XMbxHdr::verifyChecksum] answers [true] exactly when the fold
    over the whole header is not zero, so that it answers [false] on every
    header that [WG0XMbxHdr::build] has just built. *)
Theorem hdr_verifyChecksum_is_negated `{Wg0xHeader} :
  (forall this,
      WG0XMbxHdr_verifyChecksum this = true <->
      computeChecksum this MBX_HDR_SIZE <> 0) /\
  (forall address length type seqnum h,
      WG0XMbxHdr_build address length type seqnum = Some h ->
      WG0XMbxHdr_verifyChecksum h = false).
Proof.
  split.
  - intros this. unfold WG0XMbxHdr_verifyChecksum.
    rewrite negb_true_iff. apply Z.eqb_neq.
  - intros address length type seqnum h Hb. unfold WG0XMbxHdr_verifyChecksum.
    rewrite (hdr_build_sealed _ _ _ _ _ Hb). reflexivity.
Qed.

Lemma hdr_verifyChecksum_is_negated_witness :
  exists h,
    WG0XMbxHdr_build 0x0230 3 LOCAL_BUS_READ 2 = Some h /\
    WG0XMbxHdr_verifyChecksum h = false.
Proof.
  eexists. split; [reflexivity|].
  apply (proj2 hdr_verifyChecksum_is_negated 0x0230 3 LOCAL_BUS_READ 2).
  reflexivity.
Defined.

(** ** Diagnostics aggregator *)

Lemma counter_delta_mod (new_count old_count : Z) :
  counter_delta new_count old_count = (new_count - old_count) mod 256.
Proof.
  unfold counter_delta, to_u32. rewrite Z.land_comm, land_255_mod.
  apply Z.mod_mod_divide. exists 16777216. reflexivity.
Qed.

(** C8.  Each [WG0XDiagnostics::update] adds [(new - old) mod 256] to the
    32 bit lifetime total of every tracked counter; from 250 to 3 that is 9. *)
Theorem update_adds_wrapped_delta (this : WG0XDiagnostics)
    (new_status : WG0XSafetyDisableStatus) (new_info : WG0XDiagnosticsInfo) :
  let after := WG0XDiagnostics_update this new_status new_info in
  let new_c := safety_disable_counters_ new_info in
  let old_c := safety_disable_counters_ (diagnostics_info_ this) in
  safety_disable_total_ after =
    to_u32 (safety_disable_total_ this +
            (safety_disable_count_ new_status -
             safety_disable_count_ (safety_disable_status_snap this)) mod 256) /\
  undervoltage_total_ after =
    to_u32 (undervoltage_total_ this +
            (undervoltage_count_ new_c - undervoltage_count_ old_c) mod 256) /\
  over_current_total_ after =
    to_u32 (over_current_total_ this +
            (over_current_count_ new_c - over_current_count_ old_c) mod 256) /\
  board_over_temp_total_ after =
    to_u32 (board_over_temp_total_ this +
            (board_over_temp_count_ new_c - board_over_temp_count_ old_c) mod 256) /\
  bridge_over_temp_total_ after =
    to_u32 (bridge_over_temp_total_ this +
            (bridge_over_temp_count_ new_c - bridge_over_temp_count_ old_c) mod 256) /\
  operate_disable_total_ after =
    to_u32 (operate_disable_total_ this +
            (operate_disable_count_ new_c - operate_disable_count_ old_c) mod 256) /\
  watchdog_disable_total_ after =
    to_u32 (watchdog_disable_total_ this +
            (watchdog_disable_count_ new_c - watchdog_disable_count_ old_c) mod 256) /\
  counter_delta 3 250 = 9.
Proof.
  simpl. unfold add_total. rewrite !counter_delta_mod.
  repeat split; reflexivity.
Qed.

(** ** Cycle codec *)

(** Splits the chain of checks of [verifyState] along its tests. *)
Ltac split_checks :=
  repeat match goal with
         | |- context [if (10 <? ?c) then _ else _] =>
             destruct (10 <? c) eqn:?
         | |- context [if (?a && negb (resetting_ ?w)) then _ else _] =>
             destruct (a && negb (resetting_ w)) eqn:?
         | |- context [if fpga_internal_reset_detected_ ?w then _ else _] =>
             destruct (fpga_internal_reset_detected_ w) eqn:?
         | |- context [if (is_enabled_ ?w && ?b && ?c) then _ else _] =>
             destruct (is_enabled_ w && b && c) eqn:?
         | |- context [if negb (verify ?a) then _ else _] =>
             destruct (verify a) eqn:?
         end; cbn [negb rv exit_at after calls fst snd
                   has_error_ too_many_dropped_packets_ status_checksum_error_
                   timestamp_jump_detected_ fpga_internal_reset_detected_
                   in_lockout_ resetting_ last_timestamp_ last_last_timestamp_
                   drops_ consecutive_drops_ max_consecutive_drops_
                   is_enabled_ halted_ publish_motor_trace_].

Section CycleCodec.
Context `{Wg0xHeader}.
Variable setup : WG0XSetup.


Lemma to_i32_small (x : Z) : 0 <= x < 2147483648 -> to_i32 x = x.
Proof.
  intros Hx. unfold to_i32, to_u32. rewrite Z.mod_small by lia.
  destruct (x <? 2147483648) eqn:E; lia.
Qed.



End CycleCodec.



Lemma nonzero_true (x : Z) : nonzero x = true <-> x <> 0.
Proof. unfold nonzero. rewrite negb_true_iff. apply Z.eqb_neq. Qed.

(** C4.  A frame with the safety lockout bit and a timestamp jump of more
    than 10,000,000 us, met while no reset is requested and the drop streak
    is within bounds, fails at the lockout check.  The jump sets the sticky
    [timestamp_jump_detected_] and nothing more: a frame that gives none of
    the other checks a reason to fail passes, jump or not. *)
Theorem lockout_fails_jump_only_flags `{Wg0xHeader}
    (setup : WG0XSetup) (w : WG0XCycle)
    (this_status prev_status : WG0XStatus) (ans : ModelAnswers) :
  let r := verifyState setup w this_status prev_status ans in
  let jump :=
    timestamp_jump (timestamp_ this_status) (last_timestamp_ w) 10000000 in
  (Z.land (mode_ this_status) MODE_SAFETY_LOCKOUT <> 0 ->
   jump = true ->
   resetting_ w = false ->
   count_consecutive_drops w this_status <= 10 ->
   rv r = false /\
   exit_at r = ExitSafetyLockout /\
   in_lockout_ (after r) = true /\
   has_error_ (after r) = true /\
   timestamp_jump_detected_ (after r) = true /\
   too_many_dropped_packets_ (after r) = too_many_dropped_packets_ w /\
   (motor_model_ setup = true -> has_error_ w = false ->
    In (MotorFlagPublish SafetyLockout 2 100) (calls r))) /\
  (jump = true -> timestamp_jump_detected_ (after r) = true) /\
  (timestamp_jump_detected_ w = true ->
   timestamp_jump_detected_ (after r) = true) /\
  (motor_heating_model_ setup && negb (disable_halt_ setup) &&
     hasOverheated ans = false ->
   count_consecutive_drops w this_status <= 10 ->
   nonzero (Z.land (mode_ this_status) MODE_SAFETY_LOCKOUT) &&
     negb (resetting_ w) = false ->
   fpga_internal_reset_detected_ w = false ->
   is_enabled_ w && motor_model_ setup &&
     negb (disable_motor_model_checking_ setup) && negb (verify ans) = false ->
   rv r = true /\ exit_at r = ExitChecksPassed /\
   has_error_ (after r) = has_error_ w).
Proof.
  cbv zeta. split; [|split; [|split]].
  - (* lockout and jump *)
    intros Hbit Hjump Hreset Hstreak. apply nonzero_true in Hbit.
    assert (Hten : (10 <? count_consecutive_drops w this_status) = false)
      by (apply Z.ltb_ge; exact Hstreak).
    unfold verifyState. cbv zeta.
    rewrite Hbit, Hjump, Hreset, Hten. cbn [negb andb].
    repeat (split; [reflexivity|]).
    intros Hmodel Hfresh. rewrite Hmodel, Hfresh. cbn [negb andb orb].
    apply in_or_app. right. left. reflexivity.
  - (* the jump sets the flag *)
    intros Hjump. unfold verifyState. cbv zeta. rewrite Hjump.
    split_checks; reflexivity.
  - (* the flag is sticky *)
    intros Hflag. unfold verifyState. cbv zeta. rewrite Hflag.
    destruct (timestamp_jump _ _ _); split_checks; reflexivity.
  - (* no other check has a reason to fail *)
    intros Hheat Hstreak Hlock Hfpga Hmodel.
    assert (Hten : (10 <? count_consecutive_drops w this_status) = false)
      by (apply Z.ltb_ge; exact Hstreak).
    unfold verifyState. cbv zeta.
    rewrite Hten, Hlock, Hfpga, Hheat. cbn [negb].
    destruct (is_enabled_ w && motor_model_ setup &&
              negb (disable_motor_model_checking_ setup)) eqn:Hchecked.
    + cbn [andb] in Hmodel. apply negb_false_iff in Hmodel. rewrite Hmodel.
      repeat split; reflexivity.
    + repeat split; reflexivity.
Qed.

Lemma lockout_fails_jump_only_flags_witness :
  let locked := verifyState full_setup WG0X_new (status_at 32 20000000)
                            (status_at 0 0) models_fine in
  let jumped := verifyState full_setup WG0X_new (status_at 3 20000000)
                            (status_at 0 0) models_fine in
  let next := verifyState full_setup (after jumped) (status_at 3 20001000)
                          (status_at 3 20000000) models_fine in
  (rv locked = false /\ exit_at locked = ExitSafetyLockout /\
   In (MotorFlagPublish SafetyLockout 2 100) (calls locked)) /\
  (rv jumped = true /\ timestamp_jump_detected_ (after jumped) = true) /\
  timestamp_jump_detected_ (after next) = true.
Proof.
  cbv zeta.
  pose proof (lockout_fails_jump_only_flags full_setup WG0X_new
                (status_at 32 20000000) (status_at 0 0) models_fine) as L.
  pose proof (lockout_fails_jump_only_flags full_setup WG0X_new
                (status_at 3 20000000) (status_at 0 0) models_fine) as J.
  pose proof (lockout_fails_jump_only_flags full_setup
                (after (verifyState full_setup WG0X_new (status_at 3 20000000)
                                    (status_at 0 0) models_fine))
                (status_at 3 20001000) (status_at 3 20000000) models_fine) as N.
  cbv zeta in L, J, N.
  destruct L as (L & _).
  specialize (L ltac:(vm_compute; discriminate) eq_refl eq_refl
                ltac:(vm_compute; discriminate)).
  destruct L as (L1 & L2 & _ & _ & _ & _ & L7).
  destruct J as (_ & J2 & _ & J4).
  specialize (J4 eq_refl ltac:(vm_compute; discriminate) eq_refl eq_refl eq_refl).
  destruct N as (_ & _ & N3 & _).
  exact (conj (conj L1 (conj L2 (L7 eq_refl eq_refl)))
              (conj (conj (proj1 J4) (J2 eq_refl)) (N3 eq_refl))).
Defined.

Section ErrorLatch.
Context `{Wg0xHeader}.
Variable setup : WG0XSetup.

Lemma verifyState_has_error w this_status prev_status ans :
  has_error_ (after (verifyState setup w this_status prev_status ans))
  = negb (rv (verifyState setup w this_status prev_status ans))
    || has_error_ w.
Proof. unfold verifyState. cbv zeta. split_checks; reflexivity. Qed.

Lemma packCommand_no_reset w cmd halt :
  has_error_ w = true ->
  let '(w', c, _) := packCommand setup w cmd halt false in
  has_error_ w' = true /\ c_mode_ c = MODE_OFF.
Proof.
  intros He. unfold packCommand. simpl. rewrite He.
  rewrite andb_false_r. split; reflexivity.
Qed.

Lemma packCommand_reset w cmd halt :
  let '(w', c, _) := packCommand setup w cmd halt true in
  has_error_ w' = false /\
  c_mode_ c =
    to_u8 (Z.lor (to_u8 (if enable_ cmd && negb halt
                         then Z.lor MODE_ENABLE MODE_CURRENT else MODE_OFF))
                 MODE_SAFETY_RESET).
Proof.
  unfold packCommand. simpl. rewrite andb_true_r. split; reflexivity.
Qed.

(** While no reset is packed the latch holds and every command is off. *)
Lemma latch_step w op :
  has_error_ w = true -> is_reset op = false ->
  has_error_ (fst (cycle_step setup w op)) = true /\
  forall c, snd (cycle_step setup w op) = OutCommand c -> c_mode_ c = MODE_OFF.
Proof.
  intros He Hr. destruct op as [cmd halt reset|t p a|t p a|hold]; simpl in *.
  - subst reset. pose proof (packCommand_no_reset w cmd halt He) as P.
    destruct (packCommand setup w cmd halt false) as [[w' c] cs]. simpl.
    destruct P as [P1 P2]. split; [exact P1|]. intros c0 [= <-]. exact P2.
  - unfold unpackState. rewrite verifyState_has_error. simpl. rewrite He.
    rewrite orb_true_r. split; [reflexivity | discriminate].
  - rewrite verifyState_has_error, He, orb_true_r.
    split; [reflexivity | discriminate].
  - split; [|discriminate]. unfold publishGeneralDiagnostics.
    destruct (_ && _); simpl; exact He.
Qed.

Lemma latch_run ops : forall w,
  has_error_ w = true ->
  Forall (fun op => is_reset op = false) ops ->
  has_error_ (fst (cycle_run setup w ops)) = true /\
  commands_off (snd (cycle_run setup w ops)).
Proof.
  induction ops as [|op ops IH]; intros w He Hall.
  - split; [exact He|]. intros c [].
  - inversion Hall as [|? ? Hop Hall']; subst. simpl.
    destruct (latch_step w op He Hop) as [S1 S2].
    destruct (cycle_step setup w op) as [w1 out]. simpl in S1, S2.
    destruct (IH w1 S1 Hall') as [R1 R2].
    destruct (cycle_run setup w1 ops) as [w2 outs]. simpl in *.
    split; [exact R1|].
    intros c [Hc | Hc]; [apply S2; exact Hc | apply R2; exact Hc].
Qed.

(** Only a packed reset takes the latch away. *)
Lemma latch_cleared_by_reset w op :
  has_error_ w = true ->
  has_error_ (fst (cycle_step setup w op)) = false ->
  exists cmd halt, op = OpPackCommand cmd halt true.
Proof.
  intros He Hc. destruct (is_reset op) eqn:Hr.
  - destruct op as [cmd halt reset| | |]; try discriminate.
    simpl in Hr. subst. eauto.
  - destruct (latch_step w op He Hr) as [S1 _]. congruence.
Qed.
End ErrorLatch.

(** C1.  When [verifyState] returns failure, [has_error_] is set; it stays
    set through every later [verifyState], [unpackState], diagnostics
    publication and [packCommand] with [reset = false], and each of those
    [packCommand] calls emits [mode_ == MODE_OFF].  Only a [packCommand] with
    [reset = true] takes the latch away, and it does so before the mode is
    computed: its command has the mode of a device without error. *)
Theorem error_latch_is_sticky `{Wg0xHeader} (setup : WG0XSetup) (w : WG0XCycle)
    (this_status prev_status : WG0XStatus) (ans : ModelAnswers) :
  rv (verifyState setup w this_status prev_status ans) = false ->
  let w1 := after (verifyState setup w this_status prev_status ans) in
  has_error_ w1 = true /\
  (forall ops,
      Forall (fun op => is_reset op = false) ops ->
      has_error_ (fst (cycle_run setup w1 ops)) = true /\
      commands_off (snd (cycle_run setup w1 ops))) /\
  (forall w0 op,
      has_error_ w0 = true ->
      has_error_ (fst (cycle_step setup w0 op)) = false ->
      exists cmd halt, op = OpPackCommand cmd halt true) /\
  (forall w0 cmd halt,
      let '(w', c, _) := packCommand setup w0 cmd halt true in
      has_error_ w' = false /\
      c_mode_ c =
        to_u8 (Z.lor (to_u8 (if enable_ cmd && negb halt
                             then Z.lor MODE_ENABLE MODE_CURRENT else MODE_OFF))
                     MODE_SAFETY_RESET)).
Proof.
  intros Hrv w1.
  assert (H1 : has_error_ w1 = true).
  { subst w1. rewrite verifyState_has_error, Hrv. reflexivity. }
  split; [exact H1|]. split; [|split].
  - intros ops Hall. apply latch_run; assumption.
  - apply latch_cleared_by_reset.
  - apply packCommand_reset.
Qed.

Lemma error_latch_is_sticky_witness :
  let failed := verifyState bare_setup WG0X_new (status_at 32 1000)
                            (status_at 3 0) models_fine in
  let later :=
    cycle_run bare_setup (after failed)
      [OpPackCommand full_effort false false;
       OpUnpackState (status_at 3 2000) (status_at 32 1000) models_fine;
       OpPublishDiagnostics true;
       OpPackCommand full_effort false false] in
  rv failed = false /\
  has_error_ (fst later) = true /\
  commands_off (snd later).
Proof.
  cbv zeta.
  pose proof (error_latch_is_sticky bare_setup WG0X_new (status_at 32 1000)
                (status_at 3 0) models_fine eq_refl) as L.
  cbv zeta in L. destruct L as (_ & L & _).
  specialize (L [OpPackCommand full_effort false false;
                 OpUnpackState (status_at 3 2000) (status_at 32 1000) models_fine;
                 OpPublishDiagnostics true;
                 OpPackCommand full_effort false false]).
  exact (conj eq_refl (L ltac:(repeat constructor))).
Defined.

(** ** Mailbox engine *)

(** The clock script bounds the wait loop: any fuel beyond its length gives
    the same run, so the fuel that [wait_mailbox] hands over never runs out. *)
Lemma wait_mailbox_loop_fuel want_full start fuel1 : forall fuel2 w,
  (length (clock w) < fuel1)%nat -> (length (clock w) < fuel2)%nat ->
  wait_mailbox_loop fuel1 want_full start w
  = wait_mailbox_loop fuel2 want_full start w.
Proof.
  induction fuel1 as [|fuel1 IH]; intros fuel2 w H1 H2; [lia|].
  destruct fuel2 as [|fuel2]; [lia|].
  cbn [wait_mailbox_loop]. unfold bind, readSyncManStatus, ret.
  match goal with
  | |- context [if ?seen then _ else _] => destruct seen; [reflexivity|]
  end.
  unfold safe_clock_gettime. cbn [clock].
  destruct (clock w) as [|[t|] rest]; cbn [hd tl]; try reflexivity.
  destruct (timediff_ms t start <? 100); [|reflexivity].
  apply IH; cbn [clock length] in *; lia.
Qed.

(** Whatever the wait for the command mailbox yields, [writeMailbox_]
    returns 0 once the command has been written. *)
Lemma writeMailbox_ignores_wait `{Wg0xHeader} address data length w r o w' :
  writeMailbox_traced address data length w = Some ((r, Some o), w') -> r = 0.
Proof.
  unfold writeMailbox_traced, bind, ret, undefined.
  destruct (verifyDeviceStateForMailboxOperation w) as [[ok w1]|]; [|discriminate].
  destruct (negb ok); [discriminate|].
  destruct (local_WG0XMbxCmd w1) as [[cmd w2]|]; [|discriminate].
  destruct (get_mbx_counter w2) as [[seqnum w3]|]; [|discriminate].
  destruct (WG0XMbxCmd_build _ _ _ _ _ _); try discriminate.
  destruct (writeMailboxInternal _ _ w3) as [[ok' w4]|]; [|discriminate].
  destruct (negb ok'); [discriminate|].
  destruct (wait_mailbox false w4) as [[o' w5]|]; [|discriminate].
  intros [= <- _ _]. reflexivity.
Qed.

(** C2.  The wait for the command mailbox to be seen empty times out
    (status bit 3 still set at 100 ms), and [writeMailbox_] and
    [writeMailbox] return 0 all the same, without counting a write error. *)
Theorem write_timeout_returns_success :
  option_map fst (writeMailbox_traced SPI_COMMAND_ADDR [1; 2; 3] 3 mailbox_stays_full)
    = Some (0, Some (WaitTimedOut 100)) /\
  option_map fst (writeMailbox_ SPI_COMMAND_ADDR [1; 2; 3] 3 mailbox_stays_full)
    = Some 0 /\
  option_map (fun '(r, w) => (r, write_errors_ (mailbox_diagnostics_ w)))
             (writeMailbox SPI_COMMAND_ADDR [1; 2; 3] 3 mailbox_stays_full)
    = Some (0, 0).
Proof. repeat split; vm_compute; reflexivity. Qed.

Section ReadRetry.
Variables (split_read : bool) (read_length : Z) (frame : list Telegram).

(** The first frame of the attempt comes back with working counter 0. *)
Lemma read_refused_at_once left data w wkc_end rx rest :
  txrx w = TxReplied 0 wkc_end rx :: rest ->
  exists data' w',
    read_loop (S left) split_read read_length frame data w
      = Some ((false, data'), w') /\
    trace w' = trace w ++ [EvTx frame] /\
    txrx w' = rest /\
    repeat_acks w' = repeat_acks w /\
    mailbox_diagnostics_ w' = mailbox_diagnostics_ w.
Proof.
  intros Htx.
  exists (write_bytes data 0 (firstn (Z.to_nat read_length) rx)).
  eexists. split.
  - cbn [read_loop send_frame]. unfold bind, txandrx_once, get_wkc, ret.
    rewrite Htx. cbn [hd tl].
    destruct (split_read && negb (0 =? wkc_end)); reflexivity.
  - cbn. repeat split; reflexivity.
Qed.

Lemma send_frame_keeps_wkc budget : forall w r d w1,
  send_frame budget frame w = Some ((r, d), w1) ->
  logic_wkc w1 = logic_wkc w /\ 0 <= d.
Proof.
  induction budget as [|budget IH]; intros w r d w1; cbn [send_frame].
  - unfold ret. intros [= <- <- <-]. split; [reflexivity | lia].
  - unfold bind, txandrx_once.
    destruct (hd TxDropped (txrx w)) as [|ws we rx].
    + destruct (send_frame budget frame _) as [[[r' d'] w']|] eqn:E;
        [|discriminate].
      unfold ret. intros [= <- <- <-].
      apply IH in E. cbn in E. split; [tauto | lia].
    + unfold ret. intros [= <- <- <-]. split; [reflexivity | lia].
Qed.

Lemma repeat_ack_loop_spec orig_repeat_request start_time fuel : forall w,
  exists ok w',
    repeat_ack_loop fuel orig_repeat_request start_time w = Some (ok, w') /\
    trace w' = trace w /\
    mailbox_diagnostics_ w' = mailbox_diagnostics_ w /\
    txrx w' = txrx w /\
    logic_wkc w' = logic_wkc w /\
    ec_state_ok w' = ec_state_ok w.
Proof.
  induction fuel as [|fuel IH]; intros w; cbn [repeat_ack_loop].
  - exists false, w. repeat split; reflexivity.
  - unfold bind at 1. unfold SyncMan_readData.
    destruct (hd None (repeat_acks w)) as [sm|];
      [|eexists; eexists; split; [reflexivity|]; repeat split; reflexivity].
    destruct (Bool.eqb (activate_repeat_request sm) (pdi_control_repeat_ack sm)).
    { destruct (negb (status_mailbox_status sm =? 1));
        eexists; eexists; (split; [reflexivity|]); repeat split; reflexivity. }
    destruct (Bool.eqb (activate_repeat_request sm) orig_repeat_request);
      [eexists; eexists; split; [reflexivity|]; repeat split; reflexivity|].
    unfold bind at 1. unfold safe_clock_gettime. cbn [clock].
    destruct (hd None (clock w)) as [t|];
      [|eexists; eexists; split; [reflexivity|]; repeat split; reflexivity].
    cbv zeta. destruct (timediff_ms t start_time <? 100);
      [|eexists; eexists; split; [reflexivity|]; repeat split; reflexivity].
    match goal with
    | |- context [repeat_ack_loop fuel _ _ ?w1] =>
        destruct (IH w1) as (ok & w' & E & Ht & Hm & Hx & Hl & He)
    end.
    exists ok, w'. split; [exact E|]. cbn in Ht, Hm, Hx, Hl, He.
    repeat split; assumption.
Qed.

Lemma _readMailboxRepeatRequest_spec w :
  exists ok w',
    _readMailboxRepeatRequest w = Some (ok, w') /\
    trace w' = trace w ++ [EvRepeatRequest] /\
    mailbox_diagnostics_ w' = mailbox_diagnostics_ w /\
    txrx w' = txrx w /\
    logic_wkc w' = logic_wkc w /\
    ec_state_ok w' = ec_state_ok w.
Proof.
  unfold _readMailboxRepeatRequest.
  unfold bind at 1. unfold log_repeat_request.
  unfold bind at 1. unfold SyncMan_readData. cbn [repeat_acks].
  destruct (hd None (repeat_acks w)) as [sm|];
    [|eexists; eexists; split; [reflexivity|]; repeat split; reflexivity].
  destruct (negb (Bool.eqb (activate_repeat_request sm)
                           (pdi_control_repeat_ack sm)));
    [eexists; eexists; split; [reflexivity|]; repeat split; reflexivity|].
  cbv zeta. unfold bind at 1. unfold SyncManActivate_writeData.
  cbn [syncman_writes].
  destruct (negb (hd false (syncman_writes w)));
    [eexists; eexists; split; [reflexivity|]; repeat split; reflexivity|].
  unfold bind at 1. unfold safe_clock_gettime. cbn [clock].
  destruct (hd None (clock w)) as [t|];
    [|eexists; eexists; split; [reflexivity|]; repeat split; reflexivity].
  match goal with
  | |- context [repeat_ack_loop ?f ?o ?st ?w1] =>
      destruct (repeat_ack_loop_spec o st f w1)
        as (ok & w' & E & Ht & Hm & Hx & Hl & He)
  end.
  exists ok, w'. split; [exact E|]. cbn in Ht, Hm, Hx, Hl, He.
  repeat split; assumption.
Qed.

Lemma readMailboxRepeatRequest_spec w :
  exists ok w',
    readMailboxRepeatRequest w = Some (ok, w') /\
    (txrx w' = txrx w /\ logic_wkc w' = logic_wkc w /\
     ec_state_ok w' = ec_state_ok w) /\
    trace w' = trace w ++ [EvRepeatRequest] /\
    retries_ (mailbox_diagnostics_ w') = retries_ (mailbox_diagnostics_ w) + 1.
Proof.
  destruct (_readMailboxRepeatRequest_spec w)
    as (ok & w1 & E & Ht & Hm & Hx & Hl & He).
  unfold readMailboxRepeatRequest, bind. rewrite E.
  unfold update_mailbox_diagnostics, ret.
  destruct ok; cbn [negb]; eexists; eexists; (split; [reflexivity|]);
    cbn [txrx logic_wkc ec_state_ok trace mailbox_diagnostics_ retries_
         incr_retries incr_retry_errors];
    rewrite ?Hm; auto.
Qed.

(** The attempt loses at least one frame and ends on working counter 0. *)
Lemma read_refused_after_drops left data w r dropped w1 :
  send_frame 10 frame w = Some ((r, dropped), w1) ->
  0 < dropped ->
  fst (attempt_wkc r (logic_wkc w1)) = 0 ->
  (split_read = true -> snd (attempt_wkc r (logic_wkc w1)) = 0) ->
  exists ok w2,
    readMailboxRepeatRequest w1 = Some (ok, w2) /\
    trace w2 = trace w1 ++ [EvRepeatRequest] /\
    retries_ (mailbox_diagnostics_ w2)
      = retries_ (mailbox_diagnostics_ w1) + 1 /\
    read_loop (S left) split_read read_length frame data w
      = (if ok
         then read_loop left split_read read_length frame (attempt_data read_length r data) w2
         else Some ((false, attempt_data read_length r data), w2)) /\
    (left = O ->
     read_loop (S left) split_read read_length frame data w
       = Some ((false, attempt_data read_length r data), w2)).
Proof.
  intros Hsend Hd Hs He.
  destruct (readMailboxRepeatRequest_spec w1) as (ok & w2 & Hrr & _ & Ht & Hn).
  exists ok, w2. split; [exact Hrr|]. split; [exact Ht|]. split; [exact Hn|].
  assert (Hloop :
    read_loop (S left) split_read read_length frame data w
    = (if ok
       then read_loop left split_read read_length frame (attempt_data read_length r data) w2
       else Some ((false, attempt_data read_length r data), w2))).
  { cbn [read_loop]. unfold bind at 1. rewrite Hsend.
    unfold bind at 1. unfold get_wkc at 1.
    destruct r as [[[ws we] rx]|]; cbn [attempt_wkc attempt_data fst snd] in *.
    - subst ws.
      assert (Hc : split_read && negb (0 =? we) = false).
      { destruct split_read; [|reflexivity]. rewrite (He eq_refl). reflexivity. }
      rewrite Hc. cbn [Z.eqb].
      destruct (dropped =? 0) eqn:E; [lia|].
      unfold bind at 1. rewrite Hrr. destruct ok; reflexivity.
    - rewrite Hs, Z.eqb_refl. cbn [negb]. rewrite andb_false_r.
      destruct (dropped =? 0) eqn:E; [lia|].
      unfold bind at 1. rewrite Hrr. destruct ok; reflexivity. }
  split; [exact Hloop|].
  intros ->. rewrite Hloop. destruct ok; reflexivity.
Qed.
End ReadRetry.

(** C6, as the code has it.  In any attempt of [readMailboxInternal]
    ([read_loop (S left)], with [left] attempts to go after it): a working
    counter of 0 on the first frame, nothing dropped, ends the read at once
    with failure, no repeat request and no further frame.  A working counter
    of 0 (on both telegrams of a split read) after at least one dropped
    frame sends a repeat request; the read is tried again when the request
    is acknowledged and an attempt is left, and fails otherwise. *)
Theorem read_refusal_handling (split_read : bool) (read_length : Z)
    (frame : list Telegram) (left : nat) (data : list byte) (w : World) :
  (forall wkc_end rx rest,
      txrx w = TxReplied 0 wkc_end rx :: rest ->
      exists data' w',
        read_loop (S left) split_read read_length frame data w
          = Some ((false, data'), w') /\
        trace w' = trace w ++ [EvTx frame] /\
        txrx w' = rest /\
        repeat_acks w' = repeat_acks w /\
        mailbox_diagnostics_ w' = mailbox_diagnostics_ w) /\
  (forall r dropped w1,
      send_frame 10 frame w = Some ((r, dropped), w1) ->
      0 < dropped ->
      fst (attempt_wkc r (logic_wkc w1)) = 0 ->
      (split_read = true -> snd (attempt_wkc r (logic_wkc w1)) = 0) ->
      exists ok w2,
        readMailboxRepeatRequest w1 = Some (ok, w2) /\
        trace w2 = trace w1 ++ [EvRepeatRequest] /\
        retries_ (mailbox_diagnostics_ w2)
          = retries_ (mailbox_diagnostics_ w1) + 1 /\
        read_loop (S left) split_read read_length frame data w
          = (if ok
             then read_loop left split_read read_length frame
                            (attempt_data read_length r data) w2
             else Some ((false, attempt_data read_length r data), w2)) /\
        (left = O ->
         read_loop (S left) split_read read_length frame data w
           = Some ((false, attempt_data read_length r data), w2))).
Proof.
  split.
  - intros. eapply read_refused_at_once; eassumption.
  - intros. eapply read_refused_after_drops; eassumption.
Qed.

Lemma read_refusal_handling_witness :
  (exists data' w',
      read_loop 10 true 4 (split_read_frame 4) (repeat 0 512) refused_at_once
        = Some ((false, data'), w') /\
      trace w' = trace refused_at_once ++ [EvTx (split_read_frame 4)] /\
      txrx w' = [TxReplied 1 1 (posted [7; 8; 9])] /\
      repeat_acks w' = repeat_acks refused_at_once /\
      mailbox_diagnostics_ w' = mailbox_diagnostics_ refused_at_once) /\
  (exists w1 ok w2,
      send_frame 10 (split_read_frame 4) repeat_acknowledged
        = Some ((Some (0, 0, []), 1), w1) /\
      readMailboxRepeatRequest w1 = Some (ok, w2) /\
      trace w2 = trace w1 ++ [EvRepeatRequest] /\
      retries_ (mailbox_diagnostics_ w2)
        = retries_ (mailbox_diagnostics_ w1) + 1 /\
      read_loop 10 true 4 (split_read_frame 4) (repeat 0 512) repeat_acknowledged
        = (if ok
           then read_loop 9 true 4 (split_read_frame 4)
                          (attempt_data 4 (Some (0, 0, [])) (repeat 0 512)) w2
           else Some ((false, attempt_data 4 (Some (0, 0, [])) (repeat 0 512)), w2))).
Proof.
  split.
  - exact (proj1 (read_refusal_handling true 4 (split_read_frame 4) 9
                    (repeat 0 512) refused_at_once)
                 0 [] [TxReplied 1 1 (posted [7; 8; 9])] eq_refl).
  - eexists.
    destruct (proj2 (read_refusal_handling true 4 (split_read_frame 4) 9
                       (repeat 0 512) repeat_acknowledged)
                    (Some (0, 0, [])) 1 _ eq_refl ltac:(lia) eq_refl
                    (fun _ => eq_refl))
      as (ok & w2 & H1 & H2 & H3 & H4 & _).
    exists ok, w2. exact (conj eq_refl (conj H1 (conj H2 (conj H3 H4)))).
Defined.

(** C6, as stated, fails: one frame of the read is lost, the next comes
    back with working counter 0, the repeat request goes out and is not
    acknowledged.  The read returns failure; no frame follows the request. *)
Lemma repeat_request_without_retry :
  option_map (fun '(r, w) => (fst r, trace w))
             (readMailboxInternal (repeat 0 512) 4 repeat_not_acknowledged)
  = Some (false,
          [EvTx (split_read_frame 4); EvTx (split_read_frame 4);
           EvRepeatRequest]).
Proof. vm_compute. reflexivity. Qed.

(** ** SPI EEPROM engine *)

(** C7.  [readEepromPage] of the motor heating parameters into a buffer of
    the caller, the whole read going well: the first frame on the wire is
    the mailbox write to [SPI_BUFFER_ADDR], and its 264 data bytes are the
    bytes of [actuator_info_], none of them zero here.  (Handed
    [actuator_info_] itself with its full length, the same write carries
    zeros.) *)
Theorem eeprom_read_writes_actuator_info :
  match readEepromPage calibrated 1 ToBuffer 256 eeprom_answers with
  | Some ((ok, m), w') =>
      ok = true /\
      buffer m = heating_page /\
      match trace w' with
      | EvTx (NPWR address bytes :: _) :: _ =>
          address = MBX_COMMAND_PHY_ADDR /\
          firstn 4 bytes = hdr_fields SPI_BUFFER_ADDR 263 1 1 /\
          firstn 264 (skipn 5 bytes) = actuator_info_ calibrated /\
          firstn 264 (skipn 5 bytes) <> repeat 0 264
      | _ => False
      end
  | None => False
  end /\
  match readEepromPage calibrated 1 ToActuatorInfo 264 eeprom_answers with
  | Some (_, w') =>
      match trace w' with
      | EvTx (NPWR address bytes :: _) :: _ =>
          firstn 264 (skipn 5 bytes) = repeat 0 264
      | _ => False
      end
  | None => False
  end.
Proof.
  vm_compute. repeat split; try reflexivity. intros E. discriminate E.
Qed.

(** ** Diagnostics poll *)

(** Takes a monadic equation apart along the calls it goes through. *)
Ltac step_through H :=
  repeat match type of H with
         | context [match ?x with _ => _ end] =>
             destruct x eqn:?; try discriminate H
         end.

Section Poll.
Context `{Wg0xHeader}.



End Poll.

(** * Further properties of the code *)

Ltac Zify.zify_post_hook ::= Z.to_euclidean_division_equations.

(** ** Time arithmetic *)

(** X1.  [timestampDiff] gives back the signed step [d] between two readings of
    the free-running 32 bit microsecond counter, whatever the counter value
    and across its roll-over, as long as the step fits [int32_t]; adding a
    multiple of 2^32 to a reading changes nothing. *)
Theorem timestampDiff_recovers_step (old_timestamp d k : Z) :
  -2147483648 <= d < 2147483648 ->
  timestampDiff (to_u32 (old_timestamp + d)) old_timestamp = d /\
  timestampDiff (to_u32 (old_timestamp + d) + k * 4294967296) old_timestamp = d /\
  timestampDiff 1 0xFFFFFFFF = 2.
Proof.
  intros Hd. unfold timestampDiff, to_i32, to_u32.
  repeat split.
  - destruct (_ <? _) eqn:E; lia.
  - destruct (_ <? _) eqn:E; lia.
Qed.

Lemma timestampDiff_recovers_step_witness :
  timestampDiff (to_u32 (0xFFFFFFF0 + 100)) 0xFFFFFFF0 = 100 /\
  timestampDiff (to_u32 (5 + -20)) 5 = -20.
Proof.
  split.
  - exact (proj1 (timestampDiff_recovers_step 0xFFFFFFF0 100 0 ltac:(lia))).
  - exact (proj1 (timestampDiff_recovers_step 5 (-20) 0 ltac:(lia))).
Defined.

(** X2.  [timediffToDuration] loses nothing: seconds and nanoseconds add up to
    the microseconds given, the nanoseconds stay below one second in
    magnitude and never have the sign opposite to the seconds. *)
Theorem timediffToDuration_exact (timediff_usec : Z) :
  let '(sec, nsec) := timediffToDuration timediff_usec in
  sec * 1000000000 + nsec = timediff_usec * 1000 /\
  -1000000000 < nsec < 1000000000 /\
  0 <= sec * nsec.
Proof.
  unfold timediffToDuration. cbv zeta.
  assert (Hqr : timediff_usec
                = Z.quot timediff_usec 1000000 * 1000000
                  + Z.rem timediff_usec 1000000) by lia.
  assert (Hb : -1000000 < Z.rem timediff_usec 1000000 < 1000000) by lia.
  assert (Hpos : 0 <= timediff_usec ->
                 0 <= Z.quot timediff_usec 1000000 /\
                 0 <= Z.rem timediff_usec 1000000) by lia.
  assert (Hneg : timediff_usec <= 0 ->
                 Z.quot timediff_usec 1000000 <= 0 /\
                 Z.rem timediff_usec 1000000 <= 0) by lia.
  generalize dependent (Z.rem timediff_usec 1000000).
  generalize dependent (Z.quot timediff_usec 1000000).
  intros sec nsec Hqr Hb Hpos Hneg.
  assert (Hn : to_i32 (nsec * 1000) = nsec * 1000).
  { unfold to_i32, to_u32. destruct (_ <? _) eqn:E; lia. }
  rewrite Hn. repeat split; lia.
Qed.

(** X3.  [timediff_ms] is within one millisecond of the elapsed time, on either
    side: the nanosecond difference is truncated towards zero, so a span
    that crosses a second boundary can be reported up to 1 ms too long. *)
Theorem timediff_ms_within_one_ms (current start : timespec) :
  0 <= tv_nsec current < 1000000000 ->
  0 <= tv_nsec start < 1000000000 ->
  -2147482 <= tv_sec current - tv_sec start <= 2147482 ->
  -1000000 < timediff_ms current start * 1000000 - elapsed_ns current start
    < 1000000.
Proof.
  intros Hc Hs Hd. unfold timediff_ms, elapsed_ns.
  set (dn := tv_nsec current - tv_nsec start).
  assert (Hdn : -1000000000 < dn < 1000000000) by (subst dn; lia).
  assert (Hq : -1000000 < dn - Z.quot dn 1000000 * 1000000 < 1000000) by lia.
  generalize dependent (Z.quot dn 1000000). intros ms Hq.
  unfold to_i32, to_u32. destruct (_ <? _) eqn:E; lia.
Qed.

Lemma timediff_ms_within_one_ms_witness :
  timediff_ms {| tv_sec := 11; tv_nsec := 0 |}
              {| tv_sec := 10; tv_nsec := 999999999 |} = 1 /\
  elapsed_ns {| tv_sec := 11; tv_nsec := 0 |}
             {| tv_sec := 10; tv_nsec := 999999999 |} = 1 /\
  -1000000 < timediff_ms {| tv_sec := 11; tv_nsec := 0 |}
                         {| tv_sec := 10; tv_nsec := 999999999 |} * 1000000
             - elapsed_ns {| tv_sec := 11; tv_nsec := 0 |}
                          {| tv_sec := 10; tv_nsec := 999999999 |}
    < 1000000.
Proof.
  refine (conj eq_refl (conj eq_refl
            (timediff_ms_within_one_ms {| tv_sec := 11; tv_nsec := 0 |}
               {| tv_sec := 10; tv_nsec := 999999999 |} _ _ _)));
    simpl; lia.
Defined.

(** X4.  [timestamp_jump] with the 10 s bound of [verifyState]: a step forward of
    at most [amount] is no jump, also across the roll-over of the counter; a
    step backward is a jump, as is a step forward of more than [amount]. *)
Theorem timestamp_jump_direction (last_timestamp d amount : Z) :
  0 <= amount < 2147483648 ->
  (0 <= d <= amount ->
   timestamp_jump (to_u32 (last_timestamp + d)) last_timestamp amount = false) /\
  (amount < d < 4294967296 ->
   timestamp_jump (to_u32 (last_timestamp + d)) last_timestamp amount = true) /\
  (0 < d <= 2147483648 ->
   timestamp_jump (to_u32 (last_timestamp - d)) last_timestamp amount = true).
Proof.
  intros Ha. unfold timestamp_jump, to_u32. cbv zeta.
  repeat split; intros Hd.
  - apply Z.ltb_ge. lia.
  - apply Z.ltb_lt. lia.
  - apply Z.ltb_lt. lia.
Qed.

Lemma timestamp_jump_direction_witness :
  timestamp_jump (to_u32 (0xFFFFFFFF + 1000)) 0xFFFFFFFF 10000000 = false /\
  timestamp_jump (to_u32 (500 + 10000001)) 500 10000000 = true /\
  timestamp_jump (to_u32 (500 - 1)) 500 10000000 = true.
Proof.
  pose proof (timestamp_jump_direction 0xFFFFFFFF 1000 10000000 ltac:(lia)) as A.
  pose proof (timestamp_jump_direction 500 10000001 10000000 ltac:(lia)) as B.
  pose proof (timestamp_jump_direction 500 1 10000000 ltac:(lia)) as C.
  exact (conj (proj1 A ltac:(lia))
              (conj (proj1 (proj2 B) ltac:(lia)) (proj2 (proj2 C) ltac:(lia)))).
Defined.

(** ** Checksum and frame builder, continued *)

Lemma land_lxor_distr (a b c : Z) :
  Z.land (Z.lxor a b) c = Z.lxor (Z.land a c) (Z.land b c).
Proof.
  apply Z.bits_inj. intros n.
  rewrite Z.land_spec, !Z.lxor_spec, !Z.land_spec.
  destruct (Z.testbit a n), (Z.testbit b n), (Z.testbit c n); reflexivity.
Qed.

Lemma lxor_cancel_r (a b m : Z) : Z.lxor a m = Z.lxor b m -> a = b.
Proof.
  intros E. apply (f_equal (fun x => Z.lxor x m)) in E.
  rewrite !Z.lxor_assoc, Z.lxor_nilpotent, !Z.lxor_0_r in E. exact E.
Qed.

Lemma lxor_cancel_l (m a b : Z) : Z.lxor m a = Z.lxor m b -> a = b.
Proof. rewrite !(Z.lxor_comm m). apply lxor_cancel_r. Qed.

(** A property checked on each of the 256 byte values holds of every byte. *)
Lemma for_all_bytes (P : Z -> bool) :
  forallb P (map Z.of_nat (seq 0 256)) = true ->
  forall x, 0 <= x < 256 -> P x = true.
Proof.
  intros Hall x Hx. rewrite forallb_forall in Hall. apply Hall.
  apply in_map_iff. exists (Z.to_nat x). split; [lia|].
  apply in_seq. lia.
Qed.

Lemma rotateRight8_byte (x : Z) :
  0 <= x < 256 -> rotateRight8 x = x / 2 + 128 * (x mod 2).
Proof.
  intros Hx. apply Z.eqb_eq.
  apply (for_all_bytes (fun x => rotateRight8 x =? x / 2 + 128 * (x mod 2)));
    [vm_compute; reflexivity | exact Hx].
Qed.

Lemma rotateRight8_injective (x y : Z) :
  0 <= x < 256 -> 0 <= y < 256 -> rotateRight8 x = rotateRight8 y -> x = y.
Proof.
  intros Hx Hy. rewrite !rotateRight8_byte by assumption. lia.
Qed.

Lemma checksum_step_range (c d : Z) : 0 <= checksum_step c d < 256.
Proof. unfold checksum_step. rewrite land_255_mod. lia. Qed.

Lemma checksum_step_lxor (c d : Z) :
  checksum_step c d = Z.lxor (rotateRight8 c) (Z.land d 0xff).
Proof.
  unfold checksum_step. rewrite land_lxor_distr. f_equal.
  rewrite land_255_mod. apply Z.mod_small, rotateRight8_range.
Qed.

(** Two different accumulators stay different under the same bytes. *)
Lemma fold_keeps_difference (l : list byte) : forall c c',
  0 <= c < 256 -> 0 <= c' < 256 -> c <> c' ->
  fold_left checksum_step l c <> fold_left checksum_step l c'.
Proof.
  induction l as [|b l IH]; intros c c' Hc Hc' Hne; simpl; [exact Hne|].
  apply IH; try apply checksum_step_range.
  rewrite !checksum_step_lxor. intros E.
  apply lxor_cancel_r, rotateRight8_injective in E; auto.
Qed.

Lemma fold_range (l : list byte) : forall c,
  0 <= c < 256 -> 0 <= fold_left checksum_step l c < 256.
Proof.
  induction l as [|b l IH]; intros c Hc; simpl; [exact Hc|].
  apply IH, checksum_step_range.
Qed.

(** X5.  The checksum sees every change of a single byte: two buffers that differ
    in one byte, inside the [length] bytes folded, never have the same
    checksum.  A frame that verified does not verify with one byte altered. *)
Theorem single_byte_change_alters_checksum (before after : list byte)
    (d d' : byte) (length : Z) :
  0 <= d < 256 -> 0 <= d' < 256 -> d <> d' ->
  Z.of_nat (List.length before) < length ->
  computeChecksum (before ++ d :: after) length
    <> computeChecksum (before ++ d' :: after) length /\
  (computeChecksum (before ++ d :: after) length = 0 ->
   computeChecksum (before ++ d' :: after) length <> 0).
Proof.
  intros Hd Hd' Hne Hlen.
  assert (Hdiff : computeChecksum (before ++ d :: after) length
                  <> computeChecksum (before ++ d' :: after) length).
  { unfold computeChecksum.
    assert (Hn : Z.to_nat length
                 = (List.length before + S (Z.to_nat length - List.length before - 1))%nat)
      by lia.
    rewrite Hn, !firstn_app_2. cbn [firstn].
    rewrite !fold_left_app. cbn [fold_left].
    apply fold_keeps_difference; try apply checksum_step_range.
    rewrite !checksum_step_lxor. intros E. apply lxor_cancel_l in E.
    rewrite !land_255_mod in E. lia. }
  split; [exact Hdiff|]. intros E0 E1. apply Hdiff. congruence.
Qed.

Lemma single_byte_change_alters_checksum_witness :
  computeChecksum ([1; 2] ++ 3 :: [5]) 4 = 0 /\
  computeChecksum ([1; 2] ++ 4 :: [5]) 4 <> 0.
Proof.
  split; [reflexivity|].
  apply (proj2 (single_byte_change_alters_checksum [1; 2] [5] 3 4 4
                  ltac:(lia) ltac:(lia) ltac:(lia) ltac:(simpl; lia))).
  reflexivity.
Defined.

Section FrameBuilderLayout.
Context `{Wg0xHeader}.

Lemma hdr_build_length address length type seqnum h :
  WG0XMbxHdr_build address length type seqnum = Some h ->
  Z.of_nat (List.length h) = MBX_HDR_SIZE.
Proof.
  unfold WG0XMbxHdr_build.
  destruct (match type with
            | LOCAL_BUS_READ => _ | LOCAL_BUS_WRITE => _ end); [discriminate|].
  intros [= <-]. rewrite length_app. cbn [List.length].
  pose proof (hdr_fields_length address (to_u32 (length - 1)) seqnum
                (if is_write type then 1 else 0)).
  lia.
Qed.

Lemma write_bytes_at_0 (buf bs : list byte) :
  write_bytes buf 0 bs = bs ++ skipn (List.length bs) buf.
Proof. reflexivity. Qed.

End FrameBuilderLayout.

(** X6.  A command built by [WG0XMbxCmd::build] carries the caller's [length]
    bytes (zeros for a NULL pointer) at the start of [data_], leaves the
    bytes behind the checksum as they were, and keeps the size of the
    object; its header has [sizeof(WG0XMbxHdr)] bytes and the length is
    within the data capacity. *)
Theorem cmd_build_layout `{Wg0xHeader} (this : WG0XMbxCmd)
    (address length : Z) (type : MbxCmdType) (seqnum : Z)
    (data : option (list byte)) (cmd : WG0XMbxCmd) :
  0 <= length ->
  WG0XMbxCmd_build this address length type seqnum data = BuildTrue cmd ->
  length <= MBX_DATA_SIZE /\
  Z.of_nat (List.length (hdr_ cmd)) = MBX_HDR_SIZE /\
  firstn (Z.to_nat length) (data_ cmd)
    = match data with
      | Some d => firstn (Z.to_nat length) d
      | None => repeat 0 (Z.to_nat length)
      end /\
  List.length (firstn (Z.to_nat length) (data_ cmd)) = Z.to_nat length /\
  skipn (Z.to_nat length + 1) (data_ cmd)
    = skipn (Z.to_nat length + 1) (data_ this) /\
  (Z.of_nat (List.length (data_ this)) = MBX_DATA_SIZE + 1 ->
   Z.of_nat (List.length (cmd_bytes cmd)) = MBX_SIZE).
Proof.
  intros Hpos. unfold WG0XMbxCmd_build.
  destruct (WG0XMbxHdr_build address length type seqnum) as [h|] eqn:Hh;
    [|discriminate].
  destruct ((MBX_DATA_SIZE <? length) || _) eqn:Hov; [discriminate|].
  apply orb_false_iff in Hov as [Hcap Hshort]. apply Z.ltb_ge in Hcap.
  intros [= <-]. cbn [hdr_ data_].
  set (n := Z.to_nat length).
  set (copied := match data with Some d => firstn n d | None => repeat 0 n end).
  assert (Hcopied : List.length copied = n).
  { subst copied n. destruct data as [d|].
    - apply Z.ltb_ge in Hshort. rewrite firstn_length_le; lia.
    - apply repeat_length. }
  rewrite write_bytes_at_0, Hcopied.
  set (rest := skipn n (data_ this)).
  assert (Hfirst : firstn n (copied ++ rest) = copied).
  { rewrite <- Hcopied at 1. rewrite firstn_app, firstn_all, Nat.sub_diag.
    cbn [firstn]. apply app_nil_r. }
  unfold write_bytes. rewrite Hfirst.
  set (c := to_u8 _). cbn [List.length].
  assert (Hskip : skipn (n + 1) (copied ++ rest)
                  = skipn (n + 1) (data_ this)).
  { rewrite skipn_app, Hcopied.
    rewrite (skipn_all2 copied) by lia. cbn [app].
    replace (n + 1 - n)%nat with 1%nat by lia.
    subst rest. rewrite skipn_skipn. f_equal. lia. }
  rewrite Hskip.
  split; [exact Hcap|]. split; [eapply hdr_build_length; eassumption|].
  match goal with
  | |- context [firstn n ?l] => assert (Hpre : firstn n l = copied)
  end.
  { rewrite <- Hcopied at 1. rewrite firstn_app, firstn_all, Nat.sub_diag.
    cbn [firstn]. apply app_nil_r. }
  rewrite Hpre. split; [reflexivity|]. split; [exact Hcopied|]. split.
  - rewrite app_assoc, skipn_app, length_app. cbn [List.length].
    rewrite Hcopied, (skipn_all2 (copied ++ [c])) by (rewrite length_app; simpl; lia).
    rewrite Nat.sub_diag. reflexivity.
  - intros Hobj. unfold cmd_bytes. cbn [hdr_ data_].
    rewrite !length_app, length_skipn. cbn [List.length].
    pose proof (hdr_build_length _ _ _ _ _ Hh). unfold MBX_DATA_SIZE in *. lia.
Qed.

Lemma cmd_build_layout_witness :
  exists cmd,
    WG0XMbxCmd_build sample_cmd 0xF400 3 LOCAL_BUS_WRITE 1 (Some [1; 2; 3; 4])
    = BuildTrue cmd /\
    firstn 3 (data_ cmd) = [1; 2; 3] /\
    skipn 4 (data_ cmd) = skipn 4 (data_ sample_cmd) /\
    Z.of_nat (List.length (cmd_bytes cmd)) = 512.
Proof.
  eexists. split; [reflexivity|].
  match goal with
  | |- context [cmd_bytes ?c] =>
      destruct (cmd_build_layout (H:=sample_header) sample_cmd 0xF400 3
                  LOCAL_BUS_WRITE 1 (Some [1; 2; 3; 4]) c ltac:(lia) eq_refl)
        as (_ & _ & A & _ & B & C)
  end.
  exact (conj A (conj B (C eq_refl))).
Defined.

(** X7.  [WG0XMbxCmd::build] answers false exactly for a length over the limit of
    the direction (data capacity for a write, mailbox size less one for a
    read).  A length within the limit still runs a copy past an object
    exactly when it is over the data capacity, as a read of more than
    [MBX_DATA_SIZE] bytes is, or over the bytes at the source. *)
Theorem cmd_build_outcomes `{Wg0xHeader} (this : WG0XMbxCmd)
    (address length : Z) (type : MbxCmdType) (seqnum : Z)
    (data : option (list byte)) :
  let limit :=
    match type with
    | LOCAL_BUS_WRITE => MBX_DATA_SIZE
    | LOCAL_BUS_READ => MBX_SIZE - 1
    end in
  let source_short :=
    match data with
    | Some d => Z.of_nat (List.length d) < length
    | None => False
    end in
  let built := WG0XMbxCmd_build this address length type seqnum data in
  (built = BuildFalse <-> limit < length) /\
  (built = BuildOverrun <->
   length <= limit /\ (MBX_DATA_SIZE < length \/ source_short)) /\
  (type = LOCAL_BUS_WRITE -> data = None -> built <> BuildOverrun).
Proof.
  cbv zeta. unfold WG0XMbxCmd_build, WG0XMbxHdr_build.
  destruct type; cbn [is_write];
    match goal with
    | |- context [if ?c then None else _] => destruct c eqn:Hlim
    end;
    destruct (MBX_DATA_SIZE <? length) eqn:Hcap; cbn [orb];
    destruct data as [d|];
    try destruct (Z.of_nat (List.length d) <? length) eqn:Hsrc;
    repeat split; try discriminate; try tauto; try lia;
    intros; try discriminate; try tauto; try lia.
Qed.

(** ** Cycle codec, continued *)

Section CycleInvariants.
Context `{Wg0xHeader}.
Variable setup : WG0XSetup.

Lemma verifyState_after_internal_reset w this_status prev_status ans :
  fpga_internal_reset_detected_ w = true ->
  rv (verifyState setup w this_status prev_status ans) = false /\
  fpga_internal_reset_detected_
    (after (verifyState setup w this_status prev_status ans)) = true.
Proof.
  intros Hf. unfold verifyState. cbv zeta. rewrite Hf.
  split_checks; split; reflexivity.
Qed.

Lemma step_after_internal_reset w op :
  fpga_internal_reset_detected_ w = true ->
  fpga_internal_reset_detected_ (fst (cycle_step setup w op)) = true /\
  forall ok, snd (cycle_step setup w op) = OutVerdict ok -> ok = false.
Proof.
  intros Hf. destruct op as [cmd halt reset|t p a|t p a|hold]; cbn [cycle_step].
  - unfold packCommand. destruct reset; cbn; (split; [exact Hf | discriminate]).
  - unfold unpackState.
    destruct (verifyState_after_internal_reset
                (set_is_enabled w (nonzero (Z.land (mode_ t) MODE_ENABLE)))
                t p a Hf) as [R F].
    cbn [fst snd]. split; [exact F|]. intros ok [= <-]. exact R.
  - destruct (verifyState_after_internal_reset w t p a Hf) as [R F].
    cbn [fst snd]. split; [exact F|]. intros ok [= <-]. exact R.
  - cbn [fst snd]. split; [|discriminate].
    unfold publishGeneralDiagnostics. destruct (_ && _); [reflexivity | exact Hf].
Qed.

Lemma run_after_internal_reset ops : forall w,
  fpga_internal_reset_detected_ w = true ->
  fpga_internal_reset_detected_ (fst (cycle_run setup w ops)) = true /\
  forall ok, In (OutVerdict ok) (snd (cycle_run setup w ops)) -> ok = false.
Proof.
  induction ops as [|op ops IH]; intros w Hf; cbn [cycle_run].
  - split; [exact Hf|]. intros ok [].
  - destruct (step_after_internal_reset w op Hf) as [S1 S2].
    destruct (cycle_step setup w op) as [w1 out]. cbn [fst snd] in S1, S2.
    destruct (IH w1 S1) as [R1 R2].
    destruct (cycle_run setup w1 ops) as [w2 outs]. cbn [fst snd] in *.
    split; [exact R1|].
    intros ok [E | Hin]; [apply S2; exact E | apply R2; exact Hin].
Qed.

Lemma verifyState_streak w this_status prev_status ans :
  streak_ok w -> consecutive_drops_ w < 2147483647 ->
  let w' := after (verifyState setup w this_status prev_status ans) in
  streak_ok w' /\
  max_consecutive_drops_ w <= max_consecutive_drops_ w' /\
  consecutive_drops_ w' <= consecutive_drops_ w + 1 /\
  max_board_temperature_ w <= max_board_temperature_ w' /\
  max_bridge_temperature_ w <= max_bridge_temperature_ w'.
Proof.
  unfold streak_ok. intros Hs Hb. unfold verifyState. cbv zeta.
  split_checks; cbn [max_board_temperature_ max_bridge_temperature_];
    unfold count_consecutive_drops;
    destruct (duplicate_timestamp w this_status);
    rewrite ?to_i32_small by lia; lia.
Qed.

Lemma step_streak w op :
  streak_ok w -> consecutive_drops_ w < 2147483647 ->
  let w' := fst (cycle_step setup w op) in
  streak_ok w' /\
  max_consecutive_drops_ w <= max_consecutive_drops_ w' /\
  consecutive_drops_ w' <= consecutive_drops_ w + 1 /\
  max_board_temperature_ w <= max_board_temperature_ w' /\
  max_bridge_temperature_ w <= max_bridge_temperature_ w'.
Proof.
  intros Hs Hb. destruct op as [cmd halt reset|t p a|t p a|hold];
    cbn [cycle_step].
  - unfold packCommand, streak_ok in *.
    destruct reset; cbn; lia.
  - unfold unpackState. cbn [fst].
    apply (verifyState_streak
             (set_is_enabled w (nonzero (Z.land (mode_ t) MODE_ENABLE))));
      assumption.
  - cbn [fst]. apply verifyState_streak; assumption.
  - cbn [fst]. unfold publishGeneralDiagnostics, streak_ok in *.
    destruct (_ && _); cbn; lia.
Qed.
End CycleInvariants.

(** X8.  Once [fpga_internal_reset_detected_] is set nothing in the cycle takes it
    back, not even a reset command: through any run of operations the flag
    stays, every [verifyState] and [unpackState] returns failure, and the
    error latch is set again by the next status frame. *)
Theorem internal_reset_is_permanent `{Wg0xHeader} (setup : WG0XSetup)
    (w : WG0XCycle) (ops : list CycleOp)
    (this_status prev_status : WG0XStatus) (ans : ModelAnswers) :
  fpga_internal_reset_detected_ w = true ->
  let w' := fst (cycle_run setup w ops) in
  fpga_internal_reset_detected_ w' = true /\
  (forall ok, In (OutVerdict ok) (snd (cycle_run setup w ops)) -> ok = false) /\
  has_error_ (after (verifyState setup w' this_status prev_status ans)) = true.
Proof.
  intros Hf. cbv zeta.
  destruct (run_after_internal_reset setup ops w Hf) as [R1 R2].
  split; [exact R1|]. split; [exact R2|].
  rewrite verifyState_has_error.
  destruct (verifyState_after_internal_reset setup _ this_status prev_status
              ans R1) as [Hrv _].
  rewrite Hrv. reflexivity.
Qed.

Lemma internal_reset_is_permanent_witness :
  let w := publishGeneralDiagnostics
             (after (verifyState bare_setup WG0X_new (status_at 3 20000000)
                                 (status_at 3 0) models_fine)) true in
  let run := cycle_run bare_setup w
               [OpPackCommand full_effort false true;
                OpUnpackState (status_at 3 20001000) (status_at 3 20000000)
                              models_fine] in
  fpga_internal_reset_detected_ w = true /\
  fpga_internal_reset_detected_ (fst run) = true /\
  (forall ok, In (OutVerdict ok) (snd run) -> ok = false).
Proof.
  cbv zeta.
  pose proof (internal_reset_is_permanent bare_setup
    (publishGeneralDiagnostics
       (after (verifyState bare_setup WG0X_new (status_at 3 20000000)
                           (status_at 3 0) models_fine)) true)
    [OpPackCommand full_effort false true;
     OpUnpackState (status_at 3 20001000) (status_at 3 20000000) models_fine]
    (status_at 3 0) (status_at 3 0) models_fine eq_refl) as P.
  cbv zeta in P.
  exact (conj eq_refl (conj (proj1 P) (proj1 (proj2 P)))).
Defined.

(** X9.  The duplicate-frame counters stay in order through any run of cycle
    operations short enough not to overflow the [int] streak: the streak is
    never negative and never above [max_consecutive_drops_], which never
    decreases, like the two temperature maxima. *)
Theorem streak_stays_in_order `{Wg0xHeader} (setup : WG0XSetup)
    (ops : list CycleOp) : forall w,
  streak_ok w ->
  consecutive_drops_ w + Z.of_nat (length ops) < 2147483648 ->
  let w' := fst (cycle_run setup w ops) in
  streak_ok w' /\
  max_consecutive_drops_ w <= max_consecutive_drops_ w' /\
  consecutive_drops_ w' <= consecutive_drops_ w + Z.of_nat (length ops) /\
  max_board_temperature_ w <= max_board_temperature_ w' /\
  max_bridge_temperature_ w <= max_bridge_temperature_ w'.
Proof.
  induction ops as [|op ops IH]; intros w Hs Hb; cbn [cycle_run].
  - cbn. unfold streak_ok in *. lia.
  - cbn [length] in Hb.
    destruct (step_streak setup w op Hs ltac:(lia)) as (S1 & S2 & S3 & S4 & S5).
    destruct (cycle_step setup w op) as [w1 out]. cbn [fst] in *.
    destruct (IH w1 S1 ltac:(lia)) as (R1 & R2 & R3 & R4 & R5).
    destruct (cycle_run setup w1 ops) as [w2 outs]. cbn [fst length] in *.
    repeat split; try apply R1; lia.
Qed.

Lemma streak_stays_in_order_witness :
  let w' := fst (cycle_run bare_setup WG0X_new
                   [OpVerifyState (status_at 3 0) (status_at 3 0) models_fine;
                    OpVerifyState (status_at 3 0) (status_at 3 0) models_fine;
                    OpVerifyState (status_at 3 1000) (status_at 3 0) models_fine]) in
  streak_ok w' /\ 0 <= max_consecutive_drops_ w'.
Proof.
  cbv zeta.
  pose proof (streak_stays_in_order bare_setup
    [OpVerifyState (status_at 3 0) (status_at 3 0) models_fine;
     OpVerifyState (status_at 3 0) (status_at 3 0) models_fine;
     OpVerifyState (status_at 3 1000) (status_at 3 0) models_fine]
    WG0X_new ltac:(unfold streak_ok; simpl; lia) ltac:(simpl; lia)) as P.
  cbv zeta in P.
  exact (conj (proj1 P) (proj1 (proj2 P))).
Defined.

Lemma verifyState_while_resetting `{Wg0xHeader} (setup : WG0XSetup)
    (w : WG0XCycle) (this_status prev_status : WG0XStatus) (ans : ModelAnswers) :
  resetting_ w = true ->
  nonzero (Z.land (mode_ this_status) MODE_SAFETY_LOCKOUT) = true ->
  (10 <? count_consecutive_drops w this_status) = false ->
  fpga_internal_reset_detected_ w = false ->
  motor_heating_model_ setup && negb (disable_halt_ setup) &&
    hasOverheated ans = false ->
  is_enabled_ w && motor_model_ setup &&
    negb (disable_motor_model_checking_ setup) && negb (verify ans) = false ->
  let r := verifyState setup w this_status prev_status ans in
  rv r = true /\
  has_error_ (after r) = has_error_ w /\
  in_lockout_ (after r) = true /\
  ~ In (MotorFlagPublish SafetyLockout 2 100) (calls r).
Proof.
  intros Hreset Hbit Hten Hfpga Hheat Hmodel.
  unfold verifyState. cbv zeta.
  rewrite Hreset, Hten, Hbit, Hfpga, Hheat. cbn [negb andb].
  assert (Hno : forall calls2,
             (calls2 = [] \/ calls2 = [MotorVerify]) ->
             ~ In (MotorFlagPublish SafetyLockout 2 100)
                  (((if motor_model_ setup
                     then [MotorSample; MotorCheckPublish] else []) ++
                    (if motor_heating_model_ setup then [HeatingUpdate] else []))
                   ++ calls2 ++
                   (if motor_model_ setup && (false || publish_motor_trace_ w)
                    then [MotorFlagPublish ManuallyTriggered 0 100] else []))).
  { intros calls2 Hc Hin.
    repeat (apply in_app_or in Hin; destruct Hin as [Hin | Hin]).
    - destruct (motor_model_ setup); cbn in Hin; intuition discriminate.
    - destruct (motor_heating_model_ setup); cbn in Hin; intuition discriminate.
    - destruct Hc as [-> | ->]; cbn in Hin; intuition discriminate.
    - destruct (motor_model_ setup && _); cbn in Hin; intuition discriminate. }
  destruct (is_enabled_ w && motor_model_ setup &&
            negb (disable_motor_model_checking_ setup)) eqn:Hchecked.
  - cbn [andb] in Hmodel. apply negb_false_iff in Hmodel. rewrite Hmodel.
    cbn [negb rv after calls has_error_ in_lockout_ orb].
    repeat split; try reflexivity. apply Hno. right. reflexivity.
  - cbn [negb rv after calls has_error_ in_lockout_ orb].
    repeat split; try reflexivity. apply Hno. left. reflexivity.
Qed.

(** X10.  The cycle that packs a reset does not latch on a frame that still shows
    the safety lockout: with [resetting_] set the lockout check lets the
    frame through, [in_lockout_] is recorded all the same, and no trace is
    requested from the motor model for it. *)
Theorem reset_cycle_tolerates_lockout `{Wg0xHeader} (setup : WG0XSetup)
    (w : WG0XCycle) (cmd : ActuatorCommand) (halt : bool)
    (this_status prev_status : WG0XStatus) (ans : ModelAnswers) :
  Z.land (mode_ this_status) MODE_SAFETY_LOCKOUT <> 0 ->
  count_consecutive_drops w this_status <= 10 ->
  fpga_internal_reset_detected_ w = false ->
  motor_heating_model_ setup && negb (disable_halt_ setup) &&
    hasOverheated ans = false ->
  is_enabled_ w && motor_model_ setup &&
    negb (disable_motor_model_checking_ setup) && negb (verify ans) = false ->
  let w1 := fst (fst (packCommand setup w cmd halt true)) in
  let r := verifyState setup w1 this_status prev_status ans in
  rv r = true /\
  has_error_ (after r) = false /\
  in_lockout_ (after r) = true /\
  ~ In (MotorFlagPublish SafetyLockout 2 100) (calls r).
Proof.
  intros Hbit Hstreak Hfpga Hheat Hmodel. apply nonzero_true in Hbit.
  assert (Hten : (10 <? count_consecutive_drops w this_status) = false)
    by (apply Z.ltb_ge; exact Hstreak).
  cbv zeta.
  set (w1 := fst (fst (packCommand setup w cmd halt true))).
  assert (Hw1 : resetting_ w1 = true /\ has_error_ w1 = false /\
                fpga_internal_reset_detected_ w1 = fpga_internal_reset_detected_ w /\
                is_enabled_ w1 = is_enabled_ w /\
                count_consecutive_drops w1 this_status
                = count_consecutive_drops w this_status)
    by (subst w1; unfold packCommand; cbn; repeat split; reflexivity).
  destruct Hw1 as (W1 & W2 & W3 & W4 & W5).
  destruct (verifyState_while_resetting setup w1 this_status prev_status ans W1
              Hbit ltac:(rewrite W5; exact Hten) ltac:(rewrite W3; exact Hfpga)
              Hheat ltac:(rewrite W4; exact Hmodel))
    as (R1 & R2 & R3 & R4).
  rewrite W2 in R2. auto.
Qed.

Lemma reset_cycle_tolerates_lockout_witness :
  let failed := after (verifyState full_setup WG0X_new (status_at 32 1000)
                                   (status_at 3 0) models_fine) in
  let w1 := fst (fst (packCommand full_setup failed full_effort false true)) in
  let r := verifyState full_setup w1 (status_at 32 2000) (status_at 32 1000)
                       models_fine in
  has_error_ failed = true /\
  rv r = true /\ has_error_ (after r) = false /\ in_lockout_ (after r) = true.
Proof.
  cbv zeta.
  pose proof (reset_cycle_tolerates_lockout (H:=sample_header) full_setup
    (after (verifyState full_setup WG0X_new (status_at 32 1000)
                        (status_at 3 0) models_fine))
    full_effort false (status_at 32 2000) (status_at 32 1000) models_fine
    ltac:(vm_compute; discriminate) ltac:(vm_compute; discriminate)
    eq_refl eq_refl eq_refl) as P.
  cbv zeta in P. destruct P as (P1 & P2 & P3 & _).
  exact (conj eq_refl (conj P1 (conj P2 P3))).
Defined.

(** ** Diagnostics aggregator, continued *)

Lemma update_one_counter count total dg new_status new_info :
  In (count, total) tracked_counters ->
  total (WG0XDiagnostics_update dg new_status new_info)
    = to_u32 (total dg +
              (count new_status new_info
               - count (safety_disable_status_snap dg) (diagnostics_info_ dg))
              mod 256) /\
  count (safety_disable_status_snap
           (WG0XDiagnostics_update dg new_status new_info))
        (diagnostics_info_ (WG0XDiagnostics_update dg new_status new_info))
    = count new_status new_info.
Proof.
  intros Hin. cbn in Hin.
  repeat (destruct Hin as [[= <- <-] | Hin];
          [cbn -[counter_delta add_total]; unfold add_total;
           rewrite counter_delta_mod; split; reflexivity|]).
  destruct Hin.
Qed.

(** X11.  Over a series of polls a lifetime total follows the device: if each
    8 bit counter read is the true count of the device modulo 256, and the
    true count goes up by less than 256 between polls, then the total has
    grown by exactly the true increase (modulo 2^32), roll-overs of the
    8 bit counter included. *)
Theorem lifetime_total_follows_device count total
    (reads : list (WG0XSafetyDisableStatus * WG0XDiagnosticsInfo)) :
  In (count, total) tracked_counters ->
  forall (dg : WG0XDiagnostics) (truth : nat -> Z),
  0 <= total dg < 4294967296 ->
  count (safety_disable_status_snap dg) (diagnostics_info_ dg)
    = truth 0%nat mod 256 ->
  (forall k new_status new_info,
      nth_error reads k = Some (new_status, new_info) ->
      count new_status new_info = truth (S k) mod 256 /\
      0 <= truth (S k) - truth k < 256) ->
  total (update_run dg reads)
    = to_u32 (total dg + (truth (length reads) - truth 0%nat)).
Proof.
  intros Hin. induction reads as [|[new_status new_info] reads IH];
    intros dg truth Htot Hsnap Hreads; cbn [update_run length].
  - unfold to_u32. lia.
  - destruct (update_one_counter count total dg new_status new_info Hin)
      as [Ht Hc].
    destruct (Hreads 0%nat new_status new_info eq_refl) as [H0 Hstep].
    rewrite (IH (WG0XDiagnostics_update dg new_status new_info)
                (fun k => truth (S k))).
    + rewrite Ht, Hsnap, H0. unfold to_u32.
      generalize dependent (truth (S (length reads))).
      generalize dependent (truth 1%nat). generalize dependent (truth 0%nat).
      intros. lia.
    + rewrite Ht. unfold to_u32. lia.
    + rewrite Hc. exact H0.
    + intros k s' i' Hk. apply (Hreads (S k) s' i'). exact Hk.
Qed.

Lemma lifetime_total_follows_device_witness :
  safety_disable_total_
    (update_run WG0XDiagnostics_new
       [(status_counting 250, diagnostics_info_ WG0XDiagnostics_new);
        (status_counting 3, diagnostics_info_ WG0XDiagnostics_new)])
  = 259.
Proof.
  refine (lifetime_total_follows_device
            (fun st _ => safety_disable_count_ st) safety_disable_total_
            [(status_counting 250, diagnostics_info_ WG0XDiagnostics_new);
             (status_counting 3, diagnostics_info_ WG0XDiagnostics_new)]
            (or_introl eq_refl) WG0XDiagnostics_new
            (fun k => match k with 0%nat => 0 | 1%nat => 250 | _ => 259 end)
            _ eq_refl _).
  - simpl. lia.
  - intros [|[|k]] new_status new_info Hk; simpl in Hk.
    + injection Hk as <- <-. simpl. lia.
    + injection Hk as <- <-. simpl. lia.
    + destruct k; discriminate Hk.
Defined.

(** ** Mailbox engine, continued *)

Section MailboxResults.
Context `{Wg0xHeader}.

Lemma readMailbox__result address data length w rc data' w' :
  readMailbox_ address data length w = Some ((rc, data'), w') ->
  (rc = 0 \/ rc = -1) /\
  (rc <> 0 -> data' = data) /\
  (rc = 0 -> ec_state_ok w = true ->
   exists stat,
     computeChecksum stat (length + 1) = 0 /\
     data' = write_bytes data 0 (firstn (Z.to_nat length) stat)).
Proof.
  unfold readMailbox_, bind, ret, undefined, verifyDeviceStateForMailboxOperation.
  intros E. step_through E; injection E as <- <- _;
    (split; [auto|]); (split; [intros; try reflexivity; lia|]);
    intros Hrc Hok; try discriminate Hrc;
    try (exfalso; destruct (ec_state_ok w); discriminate).
  match goal with
  | Hc : negb (computeChecksum ?stat _ =? 0) = false |- _ =>
      exists stat; split; [|reflexivity];
      apply negb_false_iff, Z.eqb_eq in Hc; exact Hc
  end.
Qed.

Lemma readMailbox_result address data length w rc data' w' :
  readMailbox address data length w = Some ((rc, data'), w') ->
  (rc = 0 \/ rc = -1) /\ (rc <> 0 -> data' = data).
Proof.
  unfold readMailbox, bind, ret. intros E.
  destruct (lockMailbox w) as [[locked w1]|]; [|discriminate E].
  destruct (negb locked).
  - injection E as <- <- _. split; [auto | reflexivity].
  - destruct (readMailbox_ address data length w1) as [[[rc1 d1] w2]|] eqn:E1;
      [|discriminate E].
    destruct (readMailbox__result _ _ _ _ _ _ _ E1) as (R1 & R2 & _).
    step_through E. injection E as <- <- _. split; assumption.
Qed.
End MailboxResults.


Section SendFrame.
Variable frame : list Telegram.


(** After [k] lost frames the frame comes back. *)
Lemma send_frame_after_drops k : forall budget w a b rx rest,
  (k < budget)%nat ->
  txrx w = repeat TxDropped k ++ TxReplied a b rx :: rest ->
  exists w',
    send_frame budget frame w = Some ((Some (a, b, rx), Z.of_nat k), w').
Proof.
  induction k as [|k IH]; intros budget w a b rx rest Hk Htx;
    (destruct budget as [|budget]; [lia|]); cbn [send_frame];
    unfold bind, txandrx_once; rewrite Htx; cbn [repeat app hd tl].
  - eexists. reflexivity.
  - match goal with
    | |- context [send_frame budget frame ?w1] =>
        destruct (IH budget w1 a b rx rest ltac:(lia) eq_refl) as (w' & E)
    end.
    rewrite E. eexists. unfold ret. repeat f_equal. lia.
Qed.

(** Every frame is lost. *)
Lemma send_frame_all_dropped budget : forall w,
  (forall a, In a (firstn budget (txrx w)) -> a = TxDropped) ->
  exists w', send_frame budget frame w = Some ((None, Z.of_nat budget), w').
Proof.
  induction budget as [|budget IH]; intros w Hall; cbn [send_frame].
  - eexists. reflexivity.
  - unfold bind, txandrx_once.
    assert (Hhd : hd TxDropped (txrx w) = TxDropped).
    { destruct (txrx w) as [|a l]; [reflexivity|].
      apply Hall. left. reflexivity. }
    rewrite Hhd.
    match goal with
    | |- context [send_frame budget frame ?w1] =>
        destruct (IH w1) as (w' & E)
    end.
    { intros a Ha. apply Hall. cbn [txrx] in Ha.
      destruct (txrx w) as [|a0 l]; [destruct budget; destruct Ha|].
      right. exact Ha. }
    rewrite E. eexists. unfold ret. repeat f_equal. lia.
Qed.
End SendFrame.

(** X12.  A mailbox write that the device refuses (working counter 0) fails when
    the refusal answers the first frame sent; after one to nine lost frames
    the same refusal is taken for success, on the grounds that the lost
    frame may have been the one that was accepted.  Ten lost frames fail. *)
Theorem refused_write_passes_after_a_drop `{Wg0xHeader}
    (data : list byte) (length : Z) (w : World) (rx : list byte)
    (rest : list TxAnswer) :
  ec_state_ok w = true ->
  length <= MBX_COMMAND_SIZE ->
  Z.of_nat (List.length data) >= MBX_COMMAND_SIZE ->
  (txrx w = TxReplied 0 0 rx :: rest ->
   option_map fst (writeMailboxInternal data length w) = Some false) /\
  (forall k, (1 <= k <= 9)%nat ->
   txrx w = repeat TxDropped k ++ TxReplied 0 0 rx :: rest ->
   option_map fst (writeMailboxInternal data length w) = Some true) /\
  (txrx w = repeat TxDropped 10 ++ rest ->
   option_map fst (writeMailboxInternal data length w) = Some false).
Proof.
  intros Hok Hlen Hdata.
  assert (Hl : (MBX_COMMAND_SIZE <? length) = false) by (apply Z.ltb_ge; lia).
  assert (Hd : (Z.of_nat (List.length data)
                <? (if length + 50 <? MBX_COMMAND_SIZE
                    then length else MBX_COMMAND_SIZE)) = false).
  { apply Z.ltb_ge. destruct (length + 50 <? MBX_COMMAND_SIZE); lia. }
  unfold writeMailboxInternal, verifyDeviceStateForMailboxOperation, bind.
  rewrite Hl. cbv beta iota zeta. rewrite Hok. cbn [negb]. cbv beta iota.
  rewrite Hd. cbv beta iota.
  split; [|split].
  - intros Htx.
    match goal with
    | |- context [send_frame 10 ?f] =>
        destruct (send_frame_after_drops f 0 10 w 0 0 rx rest ltac:(lia) Htx)
          as (w' & E)
    end.
    rewrite E. cbn. rewrite andb_false_r. reflexivity.
  - intros k Hk Htx.
    match goal with
    | |- context [send_frame 10 ?f] =>
        destruct (send_frame_after_drops f k 10 w 0 0 rx rest ltac:(lia) Htx)
          as (w' & E)
    end.
    rewrite E. cbn [Z.eqb negb]. rewrite andb_false_r.
    cbn [Z.ltb Z.compare].
    destruct (Z.of_nat k + 1 <=? 1) eqn:E1; [lia | reflexivity].
  - intros Htx.
    match goal with
    | |- context [send_frame 10 ?f] =>
        destruct (send_frame_all_dropped f 10 w) as (w' & E)
    end.
    { rewrite Htx. intros a Ha. cbn in Ha.
      repeat (destruct Ha as [<- | Ha]; [reflexivity|]). destruct Ha. }
    rewrite E. reflexivity.
Qed.

Lemma refused_write_passes_after_a_drop_witness :
  option_map fst
    (writeMailboxInternal (repeat 7 512) 9
       (scripted [] [TxReplied 0 0 []] [] [] [] [])) = Some false /\
  option_map fst
    (writeMailboxInternal (repeat 7 512) 9
       (scripted [] (repeat TxDropped 2 ++ [TxReplied 0 0 []]) [] [] [] []))
    = Some true.
Proof.
  split.
  - exact (proj1 (refused_write_passes_after_a_drop (H:=sample_header)
                    (repeat 7 512) 9
                    (scripted [] [TxReplied 0 0 []] [] [] [] []) [] []
                    eq_refl ltac:(cbn; lia) ltac:(cbn; lia)) eq_refl).
  - exact (proj1 (proj2 (refused_write_passes_after_a_drop (H:=sample_header)
                    (repeat 7 512) 9
                    (scripted [] (repeat TxDropped 2 ++ [TxReplied 0 0 []])
                              [] [] [] []) [] []
                    eq_refl ltac:(cbn; lia) ltac:(cbn; lia))) 2%nat
                  ltac:(lia) eq_refl).
Defined.









(** ** What the mailbox engine leaves alone *)

Lemma keeps_ret {A : Type} (a : A) : keeps_state (ret a).
Proof.
  intros w a' w' [= <- <-]. split; [reflexivity|]. split; [reflexivity|].
  exists 0%nat. reflexivity.
Qed.

Lemma keeps_undefined {A : Type} : keeps_state (@undefined A).
Proof. intros w a w' E. discriminate E. Qed.

Lemma keeps_bind {A B : Type} (m : M A) (k : A -> M B) :
  keeps_state m -> (forall a, keeps_state (k a)) -> keeps_state (bind m k).
Proof.
  intros Hm Hk w b w'. unfold bind.
  destruct (m w) as [[a w1]|] eqn:E; [|discriminate].
  intros E2. destruct (Hm _ _ _ E) as (He & Hl & n & Hn).
  destruct (Hk a _ _ _ E2) as (He2 & Hl2 & n2 & Hn2).
  split; [rewrite He2; exact He|]. split; [rewrite Hl2; exact Hl|].
  exists (n + n2)%nat. rewrite Hn2, Hn, skipn_skipn. f_equal. lia.
Qed.

(** A step that does not touch the state, the working counter or the
    answers of the transport. *)
Lemma keeps_still {A : Type} (m : M A) :
  (forall w a w', m w = Some (a, w') ->
     ec_state_ok w' = ec_state_ok w /\ logic_wkc w' = logic_wkc w /\
     txrx w' = txrx w) ->
  keeps_state m.
Proof.
  intros Hm w a w' E. destruct (Hm _ _ _ E) as (He & Hl & Hx).
  split; [exact He|]. split; [exact Hl|]. exists 0%nat. exact Hx.
Qed.

Lemma keeps_uninitialised n : keeps_state (uninitialised n).
Proof. apply keeps_still. intros w a w' [= <- <-]. auto. Qed.
Lemma keeps_get_wkc : keeps_state get_wkc.
Proof. apply keeps_still. intros w a w' [= <- <-]. auto. Qed.
Lemma keeps_get_mbx_counter : keeps_state get_mbx_counter.
Proof. apply keeps_still. intros w a w' [= <- <-]. auto. Qed.
Lemma keeps_safe_clock_gettime : keeps_state safe_clock_gettime.
Proof. apply keeps_still. intros w a w' [= <- <-]. auto. Qed.
Lemma keeps_readSyncManStatus : keeps_state readSyncManStatus.
Proof. apply keeps_still. intros w a w' [= <- <-]. auto. Qed.
Lemma keeps_SyncMan_readData : keeps_state SyncMan_readData.
Proof. apply keeps_still. intros w a w' [= <- <-]. auto. Qed.
Lemma keeps_SyncManActivate_writeData b :
  keeps_state (SyncManActivate_writeData b).
Proof. apply keeps_still. intros w a w' [= <- <-]. auto. Qed.
Lemma keeps_log_repeat_request : keeps_state log_repeat_request.
Proof. apply keeps_still. intros w a w' [= <- <-]. auto. Qed.
Lemma keeps_pthread_mutex : keeps_state pthread_mutex.
Proof. apply keeps_still. intros w a w' [= <- <-]. auto. Qed.
Lemma keeps_update_mailbox_diagnostics f :
  keeps_state (update_mailbox_diagnostics f).
Proof. apply keeps_still. intros w a w' [= <- <-]. auto. Qed.
Lemma keeps_verifyDeviceState : keeps_state verifyDeviceStateForMailboxOperation.
Proof. apply keeps_still. intros w a w' [= <- <-]. auto. Qed.

Lemma keeps_txandrx_once frame : keeps_state (txandrx_once frame).
Proof.
  intros w a w' [= <- <-]. split; [reflexivity|]. split; [reflexivity|].
  exists 1%nat. cbn [txrx]. destruct (txrx w); reflexivity.
Qed.

Create HintDb keeps discriminated.
#[local] Hint Resolve keeps_ret keeps_undefined keeps_uninitialised keeps_get_wkc
  keeps_get_mbx_counter keeps_txandrx_once keeps_safe_clock_gettime
  keeps_readSyncManStatus keeps_SyncMan_readData
  keeps_SyncManActivate_writeData keeps_log_repeat_request keeps_pthread_mutex
  keeps_update_mailbox_diagnostics keeps_verifyDeviceState : keeps.

Ltac keeps_step :=
  match goal with
  | |- keeps_state (bind _ _) => apply keeps_bind; [|intros ?]
  | |- keeps_state (if ?c then _ else _) => destruct c
  | |- keeps_state (match ?x with _ => _ end) => destruct x
  | |- keeps_state (let _ := _ in _) => cbv zeta
  | |- keeps_state _ => solve [auto with keeps]
  end.

Lemma keeps_send_frame budget frame : keeps_state (send_frame budget frame).
Proof.
  induction budget as [|budget IH]; cbn [send_frame]; repeat keeps_step.
Qed.
#[local] Hint Resolve keeps_send_frame : keeps.

Lemma keeps_wait_mailbox_loop fuel want_full start :
  keeps_state (wait_mailbox_loop fuel want_full start).
Proof.
  induction fuel as [|fuel IH]; cbn [wait_mailbox_loop]; repeat keeps_step.
Qed.

Lemma keeps_wait_mailbox want_full : keeps_state (wait_mailbox want_full).
Proof.
  unfold wait_mailbox. repeat keeps_step.
  intros w o w'. apply keeps_wait_mailbox_loop.
Qed.
#[local] Hint Resolve keeps_wait_mailbox : keeps.

Lemma keeps_repeat_ack_loop fuel orig_repeat_request start_time :
  keeps_state (repeat_ack_loop fuel orig_repeat_request start_time).
Proof.
  induction fuel as [|fuel IH]; cbn [repeat_ack_loop]; repeat keeps_step.
Qed.

Lemma keeps__readMailboxRepeatRequest : keeps_state _readMailboxRepeatRequest.
Proof.
  unfold _readMailboxRepeatRequest. repeat keeps_step.
  intros w o w'. apply keeps_repeat_ack_loop.
Qed.
#[local] Hint Resolve keeps__readMailboxRepeatRequest : keeps.

Lemma keeps_readMailboxRepeatRequest : keeps_state readMailboxRepeatRequest.
Proof. unfold readMailboxRepeatRequest. repeat keeps_step. Qed.
#[local] Hint Resolve keeps_readMailboxRepeatRequest : keeps.

Lemma keeps_read_loop left split_read read_length frame : forall data,
  keeps_state (read_loop left split_read read_length frame data).
Proof.
  induction left as [|left IH]; intros data; cbn [read_loop]; repeat keeps_step.
Qed.
#[local] Hint Resolve keeps_read_loop : keeps.

Section KeepsState.
Context `{Wg0xHeader}.

Lemma keeps_clearReadMailbox : keeps_state clearReadMailbox.
Proof. unfold clearReadMailbox. repeat keeps_step. Qed.

Lemma keeps_writeMailboxInternal data length :
  keeps_state (writeMailboxInternal data length).
Proof. unfold writeMailboxInternal. repeat keeps_step. Qed.

Lemma keeps_readMailboxInternal data length :
  keeps_state (readMailboxInternal data length).
Proof. unfold readMailboxInternal. repeat keeps_step. Qed.

#[local] Hint Resolve keeps_clearReadMailbox keeps_writeMailboxInternal
  keeps_readMailboxInternal : keeps.

Lemma keeps_lockMailbox : keeps_state lockMailbox.
Proof. unfold lockMailbox. repeat keeps_step. Qed.

Lemma keeps_readMailbox address data length :
  keeps_state (readMailbox address data length).
Proof.
  unfold readMailbox, lockMailbox, unlockMailbox, readMailbox_,
    waitForReadMailboxReady, local_WG0XMbxCmd.
  repeat keeps_step.
Qed.

Lemma keeps_writeMailbox address data length :
  keeps_state (writeMailbox address data length).
Proof.
  unfold writeMailbox, lockMailbox, unlockMailbox, writeMailbox_,
    writeMailbox_traced, local_WG0XMbxCmd.
  repeat keeps_step.
Qed.

#[local] Hint Resolve keeps_readMailbox keeps_writeMailbox : keeps.

Lemma keeps_readSpiEepromCmd cmd : keeps_state (readSpiEepromCmd cmd).
Proof. unfold readSpiEepromCmd. repeat keeps_step. Qed.

#[local] Hint Resolve keeps_readSpiEepromCmd : keeps.

Lemma keeps_spi_idle_loop turns : forall cmd,
  keeps_state (spi_idle_loop turns cmd).
Proof.
  induction turns as [|turns IH]; intros cmd; cbn [spi_idle_loop];
    repeat keeps_step.
Qed.

Lemma keeps_spi_readback_loop turns operation : forall stat,
  keeps_state (spi_readback_loop turns operation stat).
Proof.
  induction turns as [|turns IH]; intros stat; cbn [spi_readback_loop];
    repeat keeps_step.
Qed.

#[local] Hint Resolve keeps_spi_idle_loop keeps_spi_readback_loop : keeps.

Lemma keeps_waitForSpiEepromReady : keeps_state waitForSpiEepromReady.
Proof. unfold waitForSpiEepromReady. repeat keeps_step. Qed.

Lemma keeps_sendSpiEepromCmd cmd : keeps_state (sendSpiEepromCmd cmd).
Proof. unfold sendSpiEepromCmd, waitForSpiEepromReady. repeat keeps_step. Qed.

End KeepsState.

(** An answer among those left is among those there were. *)
Lemma in_skipn_in {A : Type} (x : A) (n : nat) (l : list A) :
  In x (skipn n l) -> In x l.
Proof.
  intros Hin. rewrite <- (firstn_skipn n l). apply in_or_app. right. exact Hin.
Qed.


(** ** What a successful mailbox read holds *)

Lemma send_frame_reply frame budget : forall w r d w',
  send_frame budget frame w = Some ((r, d), w') ->
  logic_wkc w' = logic_wkc w /\
  (exists n, txrx w' = skipn n (txrx w)) /\
  (forall a b rx, r = Some (a, b, rx) -> In (TxReplied a b rx) (txrx w)).
Proof.
  induction budget as [|budget IH]; intros w r d w'; cbn [send_frame].
  - unfold ret. intros [= <- <- <-]. split; [reflexivity|].
    split; [exists 0%nat; reflexivity | intros a b rx E; discriminate E].
  - unfold bind, txandrx_once.
    destruct (txrx w) as [|ans rest] eqn:Htx; cbn [hd tl].
    + destruct (send_frame budget frame _) as [[[r1 d1] w1]|] eqn:E1;
        [|discriminate].
      unfold ret. intros [= <- <- <-].
      apply IH in E1. cbn [logic_wkc txrx] in E1.
      destruct E1 as (Hl & (n & Hn) & Hin).
      split; [exact Hl|]. split.
      * exists n. rewrite Hn. destruct n; reflexivity.
      * intros a b rx Er. destruct (Hin a b rx Er).
    + destruct ans as [|ws we rx0].
      * destruct (send_frame budget frame _) as [[[r1 d1] w1]|] eqn:E1;
          [|discriminate].
        unfold ret. intros [= <- <- <-].
        apply IH in E1. cbn [logic_wkc txrx] in E1.
        destruct E1 as (Hl & (n & Hn) & Hin).
        split; [exact Hl|]. split.
        -- exists (S n). exact Hn.
        -- intros a b rx Er. right. exact (Hin a b rx Er).
      * unfold ret. intros [= <- <- <-]. cbn [logic_wkc txrx].
        split; [reflexivity|]. split.
        -- exists 1%nat. reflexivity.
        -- intros a b rx [= <- <- <-]. left. reflexivity.
Qed.

Lemma read_loop_success split_read read_length frame left : forall data w d' w',
  logic_wkc w <> 1 ->
  read_loop left split_read read_length frame data w = Some ((true, d'), w') ->
  exists wkc_end rx d0,
    In (TxReplied 1 wkc_end rx) (txrx w) /\
    (split_read = true -> wkc_end = 1) /\
    d' = write_bytes d0 0 (firstn (Z.to_nat read_length) rx).
Proof.
  induction left as [|left IH]; intros data w d' w' Hidle; cbn [read_loop].
  - unfold ret. intros E. discriminate E.
  - unfold bind at 1.
    destruct (send_frame 10 frame w) as [[[r d] w1]|] eqn:E1; [|discriminate].
    destruct (send_frame_reply _ _ _ _ _ _ E1) as (Hl & (n & Hn) & Hin).
    unfold bind at 1, get_wkc at 1.
    destruct r as [[[ws we] rx]|].
    + specialize (Hin ws we rx eq_refl).
      destruct (split_read && negb (ws =? we)) eqn:Hsplit;
        [unfold ret; intros E; discriminate E|].
      destruct (ws =? 0) eqn:H0.
      * destruct (d =? 0); [unfold ret; intros E; discriminate E|].
        unfold bind at 1.
        destruct (readMailboxRepeatRequest w1) as [[ok w2]|] eqn:E2;
          [|discriminate].
        assert (Hsame : logic_wkc w2 = logic_wkc w1 /\ txrx w2 = txrx w1).
        { destruct (readMailboxRepeatRequest_spec w1)
            as (ok' & w2' & E2' & (Hx & Hl' & _) & _).
          rewrite E2 in E2'. injection E2' as <- <-. auto. }
        destruct Hsame as [Hl2 Hx2].
        destruct ok; cbn [negb]; [|unfold ret; intros E; discriminate E].
        intros E. apply IH in E; [|rewrite Hl2, Hl; exact Hidle].
        destruct E as (we' & rx' & d0 & Hin' & Hs' & Hd').
        exists we', rx', d0. split; [|split; assumption].
        rewrite Hx2, Hn in Hin'. exact (in_skipn_in _ _ _ Hin').
      * destruct (ws =? 1) eqn:H1; [|unfold ret; intros E; discriminate E].
        unfold ret. intros [= <- <-]. apply Z.eqb_eq in H1. subst ws.
        exists we, rx, data. split; [exact Hin|]. split; [|reflexivity].
        intros ->. cbn [andb] in Hsplit.
        apply negb_false_iff, Z.eqb_eq in Hsplit. symmetry. exact Hsplit.
    + destruct (split_read && negb (logic_wkc w1 =? logic_wkc w1));
        [unfold ret; intros E; discriminate E|].
      destruct (logic_wkc w1 =? 0) eqn:H0.
      * destruct (d =? 0); [unfold ret; intros E; discriminate E|].
        unfold bind at 1.
        destruct (readMailboxRepeatRequest w1) as [[ok w2]|] eqn:E2;
          [|discriminate].
        assert (Hsame : logic_wkc w2 = logic_wkc w1 /\ txrx w2 = txrx w1).
        { destruct (readMailboxRepeatRequest_spec w1)
            as (ok' & w2' & E2' & (Hx & Hl' & _) & _).
          rewrite E2 in E2'. injection E2' as <- <-. auto. }
        destruct Hsame as [Hl2 Hx2].
        destruct ok; cbn [negb]; [|unfold ret; intros E; discriminate E].
        intros E. apply IH in E; [|rewrite Hl2, Hl; exact Hidle].
        destruct E as (we' & rx' & d0 & Hin' & Hs' & Hd').
        exists we', rx', d0. split; [|split; assumption].
        rewrite Hx2, Hn in Hin'. exact (in_skipn_in _ _ _ Hin').
      * destruct (logic_wkc w1 =? 1) eqn:H1;
          [|unfold ret; intros E; discriminate E].
        apply Z.eqb_eq in H1. rewrite Hl in H1. contradiction.
Qed.

(** X29.  A [readMailboxInternal] that returns true has had its frame answered
    with working counter 1 (by both telegrams, where the read is split), and
    the buffer starts with the bytes of that answer.  This needs the
    working counter that [updateIndexAndWkc] puts back after a lost frame
    to differ from 1: with it equal to 1, ten lost frames in a row count as
    a read. *)
Theorem read_success_carries_reply `{Wg0xHeader} (data : list byte)
    (length : Z) (w : World) (data' : list byte) (w' : World) :
  logic_wkc w <> 1 ->
  readMailboxInternal data length w = Some ((true, data'), w') ->
  let read_length :=
    if length + 50 <? MBX_STATUS_SIZE then length else MBX_STATUS_SIZE in
  length <= MBX_STATUS_SIZE /\
  ec_state_ok w = true /\
  exists wkc_end rx,
    In (TxReplied 1 wkc_end rx) (txrx w) /\
    (length + 50 < MBX_STATUS_SIZE -> wkc_end = 1) /\
    ((Z.to_nat read_length <= List.length rx)%nat ->
     firstn (Z.to_nat read_length) data' = firstn (Z.to_nat read_length) rx).
Proof.
  intros Hidle E read_length. unfold readMailboxInternal in E.
  destruct (MBX_STATUS_SIZE <? length) eqn:Hlen; [discriminate E|].
  apply Z.ltb_ge in Hlen. split; [exact Hlen|].
  unfold bind, verifyDeviceStateForMailboxOperation in E.
  destruct (ec_state_ok w) eqn:Hok; cbn [negb] in E; [|discriminate E].
  split; [reflexivity|].
  apply read_loop_success in E; [|exact Hidle].
  destruct E as (we & rx & d0 & Hin & Hs & Hd).
  exists we, rx. split; [exact Hin|]. split.
  - intros Hsplit. apply Hs. apply Z.ltb_lt. exact Hsplit.
  - intros Hrx. rewrite Hd. unfold write_bytes. cbn [firstn app].
    rewrite firstn_app, firstn_firstn, Nat.min_id.
    rewrite length_firstn, Nat.min_l by exact Hrx.
    rewrite Nat.sub_diag. cbn [firstn]. apply app_nil_r.
Qed.

Lemma read_success_carries_reply_witness :
  exists data' w',
    readMailboxInternal (repeat 0 512) 4
      (scripted [] [TxDropped; TxReplied 1 1 (posted [7; 8; 9])] [] [] [] [])
    = Some ((true, data'), w') /\
    firstn 4 data' = firstn 4 (posted [7; 8; 9]).
Proof.
  destruct (readMailboxInternal (repeat 0 512) 4
      (scripted [] [TxDropped; TxReplied 1 1 (posted [7; 8; 9])] [] [] [] []))
    as [[[b data'] w']|] eqn:E; [|vm_compute in E; discriminate E].
  assert (Hb : b = true) by (vm_compute in E; injection E as <- _ _; reflexivity).
  subst b. exists data', w'. split; [reflexivity|].
  assert (Hidle : logic_wkc (scripted [] [TxDropped;
                                          TxReplied 1 1 (posted [7; 8; 9])]
                                      [] [] [] []) <> 1)
    by (cbn; lia).
  destruct (read_success_carries_reply (H:=sample_header) _ _ _ _ _ Hidle E)
    as (_ & _ & we & rx & Hin & _ & Hd).
  destruct Hin as [Hin | [Hin | []]]; [discriminate Hin|].
  injection Hin as <- <-. apply Hd. cbn. lia.
Defined.

Lemma lockMailbox_spec (w : World) :
  exists w1,
    lockMailbox w = Some (hd false (mutex w), w1) /\
    ec_state_ok w1 = ec_state_ok w /\
    trace w1 = trace w /\
    txrx w1 = txrx w /\
    mutex w1 = tl (mutex w) /\
    mailbox_diagnostics_ w1
      = (if hd false (mutex w) then mailbox_diagnostics_ w
         else incr_lock_errors (mailbox_diagnostics_ w)).
Proof.
  unfold lockMailbox, bind, pthread_mutex, update_mailbox_diagnostics, ret.
  destruct (hd false (mutex w)); cbn; eexists; repeat split; reflexivity.
Qed.

Lemma readMailbox_outcome `{Wg0xHeader} (address : Z) (data : list byte)
    (length : Z) (w : World) (rc : Z) (data' : list byte) (w' : World) :
  readMailbox address data length w = Some ((rc, data'), w') ->
  (rc = 0 \/ rc = -1) /\
  (rc <> 0 -> data' = data) /\
  (rc = 0 -> ec_state_ok w = true ->
   exists stat,
     computeChecksum stat (length + 1) = 0 /\
     data' = write_bytes data 0 (firstn (Z.to_nat length) stat)).
Proof.
  intros E. destruct (readMailbox_result _ _ _ _ _ _ _ E) as [R1 R2].
  split; [exact R1|]. split; [exact R2|].
  intros Hrc Hok. unfold readMailbox, bind in E.
  destruct (lockMailbox_spec w) as (w1 & El & Hs & _).
  rewrite El in E.
  destruct (hd false (mutex w)); cbn [negb] in E.
  - destruct (readMailbox_ address data length w1) as [[[rc1 d1] w2]|] eqn:E1;
      [|discriminate E].
    destruct (readMailbox__result _ _ _ _ _ _ _ E1) as (_ & _ & R3).
    assert (rc1 = rc /\ d1 = data') as [-> ->].
    { unfold ret in E. step_through E. injection E as <- <- _. auto. }
    apply R3; [exact Hrc | rewrite Hs; exact Hok].
  - unfold ret in E. injection E as <- _ _. discriminate Hrc.
Qed.


(** ** What a read through the mailbox hands back *)

Lemma firstn_le_eq {A : Type} (a b : nat) (l1 l2 : list A) :
  (a <= b)%nat -> firstn b l1 = firstn b l2 -> firstn a l1 = firstn a l2.
Proof.
  intros Hab E.
  rewrite <- (Nat.min_l a b Hab), <- !firstn_firstn, E. reflexivity.
Qed.

Lemma last_answer_after {A : Type} (m : M A) (w0 : World) (a : A)
    (w w' : World) (wkc_end : Z) (rx : list byte) :
  keeps_state m -> m w0 = Some (a, w) ->
  last_answer w w' wkc_end rx -> last_answer w0 w' wkc_end rx.
Proof.
  intros K E (before & Hb). destruct (K _ _ _ E) as (_ & _ & n & Hn).
  exists (firstn n (txrx w0) ++ before).
  rewrite <- app_assoc, <- Hb, Hn. symmetry. apply firstn_skipn.
Qed.

Lemma last_answer_still (w w1 w' : World) (wkc_end : Z) (rx : list byte) :
  last_answer w w1 wkc_end rx -> txrx w' = txrx w1 ->
  last_answer w w' wkc_end rx.
Proof. intros (before & Hb) E. exists before. rewrite E. exact Hb. Qed.

Lemma send_frame_last frame budget : forall w a b rx d w',
  send_frame budget frame w = Some ((Some (a, b, rx), d), w') ->
  exists before, txrx w = before ++ TxReplied a b rx :: txrx w'.
Proof.
  induction budget as [|budget IH]; intros w a b rx d w'; cbn [send_frame].
  - unfold ret. intros E. discriminate E.
  - unfold bind, txandrx_once.
    destruct (txrx w) as [|ans rest] eqn:Htx; cbn [hd tl].
    + destruct (send_frame budget frame _) as [[[r1 d1] w1]|] eqn:E1;
        [|discriminate].
      unfold ret. intros [= -> <- <-].
      apply IH in E1. cbn [txrx] in E1. destruct E1 as (before & Hb).
      destruct before; discriminate Hb.
    + destruct ans as [|ws we rx0].
      * destruct (send_frame budget frame _) as [[[r1 d1] w1]|] eqn:E1;
          [|discriminate].
        unfold ret. intros [= -> <- <-].
        apply IH in E1. cbn [txrx] in E1. destruct E1 as (before & Hb).
        exists (TxDropped :: before). rewrite Hb. reflexivity.
      * unfold ret. intros [= <- <- <- <- <-]. cbn [txrx].
        exists []. reflexivity.
Qed.

Lemma read_loop_last split_read read_length frame left : forall data w d' w',
  logic_wkc w <> 1 ->
  read_loop left split_read read_length frame data w = Some ((true, d'), w') ->
  exists wkc_end rx d0,
    last_answer w w' wkc_end rx /\
    (split_read = true -> wkc_end = 1) /\
    d' = write_bytes d0 0 (firstn (Z.to_nat read_length) rx).
Proof.
  induction left as [|left IH]; intros data w d' w' Hidle; cbn [read_loop].
  - unfold ret. intros E. discriminate E.
  - unfold bind at 1.
    destruct (send_frame 10 frame w) as [[[r d] w1]|] eqn:E1; [|discriminate].
    destruct (keeps_send_frame _ _ _ _ _ E1) as (_ & Hl & _).
    unfold bind at 1, get_wkc at 1.
    assert (Again : forall dat,
              (ok <- readMailboxRepeatRequest ;;
               if negb ok then ret (false, dat)
               else read_loop left split_read read_length frame dat) w1
              = Some ((true, d'), w') ->
              exists wkc_end rx d0,
                last_answer w w' wkc_end rx /\
                (split_read = true -> wkc_end = 1) /\
                d' = write_bytes d0 0 (firstn (Z.to_nat read_length) rx)).
    { intros dat. unfold bind at 1.
      destruct (readMailboxRepeatRequest w1) as [[ok w2]|] eqn:E2;
        [|discriminate].
      destruct (keeps_readMailboxRepeatRequest _ _ _ E2) as (_ & Hl2 & _).
      destruct ok; cbn [negb]; [|unfold ret; intros E; discriminate E].
      intros E. apply IH in E; [|rewrite Hl2, Hl; exact Hidle].
      destruct E as (we' & rx' & d0 & Hlast & Hs' & Hd').
      exists we', rx', d0. split; [|split; assumption].
      apply (last_answer_after _ _ _ _ _ _ _ (keeps_send_frame 10 frame) E1).
      exact (last_answer_after _ _ _ _ _ _ _ keeps_readMailboxRepeatRequest
               E2 Hlast). }
    destruct r as [[[ws we] rx]|].
    + destruct (split_read && negb (ws =? we)) eqn:Hsplit;
        [unfold ret; intros E; discriminate E|].
      destruct (ws =? 0) eqn:H0.
      * destruct (d =? 0); [unfold ret; intros E; discriminate E|].
        apply Again.
      * destruct (ws =? 1) eqn:H1; [|unfold ret; intros E; discriminate E].
        unfold ret. intros [= <- <-]. apply Z.eqb_eq in H1. subst ws.
        exists we, rx, data. split; [exact (send_frame_last _ _ _ _ _ _ _ _ E1)|].
        split; [|reflexivity].
        intros ->. cbn [andb] in Hsplit.
        apply negb_false_iff, Z.eqb_eq in Hsplit. symmetry. exact Hsplit.
    + destruct (split_read && negb (logic_wkc w1 =? logic_wkc w1));
        [unfold ret; intros E; discriminate E|].
      destruct (logic_wkc w1 =? 0) eqn:H0.
      * destruct (d =? 0); [unfold ret; intros E; discriminate E|].
        apply Again.
      * destruct (logic_wkc w1 =? 1) eqn:H1;
          [|unfold ret; intros E; discriminate E].
        apply Z.eqb_eq in H1. rewrite Hl in H1. contradiction.
Qed.

Section TiedReads.
Context `{Wg0xHeader}.

Lemma readMailboxInternal_reply data length w data' w' :
  logic_wkc w <> 1 ->
  readMailboxInternal data length w = Some ((true, data'), w') ->
  length <= MBX_STATUS_SIZE /\
  ec_state_ok w = true /\
  exists wkc_end rx,
    last_answer w w' wkc_end rx /\
    (reply_covers rx length ->
     forall n, n <= length ->
       firstn (Z.to_nat n) data' = firstn (Z.to_nat n) rx).
Proof.
  intros Hidle E. unfold readMailboxInternal in E.
  destruct (MBX_STATUS_SIZE <? length) eqn:Hlen; [discriminate E|].
  apply Z.ltb_ge in Hlen. split; [exact Hlen|].
  unfold bind, verifyDeviceStateForMailboxOperation in E.
  destruct (ec_state_ok w) eqn:Hok; cbn [negb] in E; [|discriminate E].
  split; [reflexivity|].
  apply read_loop_last in E; [|exact Hidle].
  destruct E as (we & rx & d0 & Hin & Hs & Hd).
  exists we, rx. split; [exact Hin|].
  unfold reply_covers. cbv zeta. intros Hrx n Hn.
  apply (firstn_le_eq _
           (Z.to_nat (if length + 50 <? MBX_STATUS_SIZE
                      then length else MBX_STATUS_SIZE))).
  - destruct (length + 50 <? MBX_STATUS_SIZE); lia.
  - rewrite Hd. unfold write_bytes. cbn [firstn app].
    rewrite firstn_app, firstn_firstn, Nat.min_id.
    rewrite length_firstn, Nat.min_l by exact Hrx.
    rewrite Nat.sub_diag. cbn [firstn]. apply app_nil_r.
Qed.

Lemma computeChecksum_firstn (d d' : list byte) (n : Z) :
  firstn (Z.to_nat n) d = firstn (Z.to_nat n) d' ->
  computeChecksum d n = computeChecksum d' n.
Proof. unfold computeChecksum. intros ->. reflexivity. Qed.

(** A [readMailbox_] that returns 0 from an operational device: the last
    answer of the transport came with working counter 1, and the bytes
    handed back are the bytes of that answer, whose checksum folded to
    zero. *)
Lemma readMailbox__reply address data length w data' w' :
  readMailbox_ address data length w = Some ((0, data'), w') ->
  ec_state_ok w = true ->
  logic_wkc w <> 1 ->
  length + 1 <= MBX_STATUS_SIZE /\
  exists wkc_end rx,
    last_answer w w' wkc_end rx /\
    (reply_covers rx (length + 1) ->
     computeChecksum rx (length + 1) = 0 /\
     data' = write_bytes data 0 (firstn (Z.to_nat length) rx)).
Proof.
  intros E Hok Hidle. unfold readMailbox_ in E.
  unfold bind at 1 in E. unfold verifyDeviceStateForMailboxOperation in E.
  rewrite Hok in E. cbn [negb] in E.
  unfold bind at 1 in E.
  destruct (clearReadMailbox w) as [[ok1 w1]|] eqn:E1; [|discriminate E].
  destruct (keeps_clearReadMailbox _ _ _ E1) as (_ & Hl1 & _).
  destruct ok1; cbn [negb] in E; [|unfold ret in E; discriminate E].
  unfold bind at 1 in E.
  destruct (local_WG0XMbxCmd w1) as [[cmd w2]|] eqn:E2; [|discriminate E].
  assert (Hw2 : w2 = w1).
  { unfold local_WG0XMbxCmd, bind, uninitialised, ret in E2.
    injection E2 as _ <-. reflexivity. }
  subst w2. unfold bind at 1 in E.
  destruct (get_mbx_counter w1) as [[seqnum w3]|] eqn:E3; [|discriminate E].
  destruct (keeps_get_mbx_counter _ _ _ E3) as (_ & Hl3 & _).
  destruct (WG0XMbxCmd_build cmd address length LOCAL_BUS_READ seqnum (Some data))
    as [|cmd'|]; try (unfold ret, undefined in E; discriminate E).
  unfold bind at 1 in E.
  destruct (writeMailboxInternal (cmd_bytes cmd') MBX_HDR_SIZE w3)
    as [[ok4 w4]|] eqn:E4; [|discriminate E].
  destruct (keeps_writeMailboxInternal _ _ _ _ _ E4) as (_ & Hl4 & _).
  destruct ok4; cbn [negb] in E; [|unfold ret in E; discriminate E].
  unfold bind at 1 in E.
  destruct (waitForReadMailboxReady w4) as [[ok5 w5]|] eqn:E5; [|discriminate E].
  assert (K5 : keeps_state waitForReadMailboxReady).
  { unfold waitForReadMailboxReady. apply keeps_bind;
      [apply keeps_wait_mailbox | intros o; apply keeps_ret]. }
  destruct (K5 _ _ _ E5) as (_ & Hl5 & _).
  destruct ok5; cbn [negb] in E; [|unfold ret in E; discriminate E].
  unfold bind at 1 in E.
  destruct (readMailboxInternal (repeat 0 (Z.to_nat MBX_SIZE)) (length + 1) w5)
    as [[[ok6 stat] w6]|] eqn:E6; [|discriminate E].
  destruct ok6; cbn [negb] in E; [|unfold ret in E; discriminate E].
  destruct (computeChecksum stat (length + 1) =? 0) eqn:Hc; cbn [negb] in E;
    [|unfold ret in E; discriminate E].
  unfold ret in E. injection E as <- <-.
  apply Z.eqb_eq in Hc.
  assert (Hidle5 : logic_wkc w5 <> 1).
  { rewrite Hl5, Hl4, Hl3, Hl1. exact Hidle. }
  destruct (readMailboxInternal_reply _ _ _ _ _ Hidle5 E6)
    as (Hle & _ & we & rx & Hin & Hrx).
  split; [exact Hle|].
  exists we, rx. split.
  - apply (last_answer_after _ _ _ _ _ _ _ keeps_clearReadMailbox E1).
    apply (last_answer_after _ _ _ _ _ _ _ keeps_get_mbx_counter E3).
    apply (last_answer_after _ _ _ _ _ _ _ (keeps_writeMailboxInternal _ _) E4).
    apply (last_answer_after _ _ _ _ _ _ _ K5 E5).
    exact Hin.
  - intros Hcov. specialize (Hrx Hcov). split.
    + rewrite <- (computeChecksum_firstn stat rx (length + 1)); [exact Hc|].
      apply Hrx. lia.
    + rewrite (Hrx length) by lia. reflexivity.
Qed.

(** The same of [readMailbox], which takes the lock first. *)
Lemma readMailbox_reply address data length w data' w' :
  readMailbox address data length w = Some ((0, data'), w') ->
  ec_state_ok w = true ->
  logic_wkc w <> 1 ->
  length + 1 <= MBX_STATUS_SIZE /\
  exists wkc_end rx,
    last_answer w w' wkc_end rx /\
    (reply_covers rx (length + 1) ->
     computeChecksum rx (length + 1) = 0 /\
     data' = write_bytes data 0 (firstn (Z.to_nat length) rx)).
Proof.
  intros E Hok Hidle. unfold readMailbox in E. unfold bind at 1 in E.
  destruct (lockMailbox w) as [[locked w1]|] eqn:E1; [|discriminate E].
  destruct (keeps_lockMailbox _ _ _ E1) as (He1 & Hl1 & _).
  destruct locked; cbn [negb] in E; [|unfold ret in E; discriminate E].
  unfold bind at 1 in E.
  destruct (readMailbox_ address data length w1) as [[[rc d1] w2]|] eqn:E2;
    [|discriminate E].
  assert (rc = 0 /\ d1 = data' /\ txrx w' = txrx w2) as (-> & -> & Hx).
  { unfold bind, ret, update_mailbox_diagnostics, unlockMailbox, pthread_mutex
      in E.
    destruct (negb (rc =? 0)); cbn in E;
      destruct (hd false (mutex w2)); cbn in E; injection E as <- <- <-;
      repeat split; reflexivity. }
  destruct (readMailbox__reply _ _ _ _ _ _ E2) as (Hle & we & rx & Hin & Hrx).
  - rewrite He1. exact Hok.
  - rewrite Hl1. exact Hidle.
  - split; [exact Hle|]. exists we, rx. split; [|exact Hrx].
    apply (last_answer_after _ _ _ _ _ _ _ keeps_lockMailbox E1).
    exact (last_answer_still _ _ _ _ _ Hin Hx).
Qed.

(** A write through the mailbox that returns 0 found the device in an
    operational state. *)
Lemma writeMailbox_zero_operational address data length w w' :
  writeMailbox address data length w = Some (0, w') -> ec_state_ok w = true.
Proof.
  intros E. unfold writeMailbox in E. unfold bind at 1 in E.
  destruct (lockMailbox w) as [[locked w1]|] eqn:E1; [|discriminate E].
  destruct (keeps_lockMailbox _ _ _ E1) as (He1 & _).
  destruct locked; cbn [negb] in E; [|unfold ret in E; discriminate E].
  rewrite <- He1. destruct (ec_state_ok w1) eqn:Hok; [reflexivity|].
  exfalso.
  assert (Wr : writeMailbox_ address data length w1 = Some (-1, w1)).
  { unfold writeMailbox_, writeMailbox_traced, bind,
      verifyDeviceStateForMailboxOperation.
    rewrite Hok. reflexivity. }
  unfold bind at 1 in E. rewrite Wr in E. cbn [negb Z.eqb] in E.
  unfold bind, ret in E. step_through E; try discriminate E.
Qed.

(** Outside the operational states neither mailbox call reaches the bus,
    and a read leaves the caller's buffer alone. *)
Lemma readMailbox_not_operational address data length w rc data' w' :
  ec_state_ok w = false ->
  readMailbox address data length w = Some ((rc, data'), w') ->
  data' = data /\ txrx w' = txrx w /\ garbage w' = garbage w /\
  ec_state_ok w' = false.
Proof.
  intros Hok E. unfold readMailbox in E. unfold bind at 1 in E.
  destruct (lockMailbox w) as [[locked w1]|] eqn:E1; [|discriminate E].
  assert (L : txrx w1 = txrx w /\ garbage w1 = garbage w /\
              ec_state_ok w1 = false).
  { unfold lockMailbox, bind, pthread_mutex, update_mailbox_diagnostics, ret
      in E1.
    destruct (hd false (mutex w)); cbn in E1; injection E1 as _ <-;
      cbn; auto. }
  destruct L as (Lx & Lg & Lo).
  destruct locked; cbn [negb] in E.
  - assert (Rd : readMailbox_ address data length w1 = Some ((0, data), w1)).
    { unfold readMailbox_, bind, verifyDeviceStateForMailboxOperation.
      rewrite Lo. reflexivity. }
    unfold bind at 1 in E. rewrite Rd in E. cbn [negb Z.eqb] in E.
    unfold unlockMailbox, bind, ret, pthread_mutex, update_mailbox_diagnostics
      in E.
    destruct (hd false (mutex w1)); cbn in E; injection E as _ <- <-;
      cbn; auto.
  - unfold ret in E. injection E as _ <- <-. auto.
Qed.


End TiedReads.


Lemma reply_covers_length `{Wg0xHeader} (rx : list byte) (n : Z) :
  n + 1 <= MBX_STATUS_SIZE -> reply_covers rx (n + 1) ->
  length (firstn (Z.to_nat n) rx) = Z.to_nat n.
Proof.
  unfold reply_covers. cbv zeta. intros Hle Hc.
  apply firstn_length_le.
  destruct (n + 1 + 50 <? MBX_STATUS_SIZE); lia.
Qed.


(** X14.  What a caller of [readMailbox] can rely on: the result is 0 or -1;
    on -1 the buffer is as it was; on 0, with the device in an operational
    state, the last answer that the transport gave in the call came with
    working counter 1, and the buffer holds the first [length] bytes of
    that answer, whose checksum over [length + 1] bytes folded to zero.
    (The working counter that is put back after a lost frame is taken to
    differ from 1.) *)
Theorem readMailbox_results `{Wg0xHeader} (address : Z) (data : list byte)
    (length : Z) (w : World) (rc : Z) (data' : list byte) (w' : World) :
  readMailbox address data length w = Some ((rc, data'), w') ->
  (rc = 0 \/ rc = -1) /\
  (rc <> 0 -> data' = data) /\
  (rc = 0 -> ec_state_ok w = true -> logic_wkc w <> 1 ->
   exists wkc_end rx,
     last_answer w w' wkc_end rx /\
     (reply_covers rx (length + 1) ->
      computeChecksum rx (length + 1) = 0 /\
      data' = write_bytes data 0 (firstn (Z.to_nat length) rx))).
Proof.
  intros E. destruct (readMailbox_result _ _ _ _ _ _ _ E) as [R1 R2].
  split; [exact R1|]. split; [exact R2|].
  intros Hrc Hok Hidle. subst rc.
  exact (proj2 (readMailbox_reply _ _ _ _ _ _ E Hok Hidle)).
Qed.

Lemma readMailbox_results_witness :
  exists data' w',
    readMailbox SAFETY_DISABLE_STATUS_ADDR [0; 0; 0] 3
      (scripted [1] (read_served [1; 1; 5]) [Some 0] [Some 8] [] [true; true])
    = Some ((0, data'), w') /\
    data' = [1; 1; 5].
Proof.
  destruct (readMailbox SAFETY_DISABLE_STATUS_ADDR [0; 0; 0] 3
      (scripted [1] (read_served [1; 1; 5]) [Some 0] [Some 8] [] [true; true]))
    as [[[rc data'] w']|] eqn:E; [|vm_compute in E; discriminate E].
  assert (Hrc : rc = 0) by (vm_compute in E; injection E as <- _ _; reflexivity).
  subst rc. exists data', w'. split; [reflexivity|].
  assert (Hidle : logic_wkc (scripted [1] (read_served [1; 1; 5]) [Some 0]
                                      [Some 8] [] [true; true]) <> 1)
    by (cbn; lia).
  destruct (proj2 (proj2 (readMailbox_results (H:=sample_header) _ _ _ _ _ _ _ E))
                  eq_refl eq_refl Hidle)
    as (we & rx & Hin & Hrx).
  assert (Hrest : txrx w' = []).
  { vm_compute in E. injection E as _ <-. reflexivity. }
  destruct Hin as (before & Hb). rewrite Hrest in Hb.
  assert (Hlast : rx = posted [1; 1; 5]).
  { change (txrx (scripted [1] (read_served [1; 1; 5]) [Some 0] [Some 8] []
                           [true; true]))
      with ([TxReplied 0 0 []; TxReplied 1 1 []]
            ++ [TxReplied 1 1 (posted [1; 1; 5])]) in Hb.
    apply app_inj_tail in Hb. destruct Hb as [_ Hb].
    injection Hb as _ Hb. symmetry. exact Hb. }
  subst rx.
  assert (Hcov : reply_covers (H:=sample_header) (posted [1; 1; 5]) (3 + 1)).
  { unfold reply_covers. cbv zeta. apply Nat.leb_le. vm_compute. reflexivity. }
  rewrite (proj2 (Hrx Hcov)). reflexivity.
Defined.

(** X15.  With the device outside the operational states, [readMailbox_] returns
    0, the value for success, without reading anything, and [readMailbox]
    passes that on without counting a read error; [writeMailbox_] returns
    -1 and [writeMailbox] counts a write error.  No frame goes out. *)
Theorem mailbox_outside_operational_state `{Wg0xHeader} (address : Z)
    (data : list byte) (length : Z) (w : World) :
  ec_state_ok w = false ->
  readMailbox_ address data length w = Some ((0, data), w) /\
  writeMailbox_ address data length w = Some (-1, w) /\
  (hd false (mutex w) = true ->
   (exists w',
      readMailbox address data length w = Some ((0, data), w') /\
      trace w' = trace w /\
      read_errors_ (mailbox_diagnostics_ w')
        = read_errors_ (mailbox_diagnostics_ w)) /\
   (exists w',
      writeMailbox address data length w = Some (-1, w') /\
      trace w' = trace w /\
      write_errors_ (mailbox_diagnostics_ w')
        = write_errors_ (mailbox_diagnostics_ w) + 1)).
Proof.
  intros Hok.
  assert (R : readMailbox_ address data length w = Some ((0, data), w)).
  { unfold readMailbox_, bind, verifyDeviceStateForMailboxOperation.
    rewrite Hok. reflexivity. }
  assert (Wr : writeMailbox_ address data length w = Some (-1, w)).
  { unfold writeMailbox_, writeMailbox_traced, bind,
      verifyDeviceStateForMailboxOperation.
    rewrite Hok. reflexivity. }
  split; [exact R|]. split; [exact Wr|].
  intros Hlock. split.
  - unfold readMailbox, lockMailbox, unlockMailbox, bind, pthread_mutex, ret,
      update_mailbox_diagnostics.
    rewrite Hlock. cbn [negb].
    unfold readMailbox_, bind, verifyDeviceStateForMailboxOperation.
    cbn [ec_state_ok]. rewrite Hok. cbn [negb ret Z.eqb].
    unfold ret. cbn [mutex].
    destruct (hd false (tl (mutex w))); cbn [negb]; eexists;
      (split; [reflexivity|]); split; reflexivity.
  - unfold writeMailbox, lockMailbox, unlockMailbox, bind, pthread_mutex, ret,
      update_mailbox_diagnostics.
    rewrite Hlock. cbn [negb].
    unfold writeMailbox_, writeMailbox_traced, bind,
      verifyDeviceStateForMailboxOperation.
    cbn [ec_state_ok]. rewrite Hok. cbn [negb ret Z.eqb].
    unfold ret. cbn [mutex].
    destruct (hd false (tl (mutex w))); cbn [negb]; eexists;
      (split; [reflexivity|]); split; reflexivity.
Qed.

(** X16.  When the mailbox lock cannot be taken, [readMailbox] and [writeMailbox]
    return -1 at once: a lock error is counted, no read or write error, no
    frame goes out and the buffer is untouched. *)
Theorem mailbox_lock_failure `{Wg0xHeader} (address : Z) (data : list byte)
    (length : Z) (w : World) :
  hd false (mutex w) = false ->
  (exists w',
      readMailbox address data length w = Some ((-1, data), w') /\
      trace w' = trace w /\ txrx w' = txrx w /\
      mailbox_diagnostics_ w' = incr_lock_errors (mailbox_diagnostics_ w)) /\
  (exists w',
      writeMailbox address data length w = Some (-1, w') /\
      trace w' = trace w /\ txrx w' = txrx w /\
      mailbox_diagnostics_ w' = incr_lock_errors (mailbox_diagnostics_ w)).
Proof.
  intros Hlock.
  destruct (lockMailbox_spec w) as (w1 & El & _ & Ht & Hx & _ & Hmd).
  rewrite Hlock in El, Hmd.
  split; exists w1.
  - unfold readMailbox, bind. rewrite El. cbn [negb]. auto.
  - unfold writeMailbox, bind. rewrite El. cbn [negb]. auto.
Qed.

Lemma mailbox_outside_operational_state_witness :
  ec_state_ok not_operational = false /\
  readMailbox_ SAFETY_DISABLE_STATUS_ADDR [7; 7; 7] 3 not_operational
    = Some ((0, [7; 7; 7]), not_operational) /\
  writeMailbox_ SPI_COMMAND_ADDR [1; 2; 3] 3 not_operational
    = Some (-1, not_operational).
Proof.
  split; [reflexivity|].
  pose proof (mailbox_outside_operational_state (H:=sample_header)
                SAFETY_DISABLE_STATUS_ADDR [7; 7; 7] 3 not_operational eq_refl)
    as (R & _).
  pose proof (mailbox_outside_operational_state (H:=sample_header)
                SPI_COMMAND_ADDR [1; 2; 3] 3 not_operational eq_refl)
    as (_ & Wr & _).
  split; [exact R | exact Wr].
Defined.

Lemma mailbox_lock_failure_witness :
  hd false (mutex (scripted [] [] [] [] [] [false])) = false /\
  exists w',
    readMailbox SAFETY_DISABLE_STATUS_ADDR [7; 7; 7] 3
                (scripted [] [] [] [] [] [false])
      = Some ((-1, [7; 7; 7]), w') /\
    mbx_lock_errors_ (mailbox_diagnostics_ w') = 1.
Proof.
  split; [reflexivity|].
  destruct (mailbox_lock_failure (H:=sample_header)
              SAFETY_DISABLE_STATUS_ADDR [7; 7; 7] 3
              (scripted [] [] [] [] [] [false]) eq_refl)
    as ((w' & E & _ & _ & Hmd) & _).
  exists w'. split; [exact E|]. rewrite Hmd. reflexivity.
Defined.

(** X17.  A device that does not answer the probe of [collectDiagnostics] (the
    frame is lost, or comes back with a working counter other than 1) is
    not read: the probe is the only frame sent, the mailbox counters stay,
    and the diagnostics record changes in [valid_], now false, [first_] and
    [lock_errors_] at most. *)
Theorem absent_device_is_not_polled `{Wg0xHeader} (dg : WG0XDiagnostics)
    (app_ram_present : bool) (w : World) :
  (forall e rx, hd TxDropped (txrx w) <> TxReplied 1 e rx) ->
  exists dg' w',
    collectDiagnostics dg app_ram_present w = Some (dg', w') /\
    trace w' = trace w ++ [EvTx [NPRD 0 1]] /\
    mailbox_diagnostics_ w' = mailbox_diagnostics_ w /\
    valid_ dg' = false /\
    exists first errors,
      dg' = set_lock_errors (set_valid_first dg false first) errors.
Proof.
  intros Habsent.
  assert (P : exists w1,
             collectDiagnostics_poll dg app_ram_present w
             = Some ({| success := false;
                        s := map (garbage w)
                               (seq 0 (Z.to_nat SAFETY_DISABLE_STATUS_SIZE));
                        di := map (garbage w)
                                (seq 0 (Z.to_nat DIAGNOSTICS_INFO_SIZE));
                        polled_dg := dg |}, w1) /\
             trace w1 = trace w ++ [EvTx [NPRD 0 1]] /\
             mailbox_diagnostics_ w1 = mailbox_diagnostics_ w).
  { unfold collectDiagnostics_poll, bind, uninitialised, txandrx_once, ret.
    destruct (hd TxDropped (txrx w)) as [|wkc e rx] eqn:Hhd.
    - eexists. repeat split.
    - destruct (wkc =? 1) eqn:Hw.
      + apply Z.eqb_eq in Hw. subst wkc. exfalso. exact (Habsent e rx eq_refl).
      + cbn [negb]. eexists. repeat split. }
  destruct P as (w1 & Ep & Ht & Hm).
  unfold collectDiagnostics, bind. rewrite Ep.
  unfold collectDiagnostics_end, lockWG0XDiagnostics, unlockWG0XDiagnostics,
    bind, pthread_mutex, ret.
  cbn [polled_dg success].
  destruct (hd false (mutex w1)); cbn [negb mutex].
  - destruct (hd false (tl (mutex w1))); cbn [negb];
      eexists; eexists; (split; [reflexivity|]); cbn [trace mailbox_diagnostics_];
      (split; [exact Ht|]); (split; [exact Hm|]); (split; [reflexivity|]).
    + exists (first_ dg), (lock_errors_ dg). reflexivity.
    + exists (first_ dg), (lock_errors_ dg + 1). reflexivity.
  - eexists; eexists; (split; [reflexivity|]); cbn [trace mailbox_diagnostics_];
      (split; [exact Ht|]); (split; [exact Hm|]); (split; [reflexivity|]).
    exists false, (lock_errors_ dg + 1). reflexivity.
Qed.

Lemma absent_device_is_not_polled_witness :
  exists dg' w',
    collectDiagnostics WG0XDiagnostics_new true
                       (scripted [] [TxReplied 0 0 [0]] [] [] [] [true; true])
      = Some (dg', w') /\
    trace w' = [EvTx [NPRD 0 1]] /\
    valid_ dg' = false.
Proof.
  destruct (absent_device_is_not_polled (H:=sample_header) WG0XDiagnostics_new
              true (scripted [] [TxReplied 0 0 [0]] [] [] [] [true; true]))
    as (dg' & w' & E & Ht & _ & Hv & _).
  - intros e rx E. discriminate E.
  - exists dg', w'. split; [exact E|]. split; [exact Ht | exact Hv].
Defined.


Lemma readMailbox_outside_operational_state `{Wg0xHeader} (address : Z)
    (data : list byte) (length : Z) (w : World) :
  ec_state_ok w = false ->
  hd false (mutex w) = true ->
  exists w',
    readMailbox address data length w = Some ((0, data), w') /\
    ec_state_ok w' = false /\
    garbage w' = garbage w /\
    trace w' = trace w /\
    txrx w' = txrx w /\
    mutex w' = tl (tl (mutex w)) /\
    read_errors_ (mailbox_diagnostics_ w')
      = read_errors_ (mailbox_diagnostics_ w).
Proof.
  intros Hok Hlock.
  unfold readMailbox, lockMailbox, unlockMailbox, bind, pthread_mutex, ret,
    update_mailbox_diagnostics.
  rewrite Hlock. cbn [negb].
  unfold readMailbox_, bind, verifyDeviceStateForMailboxOperation.
  cbn [ec_state_ok]. rewrite Hok. cbn [negb ret Z.eqb].
  unfold ret. cbn [mutex].
  destruct (hd false (tl (mutex w))); cbn [negb]; eexists;
    (split; [reflexivity|]); cbn; repeat split; assumption.
Qed.

(** X18.  A device that answers the probe but is outside the operational states:
    both mailbox reads of [collectDiagnostics] return 0 without reading, so
    the poll counts as a success; no mailbox frame was sent, the record is
    marked valid and its snapshot is decoded from the two locals [s] and
    [di], which nothing has written. *)
Theorem poll_outside_operational_state `{Wg0xHeader} (dg : WG0XDiagnostics)
    (w : World) (e : Z) (rx : list byte) :
  ec_state_ok w = false ->
  hd TxDropped (txrx w) = TxReplied 1 e rx ->
  firstn 5 (mutex w) = repeat true 5 ->
  exists dg' w',
    collectDiagnostics dg false w = Some (dg', w') /\
    trace w' = trace w ++ [EvTx [NPRD 0 1]] /\
    read_errors_ (mailbox_diagnostics_ w')
      = read_errors_ (mailbox_diagnostics_ w) /\
    valid_ dg' = true /\
    safety_disable_status_snap dg'
      = decode_safety_disable_status
          (map (garbage w) (seq 0 (Z.to_nat SAFETY_DISABLE_STATUS_SIZE))) /\
    diagnostics_info_ dg'
      = decode_diagnostics_info
          (map (garbage w) (seq 0 (Z.to_nat DIAGNOSTICS_INFO_SIZE))).
Proof.
  intros Hok Hhd Hmtx.
  destruct (mutex w) as [|m0 [|m1 [|m2 [|m3 [|m4 rest]]]]] eqn:Hm;
    try discriminate Hmtx.
  cbn [firstn repeat] in Hmtx. injection Hmtx as -> -> -> -> ->.
  unfold collectDiagnostics, collectDiagnostics_poll, bind at 1 2 3 4.
  unfold uninitialised, txandrx_once.
  rewrite Hhd. cbn [negb Z.eqb Pos.eqb].
  match goal with
  | |- context [bind (readMailbox ?a ?d ?l) ?k ?w0] =>
      destruct (readMailbox_outside_operational_state a d l w0)
        as (w1 & E1 & Hok1 & Hg1 & Ht1 & _ & Hm1 & Hr1);
        [exact Hok | cbn [mutex]; rewrite Hm; reflexivity|];
      unfold bind at 1; rewrite E1
  end.
  cbn [negb Z.eqb].
  match goal with
  | |- context [bind (readMailbox ?a ?d ?l) ?k ?w0] =>
      destruct (readMailbox_outside_operational_state a d l w0)
        as (w2 & E2 & Hok2 & Hg2 & Ht2 & _ & Hm2 & Hr2);
        [exact Hok1 | rewrite Hm1; cbn [mutex]; rewrite Hm; reflexivity|];
      unfold bind at 1; rewrite E2
  end.
  cbn [negb Z.eqb andb]. unfold bind at 1. unfold ret at 1 2.
  unfold collectDiagnostics_end, lockWG0XDiagnostics, unlockWG0XDiagnostics,
    bind, pthread_mutex, ret.
  cbn [polled_dg success].
  rewrite Hm2, Hm1. cbn [mutex]. rewrite Hm. cbn [hd tl negb].
  cbn [garbage trace mailbox_diagnostics_ mutex] in Ht1, Ht2, Hr1, Hr2.
  cbn [mutex].
  destruct (hd false rest); cbn [negb]; cbv beta;
    eexists; eexists; (split; [reflexivity|]);
    cbn [trace mailbox_diagnostics_ s di];
    rewrite ?Ht2, ?Ht1, ?Hr2, ?Hr1;
    repeat split; reflexivity.
Qed.

Lemma poll_outside_operational_state_witness :
  exists dg' w',
    collectDiagnostics WG0XDiagnostics_new false not_operational
      = Some (dg', w') /\
    trace w' = [EvTx [NPRD 0 1]] /\
    valid_ dg' = true /\
    safety_disable_count_ (safety_disable_status_snap dg') = 0xCC.
Proof.
  destruct (poll_outside_operational_state (H:=sample_header)
              WG0XDiagnostics_new not_operational 1 [0]
              eq_refl eq_refl eq_refl)
    as (dg' & w' & E & Ht & _ & Hv & Hs & _).
  exists dg', w'. split; [exact E|]. split; [exact Ht|]. split; [exact Hv|].
  rewrite Hs. reflexivity.
Defined.


(** ** The snapshot that a poll leaves *)

Section PollReads.
Context `{Wg0xHeader}.




End PollReads.



(** ** Waiting on a mailbox *)

Lemma timediff_ms_error (current start : timespec) :
  0 <= tv_nsec current < 1000000000 ->
  0 <= tv_nsec start < 1000000000 ->
  -2147482 <= tv_sec current - tv_sec start <= 2147482 ->
  -1000000 < timediff_ms current start * 1000000 - elapsed_ns current start
    < 1000000.
Proof.
  intros Hc Hs Hd. unfold timediff_ms, elapsed_ns.
  set (dn := tv_nsec current - tv_nsec start).
  assert (Hdn : -1000000000 < dn < 1000000000) by (subst dn; lia).
  assert (Hq : -1000000 < dn - Z.quot dn 1000000 * 1000000 < 1000000) by lia.
  generalize dependent (Z.quot dn 1000000). intros ms Hq.
  unfold to_i32, to_u32. destruct (_ <? _) eqn:E; lia.
Qed.

(** One turn of the wait loop after the status was not seen as wanted. *)
Lemma wait_mailbox_loop_step want_full start fuel w :
  wait_mailbox_loop (S fuel) want_full start w
  = match hd None (syncman w) with
    | Some st =>
        if Bool.eqb (nonzero (Z.land st (Z.shiftl 1 3))) want_full
        then Some (WaitReady,
                   mkWorld (ec_state_ok w) (logic_wkc w) (garbage w) (seqnums w)
                           (txrx w) (clock w) (tl (syncman w)) (repeat_acks w)
                           (mutex w) (trace w) (mailbox_diagnostics_ w)
                           (syncman_writes w) (syncman_log w))
        else
          match hd None (clock w) with
          | Some current_time =>
              if timediff_ms current_time start <? 100
              then wait_mailbox_loop fuel want_full start
                     (mkWorld (ec_state_ok w) (logic_wkc w) (garbage w)
                              (seqnums w) (txrx w) (tl (clock w))
                              (tl (syncman w)) (repeat_acks w) (mutex w)
                              (trace w) (mailbox_diagnostics_ w)
                              (syncman_writes w) (syncman_log w))
              else Some (WaitTimedOut (timediff_ms current_time start),
                         mkWorld (ec_state_ok w) (logic_wkc w) (garbage w)
                                 (seqnums w) (txrx w) (tl (clock w))
                                 (tl (syncman w)) (repeat_acks w) (mutex w)
                                 (trace w) (mailbox_diagnostics_ w)
                                 (syncman_writes w) (syncman_log w))
          | None =>
              Some (WaitClockError,
                    mkWorld (ec_state_ok w) (logic_wkc w) (garbage w)
                            (seqnums w) (txrx w) (tl (clock w))
                            (tl (syncman w)) (repeat_acks w) (mutex w)
                            (trace w) (mailbox_diagnostics_ w)
                            (syncman_writes w) (syncman_log w))
          end
    | None =>
        match hd None (clock w) with
        | Some current_time =>
            if timediff_ms current_time start <? 100
            then wait_mailbox_loop fuel want_full start
                   (mkWorld (ec_state_ok w) (logic_wkc w) (garbage w)
                            (seqnums w) (txrx w) (tl (clock w))
                            (tl (syncman w)) (repeat_acks w) (mutex w)
                            (trace w) (mailbox_diagnostics_ w)
                            (syncman_writes w) (syncman_log w))
            else Some (WaitTimedOut (timediff_ms current_time start),
                       mkWorld (ec_state_ok w) (logic_wkc w) (garbage w)
                               (seqnums w) (txrx w) (tl (clock w))
                               (tl (syncman w)) (repeat_acks w) (mutex w)
                               (trace w) (mailbox_diagnostics_ w)
                               (syncman_writes w) (syncman_log w))
        | None =>
            Some (WaitClockError,
                  mkWorld (ec_state_ok w) (logic_wkc w) (garbage w)
                          (seqnums w) (txrx w) (tl (clock w))
                          (tl (syncman w)) (repeat_acks w) (mutex w)
                          (trace w) (mailbox_diagnostics_ w)
                          (syncman_writes w) (syncman_log w))
        end
    end.
Proof.
  cbn [wait_mailbox_loop]. unfold bind, readSyncManStatus, safe_clock_gettime, ret.
  destruct (hd None (syncman w)) as [st|].
  - destruct (Bool.eqb (nonzero (Z.land st (Z.shiftl 1 3))) want_full);
      [reflexivity|].
    cbn [clock]. destruct (hd None (clock w)) as [t|]; [|reflexivity].
    cbv zeta. destruct (timediff_ms t start <? 100); reflexivity.
  - cbn [clock]. destruct (hd None (clock w)) as [t|]; [|reflexivity].
    cbv zeta. destruct (timediff_ms t start <? 100); reflexivity.
Qed.

Lemma nth_error_tl {A : Type} (l : list A) (n : nat) :
  nth_error (tl l) n = nth_error l (S n).
Proof. destruct l; [destruct n|]; reflexivity. Qed.

Lemma hd_nth_error_byte (l : list (option byte)) (st : byte) :
  hd None l = Some st -> nth_error l 0 = Some (Some st).
Proof. destruct l as [|a l]; cbn; [discriminate | intros ->; reflexivity]. Qed.

(** How the wait loop ends, whatever its result: it sends no frame and
    leaves the mailbox counters; ready means a status read with bit 3 as
    wanted; otherwise the last clock reading taken has failed or shows 100
    ms or more. *)
Lemma wait_mailbox_loop_outcome (want_full : bool) (start : timespec)
    (fuel : nat) : forall w,
  (length (clock w) < fuel)%nat ->
  exists o w',
    wait_mailbox_loop fuel want_full start w = Some (o, w') /\
    trace w' = trace w /\ txrx w' = txrx w /\
    mailbox_diagnostics_ w' = mailbox_diagnostics_ w /\
    match o with
    | WaitReady =>
        exists n st,
          syncman w' = skipn (S n) (syncman w) /\
          nth_error (syncman w) n = Some (Some st) /\
          nonzero (Z.land st (Z.shiftl 1 3)) = want_full
    | WaitTimedOut timediff =>
        exists n current,
          clock w' = skipn (S n) (clock w) /\
          nth_error (clock w) n = Some (Some current) /\
          timediff = timediff_ms current start /\
          100 <= timediff
    | WaitClockError =>
        exists n,
          clock w' = skipn (S n) (clock w) /\
          (nth_error (clock w) n = Some None \/ nth_error (clock w) n = None)
    end.
Proof.
  induction fuel as [|fuel IH]; intros w Hfuel; [lia|].
  rewrite wait_mailbox_loop_step.
  assert (Later :
    exists o w',
      match hd None (clock w) with
      | Some current_time =>
          if timediff_ms current_time start <? 100
          then wait_mailbox_loop fuel want_full start
                 (mkWorld (ec_state_ok w) (logic_wkc w) (garbage w)
                          (seqnums w) (txrx w) (tl (clock w))
                          (tl (syncman w)) (repeat_acks w) (mutex w)
                          (trace w) (mailbox_diagnostics_ w)
                          (syncman_writes w) (syncman_log w))
          else Some (WaitTimedOut (timediff_ms current_time start),
                     mkWorld (ec_state_ok w) (logic_wkc w) (garbage w)
                             (seqnums w) (txrx w) (tl (clock w))
                             (tl (syncman w)) (repeat_acks w) (mutex w)
                             (trace w) (mailbox_diagnostics_ w)
                             (syncman_writes w) (syncman_log w))
      | None =>
          Some (WaitClockError,
                mkWorld (ec_state_ok w) (logic_wkc w) (garbage w)
                        (seqnums w) (txrx w) (tl (clock w))
                        (tl (syncman w)) (repeat_acks w) (mutex w)
                        (trace w) (mailbox_diagnostics_ w)
                        (syncman_writes w) (syncman_log w))
      end = Some (o, w') /\
      trace w' = trace w /\ txrx w' = txrx w /\
      mailbox_diagnostics_ w' = mailbox_diagnostics_ w /\
      match o with
      | WaitReady =>
          exists n st,
            syncman w' = skipn (S n) (tl (syncman w)) /\
            nth_error (tl (syncman w)) n = Some (Some st) /\
            nonzero (Z.land st (Z.shiftl 1 3)) = want_full
      | WaitTimedOut timediff =>
          exists n current,
            clock w' = skipn (S n) (clock w) /\
            nth_error (clock w) n = Some (Some current) /\
            timediff = timediff_ms current start /\
            100 <= timediff
      | WaitClockError =>
          exists n,
            clock w' = skipn (S n) (clock w) /\
            (nth_error (clock w) n = Some None \/ nth_error (clock w) n = None)
      end).
  { destruct (clock w) as [|[t|] ck] eqn:Hck; cbn [hd tl].
    - eexists; eexists. split; [reflexivity|]. cbn [trace txrx mailbox_diagnostics_ clock].
      repeat (split; [reflexivity|]). exists 0%nat. split; [reflexivity|].
      right. reflexivity.
    - destruct (timediff_ms t start <? 100) eqn:Hlt.
      + match goal with
        | |- context [wait_mailbox_loop fuel _ _ ?w1] =>
            destruct (IH w1) as (o & w' & E & Ht & Hx & Hm & Ho)
        end.
        { cbn [clock]. cbn [length] in Hfuel. lia. }
        exists o, w'. split; [exact E|].
        cbn [trace txrx mailbox_diagnostics_ clock syncman] in Ht, Hx, Hm, Ho.
        repeat (split; [assumption|]).
        destruct o as [| |td].
        * exact Ho.
        * destruct Ho as (n & Hn & Hc). exists (S n). split; [exact Hn|].
          exact Hc.
        * destruct Ho as (n & cur & Hn & Hc & Hd). exists (S n), cur.
          split; [exact Hn|]. split; [exact Hc | exact Hd].
      + eexists; eexists. split; [reflexivity|].
        cbn [trace txrx mailbox_diagnostics_ clock].
        repeat (split; [reflexivity|]). exists 0%nat, t.
        apply Z.ltb_ge in Hlt.
        split; [reflexivity|]. split; [reflexivity|].
        split; [reflexivity | exact Hlt].
    - eexists; eexists. split; [reflexivity|].
      cbn [trace txrx mailbox_diagnostics_ clock].
      repeat (split; [reflexivity|]). exists 0%nat. split; [reflexivity|].
      left. reflexivity. }
  assert (Shift : forall o0 w0,
            match o0 with
            | WaitReady =>
                exists n st,
                  syncman w0 = skipn (S n) (tl (syncman w)) /\
                  nth_error (tl (syncman w)) n = Some (Some st) /\
                  nonzero (Z.land st (Z.shiftl 1 3)) = want_full
            | WaitTimedOut timediff =>
                exists n current,
                  clock w0 = skipn (S n) (clock w) /\
                  nth_error (clock w) n = Some (Some current) /\
                  timediff = timediff_ms current start /\
                  100 <= timediff
            | WaitClockError =>
                exists n,
                  clock w0 = skipn (S n) (clock w) /\
                  (nth_error (clock w) n = Some None \/
                   nth_error (clock w) n = None)
            end ->
            match o0 with
            | WaitReady =>
                exists n st,
                  syncman w0 = skipn (S n) (syncman w) /\
                  nth_error (syncman w) n = Some (Some st) /\
                  nonzero (Z.land st (Z.shiftl 1 3)) = want_full
            | WaitTimedOut timediff =>
                exists n current,
                  clock w0 = skipn (S n) (clock w) /\
                  nth_error (clock w) n = Some (Some current) /\
                  timediff = timediff_ms current start /\
                  100 <= timediff
            | WaitClockError =>
                exists n,
                  clock w0 = skipn (S n) (clock w) /\
                  (nth_error (clock w) n = Some None \/
                   nth_error (clock w) n = None)
            end).
  { intros [| |td] w0; auto. intros (n & st & Hs & Hn & Hb).
    rewrite nth_error_tl in Hn. exists (S n), st.
    split; [|split; assumption].
    rewrite Hs. destruct (syncman w); [destruct n|]; reflexivity. }
  destruct (hd None (syncman w)) as [st|] eqn:Hst.
  - destruct (Bool.eqb (nonzero (Z.land st (Z.shiftl 1 3))) want_full) eqn:Hb.
    + eexists; eexists. split; [reflexivity|].
      cbn [trace txrx mailbox_diagnostics_].
      repeat (split; [reflexivity|]).
      exists 0%nat, st. cbn [syncman].
      split; [destruct (syncman w); reflexivity|].
      split; [apply hd_nth_error_byte; exact Hst|].
      apply eqb_prop. exact Hb.
    + destruct Later as (o & w' & E & Ht & Hx & Hm & Ho).
      exists o, w'. split; [exact E|]. repeat (split; [assumption|]).
      apply Shift. exact Ho.
  - destruct Later as (o & w' & E & Ht & Hx & Hm & Ho).
    exists o, w'. split; [exact E|]. repeat (split; [assumption|]).
    apply Shift. exact Ho.
Qed.

(** The same of [wait_mailbox], the start reading included. *)
Lemma wait_mailbox_outcome (want_full : bool) (w : World) :
  exists o w',
    wait_mailbox want_full w = Some (o, w') /\
    trace w' = trace w /\ txrx w' = txrx w /\
    mailbox_diagnostics_ w' = mailbox_diagnostics_ w /\
    match o with
    | WaitReady =>
        exists n st,
          syncman w' = skipn (S n) (syncman w) /\
          nth_error (syncman w) n = Some (Some st) /\
          nonzero (Z.land st (Z.shiftl 1 3)) = want_full
    | WaitTimedOut timediff =>
        exists start n current,
          hd None (clock w) = Some start /\
          clock w' = skipn (S n) (tl (clock w)) /\
          nth_error (tl (clock w)) n = Some (Some current) /\
          timediff = timediff_ms current start /\
          100 <= timediff
    | WaitClockError =>
        hd None (clock w) = None \/
        exists n,
          clock w' = skipn (S n) (tl (clock w)) /\
          (nth_error (tl (clock w)) n = Some None \/
           nth_error (tl (clock w)) n = None)
    end.
Proof.
  unfold wait_mailbox, bind, safe_clock_gettime, ret.
  destruct (hd None (clock w)) as [start|] eqn:Hstart.
  - match goal with
    | |- context [wait_mailbox_loop ?f _ _ ?w0] =>
        destruct (wait_mailbox_loop_outcome want_full start f w0 ltac:(lia))
          as (o & w' & E & Ht & Hx & Hm & Ho)
    end.
    exists o, w'. split; [exact E|].
    cbn [trace txrx mailbox_diagnostics_ clock syncman] in Ht, Hx, Hm, Ho.
    repeat (split; [assumption|]).
    destruct o as [| |td].
    + exact Ho.
    + right. exact Ho.
    + destruct Ho as (n & cur & Hn & Hc & Hd). exists start, n, cur. auto.
  - eexists; eexists. split; [reflexivity|].
    cbn [trace txrx mailbox_diagnostics_]. repeat (split; [reflexivity|]).
    left. reflexivity.
Qed.

(** X19.  The two waits on a mailbox always return; they send no mailbox
    frame and leave the mailbox counters alone, whatever they return.
    [waitForReadMailboxReady] returns true only when the last read of the
    sync manager status that it made succeeded and showed bit 3 set,
    [waitForWriteMailboxReady] only when it showed that bit clear. *)
Theorem wait_true_means_status_seen (w : World) :
  (exists ready w',
     waitForReadMailboxReady w = Some (ready, w') /\
     trace w' = trace w /\ txrx w' = txrx w /\
     mailbox_diagnostics_ w' = mailbox_diagnostics_ w /\
     (ready = true ->
      exists n st,
        syncman w' = skipn (S n) (syncman w) /\
        nth_error (syncman w) n = Some (Some st) /\
        Z.land st (Z.shiftl 1 3) <> 0)) /\
  (exists ready w',
     waitForWriteMailboxReady w = Some (ready, w') /\
     trace w' = trace w /\ txrx w' = txrx w /\
     mailbox_diagnostics_ w' = mailbox_diagnostics_ w /\
     (ready = true ->
      exists n st,
        syncman w' = skipn (S n) (syncman w) /\
        nth_error (syncman w) n = Some (Some st) /\
        Z.land st (Z.shiftl 1 3) = 0)).
Proof.
  assert (G : forall want_full,
             exists ready w',
               (o <- wait_mailbox want_full ;; ret (wait_succeeded o)) w
               = Some (ready, w') /\
               trace w' = trace w /\ txrx w' = txrx w /\
               mailbox_diagnostics_ w' = mailbox_diagnostics_ w /\
               (ready = true ->
                exists n st,
                  syncman w' = skipn (S n) (syncman w) /\
                  nth_error (syncman w) n = Some (Some st) /\
                  nonzero (Z.land st (Z.shiftl 1 3)) = want_full)).
  { intros want_full.
    destruct (wait_mailbox_outcome want_full w)
      as (o & w' & E & Ht & Hx & Hm & Ho).
    exists (wait_succeeded o), w'. unfold bind. rewrite E. unfold ret.
    split; [reflexivity|]. repeat (split; [assumption|]).
    destruct o; cbn [wait_succeeded]; intros Hr; try discriminate Hr.
    exact Ho. }
  split.
  - destruct (G true) as (ready & w' & E & Ht & Hx & Hm & Hr).
    exists ready, w'. split; [exact E|]. repeat (split; [assumption|]).
    intros Ready. destruct (Hr Ready) as (n & st & Hsm & Hn & Hb).
    exists n, st. split; [exact Hsm|]. split; [exact Hn|]. unfold nonzero in Hb.
    apply negb_true_iff, Z.eqb_neq in Hb. exact Hb.
  - destruct (G false) as (ready & w' & E & Ht & Hx & Hm & Hr).
    exists ready, w'. split; [exact E|]. repeat (split; [assumption|]).
    intros Ready. destruct (Hr Ready) as (n & st & Hsm & Hn & Hb).
    exists n, st. split; [exact Hsm|]. split; [exact Hn|]. unfold nonzero in Hb.
    apply negb_false_iff, Z.eqb_eq in Hb. exact Hb.
Qed.

Lemma wait_true_means_status_seen_witness :
  exists w',
    waitForReadMailboxReady (scripted [] [] [Some 0; Some 40] [Some 0; Some 8] [] [])
      = Some (true, w') /\
    trace w' = [] /\
    exists n st,
      syncman w' = skipn (S n) [Some 0; Some 8] /\
      nth_error [Some 0; Some 8] n = Some (Some st) /\
      Z.land st (Z.shiftl 1 3) <> 0.
Proof.
  destruct (proj1 (wait_true_means_status_seen
                     (scripted [] [] [Some 0; Some 40] [Some 0; Some 8] [] [])))
    as (ready & w' & E & Ht & _ & _ & Hr).
  assert (Hready : ready = true).
  { vm_compute in E. injection E as <- _. reflexivity. }
  subst ready. exists w'. split; [exact E|]. split; [exact Ht|].
  exact (Hr eq_refl).
Defined.

(** X20.  A wait on a mailbox returns false only on account of the clock:
    the start reading failed, or the last reading taken failed, or that
    reading gave [timediff_ms] of 100 or more against the start reading.
    With normalised readings the last case means that more than 99 ms have
    passed; it can be less than 100 ms, since [timediff_ms] truncates the
    nanosecond difference apart from the seconds. *)
Theorem wait_gives_up_on_the_clock (w w' : World) :
  waitForReadMailboxReady w = Some (false, w') \/
  waitForWriteMailboxReady w = Some (false, w') ->
  trace w' = trace w /\
  (hd None (clock w) = None \/
   exists start n,
     hd None (clock w) = Some start /\
     clock w' = skipn (S n) (tl (clock w)) /\
     match nth_error (tl (clock w)) n with
     | Some (Some current) =>
         100 <= timediff_ms current start /\
         (0 <= tv_nsec current < 1000000000 ->
          0 <= tv_nsec start < 1000000000 ->
          -2147482 <= tv_sec current - tv_sec start <= 2147482 ->
          99000000 < elapsed_ns current start)
     | _ => True
     end).
Proof.
  assert (G : forall want_full,
             (o <- wait_mailbox want_full ;; ret (wait_succeeded o)) w
             = Some (false, w') ->
             trace w' = trace w /\
             (hd None (clock w) = None \/
              exists start n,
                hd None (clock w) = Some start /\
                clock w' = skipn (S n) (tl (clock w)) /\
                match nth_error (tl (clock w)) n with
                | Some (Some current) =>
                    100 <= timediff_ms current start /\
                    (0 <= tv_nsec current < 1000000000 ->
                     0 <= tv_nsec start < 1000000000 ->
                     -2147482 <= tv_sec current - tv_sec start <= 2147482 ->
                     99000000 < elapsed_ns current start)
                | _ => True
                end)).
  { intros want_full.
    destruct (wait_mailbox_outcome want_full w)
      as (o & w1 & E & Ht & _ & _ & Ho).
    unfold bind. rewrite E. unfold ret. intros Eq.
    destruct o as [| |td]; cbn [wait_succeeded] in Eq; try discriminate Eq;
      injection Eq as <-; (split; [exact Ht|]).
    - destruct Ho as [Hstart | (n & Hn & Hc)]; [left; exact Hstart|].
      destruct (hd None (clock w)) as [start|] eqn:Hstart;
        [|left; reflexivity].
      right. exists start, n. split; [reflexivity|]. split; [exact Hn|].
      destruct Hc as [Hc | Hc]; rewrite Hc; exact I.
    - destruct Ho as (start & n & cur & Hstart & Hn & Hc & Htd & Hge).
      right. exists start, n. split; [exact Hstart|]. split; [exact Hn|].
      rewrite Hc. subst td. split; [exact Hge|].
      intros N1 N2 N3.
      pose proof (timediff_ms_error cur start N1 N2 N3). lia. }
  intros [E | E]; [exact (G true E) | exact (G false E)].
Qed.

Lemma wait_gives_up_on_the_clock_witness :
  exists w',
    waitForReadMailboxReady
      (mkWorld true 0 (fun _ => 0xCC) [] []
               [Some {| tv_sec := 0; tv_nsec := 999999999 |};
                Some {| tv_sec := 1; tv_nsec := 99000000 |}]
               [Some 0] [] [] [] (mkMbxDiagnostics 0 0 0 0 0) [] [])
    = Some (false, w') /\
    trace w' = [] /\
    timediff_ms {| tv_sec := 1; tv_nsec := 99000000 |}
                {| tv_sec := 0; tv_nsec := 999999999 |} = 100 /\
    elapsed_ns {| tv_sec := 1; tv_nsec := 99000000 |}
               {| tv_sec := 0; tv_nsec := 999999999 |} = 99000001.
Proof.
  eexists. split; [vm_compute; reflexivity|].
  split; [|split; reflexivity].
  match goal with
  | |- trace ?w1 = _ =>
      exact (proj1 (wait_gives_up_on_the_clock
                      (mkWorld true 0 (fun _ => 0xCC) [] []
                         [Some {| tv_sec := 0; tv_nsec := 999999999 |};
                          Some {| tv_sec := 1; tv_nsec := 99000000 |}]
                         [Some 0] [] [] [] (mkMbxDiagnostics 0 0 0 0 0) [] [])
                      w1 (or_introl eq_refl)))
  end.
Defined.


(** ** The EEPROM read path *)

Lemma write_bytes_length_le (buf bs : list byte) (n : nat) :
  (length buf <= n)%nat -> (length bs <= n)%nat ->
  (length (write_bytes buf 0 bs) <= n)%nat.
Proof.
  intros Hb Hs. unfold write_bytes. cbn [firstn app Nat.add].
  rewrite length_app, length_skipn. lia.
Qed.

Lemma write_bytes_over (buf bs : list byte) :
  (length buf <= length bs)%nat -> write_bytes buf 0 bs = bs.
Proof.
  intros Hle. unfold write_bytes. cbn [firstn app Nat.add].
  rewrite skipn_all2 by exact Hle. apply app_nil_r.
Qed.

(** With nothing left on the transport, the last answer of a run is the
    last answer of the script. *)
Lemma last_answer_of_script (w w' : World) (wkc_end : Z) (rx : list byte) :
  last_answer w w' wkc_end rx -> txrx w' = [] ->
  last (txrx w) TxDropped = TxReplied 1 wkc_end rx.
Proof. intros (before & ->) ->. apply last_last. Qed.

Section EepromRead.
Context `{Wg0xHeader}.

(** A read through the mailbox never makes the caller's buffer longer than
    the length asked for. *)
Lemma readMailbox_buffer_length address data length w rc data' w' :
  readMailbox address data length w = Some ((rc, data'), w') ->
  (List.length data <= Z.to_nat length)%nat ->
  (List.length data' <= Z.to_nat length)%nat.
Proof.
  intros E Hlen.
  destruct (readMailbox_outcome _ _ _ _ _ _ _ E) as (_ & R2 & R3).
  destruct (Z.eq_dec rc 0) as [Hrc | Hrc].
  - destruct (ec_state_ok w) eqn:Hok.
    + destruct (R3 Hrc eq_refl) as (stat & _ & ->).
      apply write_bytes_length_le; [exact Hlen|].
      rewrite length_firstn. lia.
    + destruct (readMailbox_not_operational _ _ _ _ _ _ _ Hok E) as (-> & _).
      exact Hlen.
  - rewrite (R2 Hrc). exact Hlen.
Qed.

Lemma readSpiEepromCmd_length cmd w ok cmd' w' :
  readSpiEepromCmd cmd w = Some ((ok, cmd'), w') ->
  (List.length cmd <= Z.to_nat SPI_EEPROM_CMD_SIZE)%nat ->
  (List.length cmd' <= Z.to_nat SPI_EEPROM_CMD_SIZE)%nat.
Proof.
  unfold readSpiEepromCmd, bind, ret. intros E.
  destruct (readMailbox SPI_COMMAND_ADDR cmd SPI_EEPROM_CMD_SIZE w)
    as [[[rc c] w1]|] eqn:E1; [|discriminate E].
  injection E as _ <- _.
  exact (readMailbox_buffer_length _ _ _ _ _ _ _ E1).
Qed.

(** A read of the SPI command register that succeeded on an operational
    device: the register as handed back is the head of the last answer of
    the transport. *)
Lemma readSpiEepromCmd_reply cmd w cmd' w' :
  readSpiEepromCmd cmd w = Some ((true, cmd'), w') ->
  ec_state_ok w = true ->
  logic_wkc w <> 1 ->
  (List.length cmd <= Z.to_nat SPI_EEPROM_CMD_SIZE)%nat ->
  exists wkc_end rx,
    last_answer w w' wkc_end rx /\
    (reply_covers rx (SPI_EEPROM_CMD_SIZE + 1) ->
     computeChecksum rx (SPI_EEPROM_CMD_SIZE + 1) = 0 /\
     cmd' = firstn (Z.to_nat SPI_EEPROM_CMD_SIZE) rx).
Proof.
  unfold readSpiEepromCmd, bind, ret. intros E Hok Hidle Hlen.
  destruct (readMailbox SPI_COMMAND_ADDR cmd SPI_EEPROM_CMD_SIZE w)
    as [[[rc c] w1]|] eqn:E1; [|discriminate E].
  injection E as Hrc <- <-. apply Z.eqb_eq in Hrc. subst rc.
  destruct (readMailbox_reply _ _ _ _ _ _ E1 Hok Hidle)
    as (Hle & wkc_end & rx & Hlast & Hrx).
  exists wkc_end, rx. split; [exact Hlast|].
  intros Hc. destruct (Hrx Hc) as [Hsum ->]. split; [exact Hsum|].
  apply write_bytes_over. rewrite (reply_covers_length _ _ Hle Hc).
  exact Hlen.
Qed.

Lemma spi_readback_loop_reply turns operation : forall stat w w',
  spi_readback_loop turns operation stat w = Some (true, w') ->
  ec_state_ok w = true ->
  logic_wkc w <> 1 ->
  (List.length stat <= Z.to_nat SPI_EEPROM_CMD_SIZE)%nat ->
  exists stat' wkc_end rx,
    last_answer w w' wkc_end rx /\
    spi_operation stat' = operation /\ spi_busy stat' = false /\
    (reply_covers rx (SPI_EEPROM_CMD_SIZE + 1) ->
     computeChecksum rx (SPI_EEPROM_CMD_SIZE + 1) = 0 /\
     stat' = firstn (Z.to_nat SPI_EEPROM_CMD_SIZE) rx).
Proof.
  induction turns as [|turns IH]; intros stat w w' E Hok Hidle Hlen.
  - discriminate E.
  - cbn [spi_readback_loop] in E. unfold bind in E.
    destruct (readSpiEepromCmd stat w) as [[[ok c] w1]|] eqn:E1;
      [|discriminate E].
    destruct (keeps_readSpiEepromCmd _ _ _ _ E1) as (Ho1 & Hl1 & _).
    destruct ok; cbn [negb] in E; [|discriminate E].
    destruct (spi_operation c =? operation) eqn:Hop; cbn [negb] in E;
      [|discriminate E].
    apply Z.eqb_eq in Hop.
    destruct (spi_busy c) eqn:Hb; cbn [negb] in E.
    + destruct (IH _ _ _ E) as (c' & wkc_end & rx & Hlast & R);
        [rewrite Ho1; exact Hok | rewrite Hl1; exact Hidle
        | exact (readSpiEepromCmd_length _ _ _ _ _ E1 Hlen) |].
      exists c', wkc_end, rx. split; [|exact R].
      exact (last_answer_after _ _ _ _ _ _ _ (keeps_readSpiEepromCmd stat)
               E1 Hlast).
    + unfold ret in E. injection E as <-.
      destruct (readSpiEepromCmd_reply _ _ _ _ E1 Hok Hidle Hlen)
        as (wkc_end & rx & Hlast & Hrx).
      exists c, wkc_end, rx. auto.
Qed.

(** [sendSpiEepromCmd] that returned true: the device was operational, and
    the register read back last came in the last answer of the transport. *)
Lemma sendSpiEepromCmd_reply cmd w w' :
  sendSpiEepromCmd cmd w = Some (true, w') ->
  logic_wkc w <> 1 ->
  ec_state_ok w = true /\
  exists stat wkc_end rx,
    last_answer w w' wkc_end rx /\
    spi_operation stat = spi_operation cmd /\ spi_busy stat = false /\
    (reply_covers rx (SPI_EEPROM_CMD_SIZE + 1) ->
     computeChecksum rx (SPI_EEPROM_CMD_SIZE + 1) = 0 /\
     stat = firstn (Z.to_nat SPI_EEPROM_CMD_SIZE) rx).
Proof.
  intros E Hidle. unfold sendSpiEepromCmd in E. unfold bind at 1 in E.
  destruct (waitForSpiEepromReady w) as [[ready w1]|] eqn:E1; [|discriminate E].
  destruct (keeps_waitForSpiEepromReady _ _ _ E1) as (Ho1 & Hl1 & _).
  destruct ready; cbn [negb] in E; [|discriminate E].
  unfold bind at 1 in E.
  destruct (writeMailbox SPI_COMMAND_ADDR cmd SPI_EEPROM_CMD_SIZE w1)
    as [[rc w2]|] eqn:E2; [|discriminate E].
  destruct (keeps_writeMailbox _ _ _ _ _ _ E2) as (Ho2 & Hl2 & _).
  destruct (rc =? 0) eqn:Hrc; cbn [negb] in E; [|discriminate E].
  apply Z.eqb_eq in Hrc. subst rc.
  pose proof (writeMailbox_zero_operational _ _ _ _ _ E2) as Hok1.
  assert (Hok : ec_state_ok w = true) by (rewrite <- Ho1; exact Hok1).
  split; [exact Hok|].
  unfold bind, uninitialised in E.
  apply spi_readback_loop_reply in E.
  - destruct E as (stat & wkc_end & rx & Hlast & R).
    exists stat, wkc_end, rx. split; [|exact R].
    apply (last_answer_after _ _ _ _ _ _ _ keeps_waitForSpiEepromReady E1).
    exact (last_answer_after _ _ _ _ _ _ _ (keeps_writeMailbox _ _ _) E2 Hlast).
  - rewrite Ho2. exact Hok1.
  - rewrite Hl2, Hl1. exact Hidle.
  - rewrite length_map, length_seq. apply Nat.le_refl.
Qed.

End EepromRead.

(** X21.  [sendSpiEepromCmd] returns true only on a device in an operational
    state, and only when the command register that it read back last shows
    the operation of the command and the busy bit clear.  That read-back
    is what the device sent: the last answer that the transport gave in the
    call came with working counter 1, its checksum folded to zero, and the
    register is its leading bytes.  (The working counter that is put back
    after a lost frame is taken to differ from 1.) *)
Theorem spi_command_confirmed_by_readback `{Wg0xHeader} (cmd : list byte)
    (w w' : World) :
  sendSpiEepromCmd cmd w = Some (true, w') ->
  logic_wkc w <> 1 ->
  ec_state_ok w = true /\
  ec_state_ok w' = true /\
  exists stat wkc_end rx,
    last_answer w w' wkc_end rx /\
    spi_operation stat = spi_operation cmd /\ spi_busy stat = false /\
    (reply_covers rx (SPI_EEPROM_CMD_SIZE + 1) ->
     computeChecksum rx (SPI_EEPROM_CMD_SIZE + 1) = 0 /\
     stat = firstn (Z.to_nat SPI_EEPROM_CMD_SIZE) rx).
Proof.
  intros E Hidle.
  destruct (sendSpiEepromCmd_reply _ _ _ E Hidle) as (Hok & R).
  split; [exact Hok|]. split; [|exact R].
  rewrite (proj1 (keeps_sendSpiEepromCmd _ _ _ _ E)). exact Hok.
Qed.

Lemma spi_command_confirmed_by_readback_witness :
  exists w',
    sendSpiEepromCmd (H:=sample_header) [1; 0; 0x10]
      (scripted [1; 2; 3] (read_served [1; 0; 0x10] ++ write_served ++
                           read_served [1; 0; 0x10])
                (repeat (Some 0) 3) [Some 8; Some 0; Some 8] [] (repeat true 6))
      = Some (true, w') /\
    ec_state_ok w' = true /\
    spi_busy [1; 0; 0x10] = false.
Proof.
  destruct (sendSpiEepromCmd (H:=sample_header) [1; 0; 0x10]
      (scripted [1; 2; 3] (read_served [1; 0; 0x10] ++ write_served ++
                           read_served [1; 0; 0x10])
                (repeat (Some 0) 3) [Some 8; Some 0; Some 8] [] (repeat true 6)))
    as [[b w']|] eqn:E; [|vm_compute in E; discriminate E].
  assert (Hb : b = true) by (vm_compute in E; injection E as <- _; reflexivity).
  subst b. exists w'. split; [reflexivity|].
  assert (Hrest : txrx w' = [])
    by (vm_compute in E; injection E as <-; reflexivity).
  assert (Hidle : logic_wkc
            (scripted [1; 2; 3] (read_served [1; 0; 0x10] ++ write_served ++
                                 read_served [1; 0; 0x10])
                      (repeat (Some 0) 3) [Some 8; Some 0; Some 8] []
                      (repeat true 6)) <> 1) by (cbn; lia).
  destruct (spi_command_confirmed_by_readback (H:=sample_header) _ _ _ E Hidle)
    as (_ & Hok' & stat & wkc_end & rx & Hlast & _ & Hbusy & Hrx).
  apply last_answer_of_script in Hlast; [|exact Hrest].
  vm_compute in Hlast. injection Hlast as _ <-.
  assert (Hcov : reply_covers (H:=sample_header) (posted [1; 0; 0x10])
                              (SPI_EEPROM_CMD_SIZE + 1)).
  { unfold reply_covers. cbv zeta. apply Nat.leb_le. vm_compute. reflexivity. }
  destruct (Hrx Hcov) as [_ Hstat]. vm_compute in Hstat. subst stat.
  split; [exact Hok' | exact Hbusy].
Defined.

(** X22.  What [readEepromPage] leaves behind.  A page or a length out of
    range is refused before anything is touched.  Otherwise only the
    destination changes: after a failure its first [length] bytes are zero,
    the earlier content is gone; a success means a device in an operational
    state, and the destination then holds the leading [length] bytes of the
    last answer that the transport gave in the call, which came with
    working counter 1 and a checksum that folded to zero.  (The working
    counter that is put back after a lost frame is taken to differ from
    1.) *)
Theorem readEepromPage_results `{Wg0xHeader} (m : Memory) (page : Z)
    (data : Pointer) (length : Z) (w : World) (ok : bool) (m' : Memory)
    (w' : World) :
  readEepromPage m page data length w = Some ((ok, m'), w') ->
  (MAX_EEPROM_PAGE_SIZE < length \/ NUM_EEPROM_PAGES <= page ->
   ok = false /\ m' = m /\ w' = w) /\
  (length <= MAX_EEPROM_PAGE_SIZE -> page < NUM_EEPROM_PAGES ->
   (ok = false -> m' = memset m data 0 length) /\
   (ok = true -> logic_wkc w <> 1 ->
    ec_state_ok w = true /\
    exists wkc_end rx,
      last_answer w w' wkc_end rx /\
      (reply_covers rx (length + 1) ->
       computeChecksum rx (length + 1) = 0 /\
       m' = store m data
              (write_bytes (load (memset m data 0 length) data) 0
                           (firstn (Z.to_nat length) rx))))).
Proof.
  intros E. unfold readEepromPage in E. split.
  - intros Hout.
    destruct (MAX_EEPROM_PAGE_SIZE <? length) eqn:H1.
    + injection E as <- <- <-. auto.
    + destruct (NUM_EEPROM_PAGES <=? page) eqn:H2.
      * injection E as <- <- <-. auto.
      * apply Z.ltb_ge in H1. apply Z.leb_gt in H2. lia.
  - intros Hlen Hpage.
    apply Z.ltb_ge in Hlen. apply Z.leb_gt in Hpage.
    rewrite Hlen, Hpage in E. unfold bind in E.
    set (m0 := memset m data 0 length) in *.
    destruct (writeMailbox SPI_BUFFER_ADDR (actuator_info_ m0)
                ACTUATOR_INFO_SIZE w) as [[rc w1]|] eqn:E1; [|discriminate E].
    destruct (keeps_writeMailbox _ _ _ _ _ _ E1) as (Ho1 & Hl1 & _).
    destruct (rc =? 0) eqn:Hrc0; cbn [negb] in E;
      [|injection E as <- <- <-; split; [reflexivity | discriminate]].
    apply Z.eqb_eq in Hrc0. subst rc.
    destruct (sendSpiEepromCmd (spi_build_read page) w1) as [[sent w2]|] eqn:E2;
      [|discriminate E].
    destruct (keeps_sendSpiEepromCmd _ _ _ _ E2) as (Ho2 & Hl2 & _).
    destruct sent; cbn [negb] in E;
      [|injection E as <- <- <-; split; [reflexivity | discriminate]].
    destruct (readMailbox SPI_BUFFER_ADDR (load m0 data) length w2)
      as [[[rc2 bs] w3]|] eqn:E3; [|discriminate E].
    destruct (readMailbox_result _ _ _ _ _ _ _ E3) as (_ & R2).
    assert (Hstore : forall bs0, store m0 data bs0 = store m data bs0).
    { intros bs0. unfold m0, memset. destruct data; reflexivity. }
    destruct (rc2 =? 0) eqn:Hrc; cbn [negb] in E; unfold ret in E;
      injection E as <- <- <-.
    + split; [discriminate|]. intros _ Hidle.
      apply Z.eqb_eq in Hrc. subst rc2.
      pose proof (writeMailbox_zero_operational _ _ _ _ _ E1) as Hok.
      split; [exact Hok|].
      destruct (readMailbox_reply _ _ _ _ _ _ E3)
        as (_ & wkc_end & rx & Hlast & Hrx);
        [rewrite Ho2, Ho1; exact Hok | rewrite Hl2, Hl1; exact Hidle|].
      exists wkc_end, rx. split.
      * apply (last_answer_after _ _ _ _ _ _ _ (keeps_writeMailbox _ _ _) E1).
        exact (last_answer_after _ _ _ _ _ _ _ (keeps_sendSpiEepromCmd _)
                 E2 Hlast).
      * intros Hc. destruct (Hrx Hc) as [Hsum ->].
        split; [exact Hsum | apply Hstore].
    + split; [|discriminate]. intros _.
      apply Z.eqb_neq in Hrc. rewrite (R2 Hrc).
      unfold m0, memset. destruct data; destruct m; reflexivity.
Qed.

Lemma readEepromPage_results_witness :
  exists m' w',
    readEepromPage calibrated 1 ToBuffer 256 eeprom_answers
      = Some ((true, m'), w') /\
    buffer m' = heating_page /\
    actuator_info_ m' = actuator_info_ calibrated.
Proof.
  destruct (readEepromPage calibrated 1 ToBuffer 256 eeprom_answers)
    as [[[b m'] w']|] eqn:E; [|vm_compute in E; discriminate E].
  assert (Hb : b = true) by (vm_compute in E; injection E as <- _ _; reflexivity).
  subst b. exists m', w'. split; [reflexivity|].
  assert (Hrest : txrx w' = [])
    by (vm_compute in E; injection E as _ <-; reflexivity).
  assert (Hidle : logic_wkc eeprom_answers <> 1) by (cbn; lia).
  assert (Hlen : 256 <= MAX_EEPROM_PAGE_SIZE) by (vm_compute; discriminate).
  assert (Hpage : 1 < NUM_EEPROM_PAGES) by reflexivity.
  destruct (proj2 (proj2 (readEepromPage_results (H:=sample_header)
                            _ _ _ _ _ _ _ _ E) Hlen Hpage) eq_refl Hidle)
    as (_ & wkc_end & rx & Hlast & Hrx).
  apply last_answer_of_script in Hlast; [|exact Hrest].
  assert (Hsent : rx = posted heating_page).
  { vm_compute in Hlast. injection Hlast as _ <-. vm_compute. reflexivity. }
  subst rx.
  assert (Hcov : reply_covers (H:=sample_header) (posted heating_page)
                              (256 + 1)).
  { unfold reply_covers. cbv zeta. apply Nat.leb_le. vm_compute. reflexivity. }
  destruct (Hrx Hcov) as [_ ->]. split; vm_compute; reflexivity.
Defined.

(** ** The EEPROM write path *)

Lemma firstn_same_shortness (d d' : list byte) (l : Z) :
  firstn (Z.to_nat l) d = firstn (Z.to_nat l) d' ->
  (Z.of_nat (length d) <? l) = (Z.of_nat (length d') <? l).
Proof.
  intros E. apply (f_equal (@length byte)) in E.
  rewrite !length_firstn in E.
  destruct (Z.of_nat (length d) <? l) eqn:H1;
    destruct (Z.of_nat (length d') <? l) eqn:H2; try reflexivity;
    rewrite ?Z.ltb_lt, ?Z.ltb_ge in *; lia.
Qed.

Section EepromWrite.
Context `{Wg0xHeader}.

Lemma build_reads_length_bytes this address length type seqnum d d' :
  firstn (Z.to_nat length) d = firstn (Z.to_nat length) d' ->
  WG0XMbxCmd_build this address length type seqnum (Some d)
  = WG0XMbxCmd_build this address length type seqnum (Some d').
Proof.
  intros E. unfold WG0XMbxCmd_build.
  rewrite (firstn_same_shortness _ _ _ E), E. reflexivity.
Qed.

Lemma writeMailbox_firstn (address : Z) (d d' : list byte) (length : Z)
    (w : World) :
  firstn (Z.to_nat length) d = firstn (Z.to_nat length) d' ->
  writeMailbox address d length w = writeMailbox address d' length w.
Proof.
  intros E.
  unfold writeMailbox, writeMailbox_, writeMailbox_traced, bind.
  destruct (lockMailbox w) as [[locked w1]|]; [|reflexivity].
  destruct (negb locked); [reflexivity|].
  destruct (verifyDeviceStateForMailboxOperation w1) as [[ok w2]|]; [|reflexivity].
  destruct (negb ok); [reflexivity|].
  destruct (local_WG0XMbxCmd w2) as [[cmd w3]|]; [|reflexivity].
  destruct (get_mbx_counter w3) as [[seqnum w4]|]; [|reflexivity].
  rewrite (build_reads_length_bytes cmd address length LOCAL_BUS_WRITE seqnum
             d d' E).
  reflexivity.
Qed.

(** X23.  [writeMailbox] looks at the first [length] bytes at [data] and at
    nothing behind them: two buffers that agree there give the same run,
    down to the frames sent and the counters. *)
Theorem writeMailbox_reads_length_bytes (address : Z) (d d' : list byte)
    (length : Z) (w : World) :
  firstn (Z.to_nat length) d = firstn (Z.to_nat length) d' ->
  writeMailbox address d length w = writeMailbox address d' length w.
Proof. exact (writeMailbox_firstn address d d' length w). Qed.

Context `{Wg0xEepromHeader}.

Lemma page_buffer_padded (buf data : list byte) (length : Z) :
  Z.of_nat (List.length buf) = MAX_EEPROM_PAGE_SIZE ->
  0 <= length <= MAX_EEPROM_PAGE_SIZE ->
  length <= Z.of_nat (List.length data) ->
  write_bytes (write_bytes buf 0 (firstn (Z.to_nat length) data))
              (Z.to_nat length)
              (repeat 0xFF (Z.to_nat (MAX_EEPROM_PAGE_SIZE - length)))
  = firstn (Z.to_nat length) data
    ++ repeat 0xFF (Z.to_nat (MAX_EEPROM_PAGE_SIZE - length)).
Proof.
  intros Hbuf Hlen Hdata. unfold write_bytes. cbn [firstn app].
  assert (Hn : List.length (firstn (Z.to_nat length) data) = Z.to_nat length).
  { rewrite length_firstn. lia. }
  rewrite firstn_app, Hn, Nat.sub_diag. cbn [firstn]. rewrite app_nil_r.
  rewrite firstn_all2 by lia.
  rewrite repeat_length.
  rewrite skipn_all2; [rewrite app_nil_r; reflexivity|].
  rewrite length_app, Hn, length_skipn. cbn [Nat.add]. lia.
Qed.

(** X24.  Writing a page shorter than the page size is writing the whole page with
    the rest filled with 0xFF: the two calls run alike, frame for frame.
    Nothing of the local buffer that holds the padded copy goes out as it
    was found. *)
Theorem short_page_is_padded (page : Z) (data : list byte) (length : Z)
    (w : World) :
  0 <= length <= MAX_EEPROM_PAGE_SIZE ->
  MAX_EEPROM_PAGE_SIZE <= 264 ->
  length <= Z.of_nat (List.length data) ->
  writeEepromPage page data length w
  = writeEepromPage page
      (firstn (Z.to_nat length) data
       ++ repeat 0xFF (Z.to_nat (MAX_EEPROM_PAGE_SIZE - length)))
      MAX_EEPROM_PAGE_SIZE w.
Proof.
  intros Hlen Hmax Hdata. unfold writeEepromPage.
  replace (264 <? length) with false by (symmetry; apply Z.ltb_ge; lia).
  replace (264 <? MAX_EEPROM_PAGE_SIZE) with false
    by (symmetry; apply Z.ltb_ge; lia).
  destruct (NUM_EEPROM_PAGES <=? page); [reflexivity|].
  unfold bind at 1. unfold bind at 7.
  destruct (waitForSpiEepromReady w) as [[ready w1]|]; [|reflexivity].
  destruct (negb ready); [reflexivity|].
  rewrite Z.ltb_irrefl.
  unfold bind at 1. unfold bind at 6. unfold uninitialised at 1 3.
  set (buf := map (garbage w1) (seq 0 (Z.to_nat MAX_EEPROM_PAGE_SIZE))).
  assert (Hbuf : Z.of_nat (List.length buf) = MAX_EEPROM_PAGE_SIZE).
  { unfold buf. rewrite length_map, length_seq. lia. }
  set (padded := firstn (Z.to_nat length) data
                 ++ repeat 0xFF (Z.to_nat (MAX_EEPROM_PAGE_SIZE - length))).
  unfold bind at 1. unfold bind at 5.
  assert (Hsame : forall k : Z -> M bool,
            match (if length <? MAX_EEPROM_PAGE_SIZE
                   then if Z.of_nat (List.length data) <? length
                        then undefined
                        else ret (write_bytes
                                    (write_bytes buf 0
                                       (firstn (Z.to_nat length) data))
                                    (Z.to_nat length)
                                    (repeat 0xFF
                                       (Z.to_nat (MAX_EEPROM_PAGE_SIZE - length))))
                   else ret data) w1 with
            | Some (write_buf, w2) =>
                bind (writeMailbox SPI_BUFFER_ADDR write_buf MAX_EEPROM_PAGE_SIZE)
                     k w2
            | None => None
            end
            = bind (writeMailbox SPI_BUFFER_ADDR padded MAX_EEPROM_PAGE_SIZE)
                   k w1).
  { intros k.
    replace (Z.of_nat (List.length data) <? length) with false
      by (symmetry; apply Z.ltb_ge; lia).
    destruct (length <? MAX_EEPROM_PAGE_SIZE) eqn:Hlt; unfold ret.
    - rewrite page_buffer_padded by (assumption || lia). reflexivity.
    - apply Z.ltb_ge in Hlt. assert (length = MAX_EEPROM_PAGE_SIZE) as Heq by lia.
      unfold bind.
      rewrite (writeMailbox_firstn SPI_BUFFER_ADDR data padded
                 MAX_EEPROM_PAGE_SIZE w1); [reflexivity|].
      unfold padded. rewrite Heq, Z.sub_diag. cbn [Z.to_nat repeat].
      rewrite app_nil_r, firstn_firstn, Nat.min_id. reflexivity. }
  cbv zeta. apply Hsame.
Qed.

Lemma keeps_readEepromStatusReg reg : keeps_state (readEepromStatusReg reg).
Proof.
  unfold readEepromStatusReg. cbv zeta.
  apply keeps_bind; [apply keeps_writeMailbox | intros rc].
  destruct (negb (rc =? 0)); [apply keeps_ret|].
  apply keeps_bind; [apply keeps_uninitialised | intros cmd].
  apply keeps_bind; [apply keeps_sendSpiEepromCmd | intros sent].
  destruct (negb sent); [apply keeps_ret|].
  apply keeps_bind; [apply keeps_readMailbox | intros [rc2 d]].
  destruct (negb (rc2 =? 0)); apply keeps_ret.
Qed.

(** The status register handed back by a [readEepromStatusReg] that
    succeeded: the device was operational, and the register is the second
    byte of the last answer of the transport. *)
Lemma readEepromStatusReg_reply reg w reg' w' :
  readEepromStatusReg reg w = Some ((true, reg'), w') ->
  logic_wkc w <> 1 ->
  ec_state_ok w = true /\
  exists wkc_end rx,
    last_answer w w' wkc_end rx /\
    (reply_covers rx (2 + 1) ->
     computeChecksum rx (2 + 1) = 0 /\ reg' = nth 1 rx 0).
Proof.
  unfold readEepromStatusReg. cbv zeta. intros E Hidle.
  unfold bind at 1 in E.
  destruct (writeMailbox SPI_BUFFER_ADDR [0xD7; 0x00] 2 w) as [[rc w1]|] eqn:E1;
    [|discriminate E].
  destruct (keeps_writeMailbox _ _ _ _ _ _ E1) as (Ho1 & Hl1 & _).
  destruct (rc =? 0) eqn:Hrc0; cbn [negb] in E; [|discriminate E].
  apply Z.eqb_eq in Hrc0. subst rc.
  pose proof (writeMailbox_zero_operational _ _ _ _ _ E1) as Hok.
  split; [exact Hok|].
  unfold bind at 1 in E. unfold uninitialised in E. unfold bind at 1 in E.
  match type of E with
  | context [sendSpiEepromCmd ?c w1] =>
      destruct (sendSpiEepromCmd c w1) as [[sent w2]|] eqn:E2; [|discriminate E];
      pose proof (keeps_sendSpiEepromCmd c) as K2
  end.
  destruct (K2 _ _ _ E2) as (Ho2 & Hl2 & _).
  destruct sent; cbn [negb] in E; [|discriminate E].
  unfold bind in E.
  destruct (readMailbox SPI_BUFFER_ADDR [0xD7; 0x00] 2 w2)
    as [[[rc2 d] w3]|] eqn:E3; [|discriminate E].
  destruct (rc2 =? 0) eqn:Hrc; cbn [negb] in E; [|discriminate E].
  unfold ret in E. injection E as <- <-. apply Z.eqb_eq in Hrc. subst rc2.
  destruct (readMailbox_reply _ _ _ _ _ _ E3)
    as (Hle & wkc_end & rx & Hlast & Hrx);
    [rewrite Ho2, Ho1; exact Hok | rewrite Hl2, Hl1; exact Hidle|].
  exists wkc_end, rx. split.
  - apply (last_answer_after _ _ _ _ _ _ _ (keeps_writeMailbox _ _ _) E1).
    exact (last_answer_after _ _ _ _ _ _ _ K2 E2 Hlast).
  - intros Hc. destruct (Hrx Hc) as [Hsum ->]. split; [exact Hsum|].
    pose proof (reply_covers_length _ _ Hle Hc) as Hn.
    rewrite write_bytes_over by (rewrite Hn; cbn; lia).
    change (Z.to_nat 2) with 2%nat in *.
    destruct rx as [|b0 [|b1 rx]]; try discriminate Hn. reflexivity.
Qed.

(** The status loop, when it hands back a register that shows ready, has
    read that register in its last turn. *)
Lemma eeprom_status_loop_ready turns : forall reg w reg' w',
  eeprom_status_loop turns reg w = Some (Some reg', w') ->
  eeprom_ready reg' = true ->
  logic_wkc w <> 1 ->
  (turns = O /\ reg' = reg /\ w' = w) \/
  (ec_state_ok w = true /\
   exists wkc_end rx,
     last_answer w w' wkc_end rx /\
     (reply_covers rx (2 + 1) ->
      computeChecksum rx (2 + 1) = 0 /\ reg' = nth 1 rx 0)).
Proof.
  induction turns as [|turns IH]; intros reg w reg' w' E Hready Hidle;
    cbn [eeprom_status_loop] in E.
  - unfold ret in E. injection E as <- <-. left. auto.
  - right. unfold bind in E.
    destruct (readEepromStatusReg reg w) as [[[ok reg1] w1]|] eqn:E1;
      [|discriminate E].
    destruct (keeps_readEepromStatusReg _ _ _ _ E1) as (Ho1 & Hl1 & _).
    destruct ok; cbn [negb] in E; [|discriminate E].
    destruct (readEepromStatusReg_reply _ _ _ _ E1 Hidle) as (Hok & R).
    split; [exact Hok|].
    destruct (eeprom_ready reg1) eqn:Hr1.
    + unfold ret in E. injection E as <- <-. exact R.
    + destruct (IH _ _ _ _ E Hready) as [(_ & -> & _) | (_ & we & rx & Hlast & Hrx)].
      * rewrite Hl1. exact Hidle.
      * rewrite Hr1 in Hready. discriminate Hready.
      * exists we, rx. split; [|exact Hrx].
        exact (last_answer_after _ _ _ _ _ _ _ (keeps_readEepromStatusReg reg)
                 E1 Hlast).
Qed.

(** X25.  What [writeEepromPage] answers.  A length above 264 or a page out
    of range is refused before anything is sent.  True is returned only on
    a device in an operational state, and only after the status register
    of the EEPROM showed the ready bit; that register is what the device
    sent: the last answer that the transport gave in the call came with
    working counter 1 and a checksum that folded to zero, and the register
    is its second byte.  (The working counter that is put back after a
    lost frame is taken to differ from 1.) *)
Theorem writeEepromPage_results (page : Z) (data : list byte) (length : Z)
    (w : World) :
  (264 < length \/ NUM_EEPROM_PAGES <= page ->
   writeEepromPage page data length w = Some (false, w)) /\
  (forall w',
     writeEepromPage page data length w = Some (true, w') ->
     logic_wkc w <> 1 ->
     ec_state_ok w = true /\
     exists status_reg wkc_end rx,
       last_answer w w' wkc_end rx /\
       eeprom_ready status_reg = true /\
       (reply_covers rx (2 + 1) ->
        computeChecksum rx (2 + 1) = 0 /\ status_reg = nth 1 rx 0)).
Proof.
  unfold writeEepromPage. split.
  - intros Hout. destruct (264 <? length) eqn:H1; [reflexivity|].
    destruct (NUM_EEPROM_PAGES <=? page) eqn:H2; [reflexivity|].
    apply Z.ltb_ge in H1. apply Z.leb_gt in H2. lia.
  - intros w' E Hidle.
    destruct (264 <? length); [discriminate E|].
    destruct (NUM_EEPROM_PAGES <=? page); [discriminate E|].
    unfold bind at 1 in E.
    destruct (waitForSpiEepromReady w) as [[ready w1]|] eqn:E1; [|discriminate E].
    destruct (keeps_waitForSpiEepromReady _ _ _ E1) as (Ho1 & Hl1 & _).
    destruct ready; cbn [negb] in E; [|discriminate E].
    unfold bind at 1 in E. unfold uninitialised at 1 in E.
    unfold bind at 1 in E.
    match type of E with
    | match ?b w1 with _ => _ end = _ =>
        destruct (b w1) as [[write_buf w2]|] eqn:E2; [|discriminate E]
    end.
    assert (K2 : w2 = w1).
    { destruct (length <? MAX_EEPROM_PAGE_SIZE);
        [destruct (Z.of_nat (List.length data) <? length);
           [discriminate E2|] |];
        unfold ret in E2; injection E2 as _ <-; reflexivity. }
    subst w2. unfold bind at 1 in E.
    destruct (writeMailbox SPI_BUFFER_ADDR write_buf MAX_EEPROM_PAGE_SIZE w1)
      as [[rc w3]|] eqn:E3; [|discriminate E].
    destruct (keeps_writeMailbox _ _ _ _ _ _ E3) as (Ho3 & Hl3 & _).
    destruct (rc =? 0) eqn:Hrc0; cbn [negb] in E; [|discriminate E].
    apply Z.eqb_eq in Hrc0. subst rc.
    pose proof (writeMailbox_zero_operational _ _ _ _ _ E3) as Hok1.
    assert (Hok : ec_state_ok w = true) by (rewrite <- Ho1; exact Hok1).
    split; [exact Hok|].
    unfold bind at 1 in E. unfold uninitialised at 1 in E.
    unfold bind at 1 in E.
    match type of E with
    | context [sendSpiEepromCmd ?c w3] =>
        destruct (sendSpiEepromCmd c w3) as [[sent w4]|] eqn:E4; [|discriminate E];
        pose proof (keeps_sendSpiEepromCmd c) as K4
    end.
    destruct (K4 _ _ _ E4) as (Ho4 & Hl4 & _).
    destruct sent; cbn [negb] in E; [|discriminate E].
    unfold bind at 1 in E.
    destruct (waitForEepromReady w4) as [[ready w5]|] eqn:E5; [|discriminate E].
    destruct ready; cbn [negb] in E; [|discriminate E].
    unfold ret in E. injection E as <-.
    unfold waitForEepromReady, bind, uninitialised in E5.
    match type of E5 with
    | context [eeprom_status_loop 20 ?r w4] =>
        destruct (eeprom_status_loop 20 r w4) as [[[reg'|] w6]|] eqn:E6;
          try discriminate E5
    end.
    unfold ret in E5. injection E5 as Hready <-.
    destruct (eeprom_status_loop_ready _ _ _ _ _ E6 Hready)
      as [(Hz & _) | (_ & wkc_end & rx & Hlast & Hrx)].
    + rewrite Hl4, Hl3, Hl1. exact Hidle.
    + discriminate Hz.
    + exists reg', wkc_end, rx. split; [|split; [exact Hready | exact Hrx]].
      apply (last_answer_after _ _ _ _ _ _ _ keeps_waitForSpiEepromReady E1).
      apply (last_answer_after _ _ _ _ _ _ _ (keeps_writeMailbox _ _ _) E3).
      exact (last_answer_after _ _ _ _ _ _ _ K4 E4 Hlast).
Qed.

End EepromWrite.

Lemma writeMailbox_reads_length_bytes_witness :
  writeMailbox SPI_COMMAND_ADDR [1; 2; 3; 4; 5] 3 mailbox_stays_full
  = writeMailbox SPI_COMMAND_ADDR [1; 2; 3] 3 mailbox_stays_full.
Proof.
  exact (writeMailbox_reads_length_bytes (H:=sample_header) SPI_COMMAND_ADDR
           [1; 2; 3; 4; 5] [1; 2; 3] 3 mailbox_stays_full eq_refl).
Defined.

Lemma short_page_is_padded_witness :
  writeEepromPage 1 [1; 2; 3] 3 page_write_served
  = writeEepromPage 1 ([1; 2; 3] ++ repeat 0xFF 261) 264 page_write_served.
Proof.
  exact (short_page_is_padded (H:=sample_header) (H0:=sample_eeprom_header)
           1 [1; 2; 3] 3 page_write_served
           ltac:(cbn; lia) ltac:(cbn; lia) ltac:(cbn; lia)).
Defined.

Lemma writeEepromPage_results_witness :
  exists w',
    writeEepromPage 1 [1; 2; 3] 3 page_write_served = Some (true, w') /\
    ec_state_ok page_write_served = true /\
    eeprom_ready 0x80 = true.
Proof.
  destruct (writeEepromPage 1 [1; 2; 3] 3 page_write_served)
    as [[b w']|] eqn:E; [|vm_compute in E; discriminate E].
  assert (Hb : b = true) by (vm_compute in E; injection E as <- _; reflexivity).
  subst b. exists w'. split; [reflexivity|].
  assert (Hrest : txrx w' = [])
    by (vm_compute in E; injection E as <-; reflexivity).
  assert (Hidle : logic_wkc page_write_served <> 1) by (cbn; lia).
  destruct (proj2 (writeEepromPage_results (H:=sample_header)
                     (H0:=sample_eeprom_header) 1 [1; 2; 3] 3
                     page_write_served) w' E Hidle)
    as (Hok & status_reg & wkc_end & rx & Hlast & Hready & Hrx).
  split; [exact Hok|].
  apply last_answer_of_script in Hlast; [|exact Hrest].
  vm_compute in Hlast. injection Hlast as _ <-.
  assert (Hcov : reply_covers (H:=sample_header) (posted [0; 0x80]) (2 + 1)).
  { unfold reply_covers. cbv zeta. apply Nat.leb_le. vm_compute. reflexivity. }
  destruct (Hrx Hcov) as [_ Hreg]. cbn in Hreg. subst status_reg.
  exact Hready.
Defined.
(** ** CRC of the actuator record *)

(** X26.  [generateCRC] and [verifyCRC] fit together: a record that [generateCRC]
    has sealed verifies, whatever it held before; sealing changes the two
    CRC members only and sealing twice is sealing once.  The CRC over the
    first 252 bytes is enough: with [crc32_264_] overwritten, as a page of
    256 bytes leaves it, the record still verifies. *)
Theorem generated_crc_verifies (crc32 : list byte -> Z)
    (this : WG0XActuatorInfo) :
  (forall bs, 0 <= crc32 bs < 4294967296) ->
  let sealed := WG0XActuatorInfo_generateCRC crc32 this in
  WG0XActuatorInfo_verifyCRC crc32 sealed = true /\
  info_0_252 sealed = info_0_252 this /\
  info_256_260 sealed = info_256_260 this /\
  WG0XActuatorInfo_generateCRC crc32 sealed = sealed /\
  forall crc32_264,
    WG0XActuatorInfo_verifyCRC crc32
      {| info_0_252 := info_0_252 sealed;
         crc32_256_ := crc32_256_ sealed;
         info_256_260 := info_256_260 sealed;
         crc32_264_ := crc32_264 |} = true.
Proof.
  intros Hrange sealed.
  assert (Hid : forall bs, to_u32 (crc32 bs) = crc32 bs).
  { intros bs. unfold to_u32. apply Z.mod_small. apply Hrange. }
  unfold sealed, WG0XActuatorInfo_generateCRC, WG0XActuatorInfo_verifyCRC,
    upto_crc32_264, upto_crc32_256.
  cbn [info_0_252 crc32_256_ info_256_260 crc32_264_].
  rewrite !Hid. repeat split.
  - rewrite Z.eqb_refl. reflexivity.
  - intros c. rewrite (Z.eqb_refl (crc32 (info_0_252 this))).
    apply orb_true_r.
Qed.

Lemma generated_crc_verifies_witness :
  (forall bs, 0 <= byte_sum bs < 4294967296) /\
  WG0XActuatorInfo_verifyCRC byte_sum
    (WG0XActuatorInfo_generateCRC byte_sum
       {| info_0_252 := repeat 7 252; crc32_256_ := 0;
          info_256_260 := [0; 0; 0; 0]; crc32_264_ := 0 |}) = true.
Proof.
  assert (R : forall bs, 0 <= byte_sum bs < 4294967296).
  { intros bs. unfold byte_sum. apply Z.mod_pos_bound. lia. }
  split; [exact R|].
  exact (proj1 (generated_crc_verifies byte_sum
                  {| info_0_252 := repeat 7 252; crc32_256_ := 0;
                     info_256_260 := [0; 0; 0; 0]; crc32_264_ := 0 |} R)).
Defined.

(** ** Status strings *)

Section StatusStringFacts.
Import String.
Context `{Wg0xHeader} `{Wg0xStatusBits}.

(** X27.  [modeString] prints "OFF" for mode 0 and for no other mode.  For a mode
    that is not 0 it prints the names of the bits set, in the order of the
    source and separated by a comma and a blank; where none of the six bits
    it knows is set, that is the empty string. *)
Theorem modeString_names_the_bits (mode : Z) :
  (modeString mode = "OFF"%string <-> mode = 0) /\
  (mode <> 0 ->
   modeString mode
   = concat ", "
       (names_of mode
          [(MODE_ENABLE, "ENABLE"%string); (MODE_CURRENT, "CURRENT"%string);
           (MODE_UNDERVOLTAGE, "UNDERVOLTAGE"%string);
           (MODE_SAFETY_RESET, "SAFETY_RESET"%string);
           (MODE_SAFETY_LOCKOUT, "SAFETY_LOCKOUT"%string);
           (MODE_RESET, "RESET"%string)])).
Proof.
  unfold modeString, names_of, add_name.
  change (nonzero mode) with (negb (mode =? 0)).
  destruct (mode =? 0) eqn:Hz; cbn [negb].
  - apply Z.eqb_eq in Hz. split; [tauto | intros Hne; contradiction].
  - apply Z.eqb_neq in Hz. cbn [filter map fst snd].
    destruct (nonzero (Z.land mode MODE_ENABLE));
    destruct (nonzero (Z.land mode MODE_CURRENT));
    destruct (nonzero (Z.land mode MODE_UNDERVOLTAGE));
    destruct (nonzero (Z.land mode MODE_SAFETY_RESET));
    destruct (nonzero (Z.land mode MODE_SAFETY_LOCKOUT));
    destruct (nonzero (Z.land mode MODE_RESET));
    (split; [split; [intros E; discriminate E | intros E; contradiction]
            | intros _; reflexivity]).
Qed.

(** X28.  [safetyDisableString] prints "ENABLED" exactly when the DISABLED bit is
    clear; otherwise the text starts with "DISABLED", followed by the names
    of the other bits set, each after a comma and a blank. *)
Theorem safetyDisableString_names_the_bits (status : Z) :
  (safetyDisableString status = "ENABLED"%string
   <-> Z.land status SAFETY_DISABLED = 0) /\
  (Z.land status SAFETY_DISABLED <> 0 ->
   safetyDisableString status
   = concat ", "
       ("DISABLED"%string ::
        names_of status
          [(SAFETY_UNDERVOLTAGE, "UNDERVOLTAGE"%string);
           (SAFETY_OVER_CURRENT, "OVER_CURRENT"%string);
           (SAFETY_BOARD_OVER_TEMP, "BOARD_OVER_TEMP"%string);
           (SAFETY_HBRIDGE_OVER_TEMP, "HBRIDGE_OVER_TEMP"%string);
           (SAFETY_OPERATIONAL, "OPERATIONAL"%string);
           (SAFETY_WATCHDOG, "WATCHDOG"%string)])).
Proof.
  unfold safetyDisableString, names_of, add_name.
  destruct (nonzero (Z.land status SAFETY_DISABLED)) eqn:Hd; unfold nonzero in Hd.
  - apply negb_true_iff, Z.eqb_neq in Hd. cbn [filter map fst snd].
    destruct (nonzero (Z.land status SAFETY_UNDERVOLTAGE));
    destruct (nonzero (Z.land status SAFETY_OVER_CURRENT));
    destruct (nonzero (Z.land status SAFETY_BOARD_OVER_TEMP));
    destruct (nonzero (Z.land status SAFETY_HBRIDGE_OVER_TEMP));
    destruct (nonzero (Z.land status SAFETY_OPERATIONAL));
    destruct (nonzero (Z.land status SAFETY_WATCHDOG));
    (split; [split; [intros E; discriminate E | intros E; contradiction]
            | intros _; reflexivity]).
  - apply negb_false_iff, Z.eqb_eq in Hd.
    split; [tauto | intros Hne; contradiction].
Qed.

End StatusStringFacts.

Section StatusStringRuns.
Import String.

Lemma modeString_names_the_bits_witness :
  modeString (H:=sample_header) (H0:=sample_status_bits) 3
  = "ENABLE, CURRENT"%string.
Proof.
  rewrite (proj2 (modeString_names_the_bits (H:=sample_header)
                    (H0:=sample_status_bits) 3) ltac:(lia)).
  reflexivity.
Defined.

Lemma safetyDisableString_names_the_bits_witness :
  safetyDisableString (H:=sample_status_bits) 5
  = "DISABLED, OVER_CURRENT"%string.
Proof.
  rewrite (proj2 (safetyDisableString_names_the_bits (H0:=sample_status_bits) 5)
             ltac:(vm_compute; discriminate)).
  reflexivity.
Defined.

End StatusStringRuns.

